(** * Thrombophilia advisor: catalog builder and decision verifier

    A shallow embedding of the two scripts of the repository,

    - [verification/generate_complete_data.py] (module [Builder]), which
      assembles the 69 recommendation records and writes [data.js], and
    - [verification/verify_calculations.py] (module [Verifier]), which loads
      [data.js] and the Agreement sheet and compares the decisions,

    together with the pieces of the Python runtime they rely on: string
    methods ([PyStr]), insertion-ordered dictionaries ([Dict]), the [re]
    patterns used by the verifier ([Re]) and [json.dumps] ([Json]).

    Numbers.  Python floats are modelled by exact rationals [Q]: every
    literal of the parameter tables is a short decimal, and comparisons
    between such literals agree with the comparisons of the floats they
    denote.  The threshold formulas are studied in exact arithmetic
    ([Verifier.calculate_thresholds]) and, for what depends on rounding,
    in the arithmetic of binary64 floats ([Binary64.calculate_thresholds]:
    the same expressions, each operation rounded to the nearest float);
    a division by zero is the only arithmetic error kept
    ([ZeroDivisionError], modelled by [None]). *)

From Stdlib Require Import QArith ZArith String Ascii List Bool Lia Lqa DecimalString
  Sorted Qround Qabs Qpower.
From stdpp Require Import base gmap strings.
Import ListNotations.

Local Open Scope string_scope.

(* ===================================================================== *)
(** * Python strings *)
(* ===================================================================== *)

Module PyStr.

(** [str.isspace] on one ASCII character: TAB, LF, VT, FF, CR, the four
    separators FS..US, and the space.  The same set is what [\s] matches
    in a [str] pattern. *)
Definition isspace (c : ascii) : bool :=
  let n := nat_of_ascii c in
  ((9 <=? n)%nat && (n <=? 13)%nat) || ((28 <=? n)%nat && (n <=? 32)%nat).

(** [c.isdigit()] for ASCII, the set of [\d]. *)
Definition isdigit (c : ascii) : bool :=
  let n := nat_of_ascii c in (48 <=? n)%nat && (n <=? 57)%nat.

(** [s.startswith(p)] *)
Definition startswith (s p : string) : bool := String.prefix p s.

(** [p in s] on strings: [p] occurs as a substring of [s]. *)
Fixpoint contains (p s : string) : bool :=
  String.prefix p s ||
  match s with
  | EmptyString => false
  | String _ s' => contains p s'
  end.

(** [s.lstrip()].  A text is a sequence of 8-bit characters, and what is
    removed here and in [rstrip] are the ASCII spaces of [isspace]; the
    spaces of Unicode beyond ASCII (U+00A0 and the like), which Python
    removes as well, are kept as the bytes they are. *)
Fixpoint lstrip (s : string) : string :=
  match s with
  | String c s' => if isspace c then lstrip s' else s
  | EmptyString => EmptyString
  end.

(** [s.rstrip()]: a character is dropped when it is a space and all that
    follows it has been dropped. *)
Fixpoint rstrip (s : string) : string :=
  match s with
  | EmptyString => EmptyString
  | String c s' =>
      match rstrip s' with
      | EmptyString => if isspace c then EmptyString else String c EmptyString
      | r => String c r
      end
  end.

(** [s.strip()] *)
Definition strip (s : string) : string := rstrip (lstrip s).

(** [s.upper()] on ASCII. *)
Definition upper_char (c : ascii) : ascii :=
  let n := nat_of_ascii c in
  if (97 <=? n)%nat && (n <=? 122)%nat then ascii_of_nat (n - 32) else c.

Fixpoint upper (s : string) : string :=
  match s with
  | EmptyString => EmptyString
  | String c s' => String (upper_char c) (upper s')
  end.

(** [x in [a, b, ...]] for a list of strings. *)
Definition in_list (x : string) (l : list string) : bool :=
  existsb (String.eqb x) l.

(** [sep.join(l)] *)
Fixpoint join (sep : string) (l : list string) : string :=
  match l with
  | [] => EmptyString
  | [x] => x
  | x :: l' => x ++ sep ++ join sep l'
  end.

(** [str(n)] for a non-negative integer. *)
Definition of_N (n : N) : string := NilEmpty.string_of_uint (N.to_uint n).

(** [str(z)] for an integer. *)
Definition of_Z (z : Z) : string :=
  match z with
  | Zneg p => "-" ++ of_N (Npos p)
  | _ => of_N (Z.to_N z)
  end.

(** The first [n] characters of [s]: the slice [s[:n]]. *)
Fixpoint take (n : nat) (s : string) : string :=
  match n, s with
  | S n', String c s' => String c (take n' s')
  | _, _ => EmptyString
  end.

(** [c * n]: a character repeated. *)
Fixpoint replicate (n : nat) (c : ascii) : string :=
  match n with
  | O => EmptyString
  | S n' => String c (replicate n' c)
  end.

(** [s * n]: a string repeated. *)
Fixpoint replicate_str (n : nat) (s : string) : string :=
  match n with
  | O => EmptyString
  | S n' => s ++ replicate_str n' s
  end.

End PyStr.

(* ===================================================================== *)
(** * Insertion-ordered dictionaries *)
(* ===================================================================== *)

(** A Python [dict] whose iteration order is observed ([js_data.items()]):
    an association list without duplicate keys, in insertion order.
    Assigning to a key that is present replaces the value in place. *)
Module Dict.
Section Defs.
Context {V : Type}.

Definition t := list (string * V).

Definition empty : t := [].

(** [d.get(k)] *)
Fixpoint get (d : t) (k : string) : option V :=
  match d with
  | [] => None
  | (k', v) :: d' => if String.eqb k k' then Some v else get d' k
  end.

(** [k in d] *)
Definition mem (d : t) (k : string) : bool :=
  match get d k with Some _ => true | None => false end.

(** [d[k] = v] *)
Fixpoint set (d : t) (k : string) (v : V) : t :=
  match d with
  | [] => [(k, v)]
  | (k', v') :: d' =>
      if String.eqb k k' then (k', v) :: d' else (k', v') :: set d' k v
  end.

(** [d.items()] *)
Definition items (d : t) : list (string * V) := d.

(** [list(d)], the keys in order. *)
Definition keys (d : t) : list string := map fst d.
End Defs.
Arguments t : clear implicits.
End Dict.

(* ===================================================================== *)
(** * The regular expressions of the verifier *)
(* ===================================================================== *)

(** A backtracking matcher for the fragment of Python's [re] that
    [load_js_data] uses: literals, [.] under [re.DOTALL], character
    classes, concatenation, greedy and lazy repetition, and numbered
    groups.  Alternatives are tried in the priority order of [re]; the
    first complete match wins. *)
Module Re.

Inductive regex : Type :=
| Eps                               (* the empty pattern *)
| Chr (c : ascii)                   (* one literal character *)
| Dot                               (* [.] with re.DOTALL: any character *)
| Cls (p : ascii -> bool)           (* a character class such as \s or \d *)
| Cat (r1 r2 : regex)               (* r1 r2 *)
| Star (greedy : bool) (r : regex)  (* r* when greedy, r*? otherwise *)
| Grp (n : nat) (r : regex).        (* the n-th parenthesised group *)

(** [r+] and [r+?] *)
Definition Plus (greedy : bool) (r : regex) : regex := Cat r (Star greedy r).

(** A literal string. *)
Fixpoint Lit (s : string) : regex :=
  match s with
  | EmptyString => Eps
  | String c s' => Cat (Chr c) (Lit s')
  end.

(** What a group captured: the subject from the place where the group
    began, and the number of characters the group took of it. *)
Definition span : Type := string * N.

Definition span_text (sp : span) : string :=
  PyStr.take (N.to_nat (snd sp)) (fst sp).

(** The capture of each group; [None] for a group that did not take part
    in the match. *)
Definition groups := nat -> option span.

Definition no_groups : groups := fun _ => None.

Definition set_group (n : nat) (sp : span) (g : groups) : groups :=
  fun i => if Nat.eqb i n then Some sp else g i.

Section Matcher.
Context {A : Type}.

(** What remains to be matched after a pattern: a function of the rest
    of the subject, the offset reached and the captures so far. *)
Definition cont : Type := string -> N -> groups -> option A.

(** [star_loop greedy body k fuel s pos g]: the repetition of [body].
    A greedy loop tries one more iteration before it tries what
    follows; a lazy loop tries what follows first.  An iteration that
    consumed nothing is not repeated. *)
Fixpoint star_loop (greedy : bool)
         (body : string -> N -> groups -> cont -> option A)
         (k : cont) (fuel : nat) (s : string) (pos : N) (g : groups)
  : option A :=
  match fuel with
  | O => k s pos g
  | S fuel' =>
      let again (_ : unit) :=
        body s pos g
             (fun s' pos' g' =>
                if (pos <? pos')%N
                then star_loop greedy body k fuel' s' pos' g'
                else None) in
      if greedy then
        match again tt with Some x => Some x | None => k s pos g end
      else
        match k s pos g with Some x => Some x | None => again tt end
  end.

(** [run r s pos g k] matches [r] at the front of [s], which begins at
    offset [pos] of the subject, and hands the rest of the subject, the
    new offset and the captures to the continuation [k].  When [k]
    fails the matcher backtracks into [r]. *)
Fixpoint run (r : regex) (s : string) (pos : N) (g : groups) (k : cont)
         {struct r} : option A :=
  match r with
  | Eps => k s pos g
  | Chr c =>
      match s with
      | String b s' => if Ascii.eqb c b then k s' (N.succ pos) g else None
      | EmptyString => None
      end
  | Dot =>
      match s with
      | String _ s' => k s' (N.succ pos) g
      | EmptyString => None
      end
  | Cls p =>
      match s with
      | String b s' => if p b then k s' (N.succ pos) g else None
      | EmptyString => None
      end
  | Cat r1 r2 => run r1 s pos g (fun s' pos' g' => run r2 s' pos' g' k)
  | Star greedy r1 =>
      (* each iteration consumes a character: the length is enough fuel *)
      star_loop greedy (run r1) k (String.length s) s pos g
  | Grp n r1 =>
      run r1 s pos g
          (fun s' pos' g' => k s' pos' (set_group n (s, (pos' - pos)%N) g'))
  end.
End Matcher.

(** A match object: [start()], [end()], the subject after the match, and
    the captures. *)
Record rmatch : Type := MkMatch {
  m_start : N;
  m_end : N;
  m_rest : string;
  m_groups : groups
}.

(** [match.group(n)] *)
Definition m_group (mt : rmatch) (n : nat) : option string :=
  match m_groups mt n with
  | Some sp => Some (span_text sp)
  | None => None
  end.

(** [pattern.match(s, pos)]: a match that starts exactly at [pos]. *)
Definition match_at (r : regex) (s : string) (pos : N) : option rmatch :=
  run r s pos no_groups (fun s' pos' g => Some (MkMatch pos pos' s' g)).

(** [pattern.search]: the leftmost start position that has a match. *)
Fixpoint search_from (r : regex) (s : string) (pos : N) : option rmatch :=
  match match_at r s pos with
  | Some mt => Some mt
  | None =>
      match s with
      | EmptyString => None
      | String _ s' => search_from r s' (N.succ pos)
      end
  end.

Definition search (r : regex) (s : string) : option rmatch :=
  search_from r s 0%N.

(** [pattern.finditer]: the successive non-overlapping matches, left to
    right.  After an empty match the scan moves one character on. *)
Fixpoint finditer_from (fuel : nat) (r : regex) (s : string) (pos : N)
  : list rmatch :=
  match fuel with
  | O => []
  | S fuel' =>
      match search_from r s pos with
      | None => []
      | Some mt =>
          mt ::
          (if (m_start mt <? m_end mt)%N
           then finditer_from fuel' r (m_rest mt) (m_end mt)
           else match m_rest mt with
                | EmptyString => []
                | String _ s' => finditer_from fuel' r s' (N.succ (m_end mt))
                end)
      end
  end.

Definition finditer (r : regex) (s : string) : list rmatch :=
  finditer_from (S (String.length s)) r s 0%N.

End Re.

(* ===================================================================== *)
(** * Python numbers and [json.dumps] *)
(* ===================================================================== *)

Module Py.

(** A number stored in a record: an [int] or a [float]. *)
Inductive number : Type :=
| Int (z : Z)
| Float (q : Q).

(** The exceptions the two scripts can raise in the fragment modelled. *)
Inductive exn : Type :=
| ValueError (msg : string)
| TypeError
| ZeroDivisionError.

(** [x < y] on floats. *)
Definition ltb (x y : Q) : bool := negb (Qle_bool y x).

(** [x / y] on floats; [None] stands for [ZeroDivisionError]. *)
Definition truediv (x y : Q) : option Q :=
  if Qeq_bool y 0 then None else Some (x / y)%Q.

(** The double quote character. *)
Definition dquote : ascii := "034"%char.

(** The newline character. *)
Definition nl : string := String "010"%char EmptyString.

(** [s[n:]] *)
Fixpoint drop (n : nat) (s : string) : string :=
  match n, s with
  | S n', String _ s' => drop n' s'
  | _, _ => s
  end.

(** The decimal digits of [q] when it is a decimal fraction: the least
    [k <= fuel] with [q * 10^k] an integer, and that integer.  When the
    fuel runs out the value is truncated. *)
Fixpoint scale (fuel : nat) (num den : Z) (k : nat) : Z * nat :=
  match fuel with
  | O => ((num / den)%Z, k)
  | S fuel' =>
      if (num mod den =? 0)%Z then ((num / den)%Z, k)
      else scale fuel' (num * 10)%Z den (S k)
  end.

(** Trailing zeros removed from a positive integer, counting them. *)
Fixpoint strip_zeros (fuel : nat) (m : Z) (zeros : nat) : Z * nat :=
  match fuel with
  | O => (m, zeros)
  | S fuel' =>
      if (0 <? m)%Z && (m mod 10 =? 0)%Z
      then strip_zeros fuel' (m / 10)%Z (S zeros)
      else (m, zeros)
  end.

(** [repr(x)] of a positive float given as a rational: the shortest
    digit string and the position of the decimal point, laid out the way
    [float.__repr__] does (positional when the point lies within
    [-4 < decpt <= 16], exponent form otherwise).  It is exact for the
    floats written as decimals of at most 15 significant digits, which
    round-trip; all literals of the tables are of that kind. *)
Definition repr_pos (q : Q) : string :=
  let '(m0, k) := scale 400 (Qnum q) (Zpos (Qden q)) 0 in
  let '(m, zeros) := strip_zeros 400 m0 0 in
  let digits := PyStr.of_Z m in
  let len := Z.of_nat (String.length digits) in
  let decpt := (len + Z.of_nat zeros - Z.of_nat k)%Z in
  if ((-4 <? decpt) && (decpt <=? 16))%Z then
    if (decpt <=? 0)%Z then
      "0." ++ PyStr.replicate (Z.to_nat (- decpt)) "0"%char ++ digits
    else if (decpt <? len)%Z then
      PyStr.take (Z.to_nat decpt) digits ++ "." ++ drop (Z.to_nat decpt) digits
    else
      digits ++ PyStr.replicate (Z.to_nat (decpt - len)) "0"%char ++ ".0"
  else
    let e := (decpt - 1)%Z in
    let mant :=
      PyStr.take 1 digits ++
      (if (1 <? len)%Z then "." ++ drop 1 digits else EmptyString) in
    let ee := PyStr.of_Z (Z.abs e) in
    mant ++ "e" ++ (if (e <? 0)%Z then "-" else "+") ++
    (if (String.length ee <? 2)%nat then "0" ++ ee else ee).

(** [repr(x)] of a float. *)
Definition repr_float (q : Q) : string :=
  match Qnum q with
  | Z0 => "0.0"
  | Zpos _ => repr_pos q
  | Zneg _ => "-" ++ repr_pos (Qopp q)
  end.

(** Two hexadecimal digits. *)
Definition hex_digit (n : nat) : ascii :=
  if (n <? 10)%nat then ascii_of_nat (48 + n) else ascii_of_nat (87 + n).

Definition hex2 (n : nat) : string :=
  String (hex_digit (n / 16)) (String (hex_digit (n mod 16)) EmptyString).

End Py.

Module Json.

(** The values the builder stores in a record. *)
Inductive value : Type :=
| JStr (s : string)
| JNum (n : Py.number)
| JBool (b : bool).

(** A [dict] with string keys, in insertion order. *)
Definition object := list (string * value).

(** One character of a string under [ensure_ascii=True]: the quote and
    the backslash are escaped, the characters outside the printable ASCII
    range are written as escapes. *)
Definition escape_char (c : ascii) : string :=
  let n := nat_of_ascii c in
  if Nat.eqb n 34 then "\" ++ String Py.dquote EmptyString
  else if Nat.eqb n 92 then "\\"
  else if Nat.eqb n 10 then "\n"
  else if Nat.eqb n 13 then "\r"
  else if Nat.eqb n 9 then "\t"
  else if Nat.eqb n 8 then "\b"
  else if Nat.eqb n 12 then "\f"
  else if (n <? 32)%nat || (126 <? n)%nat then "\u00" ++ Py.hex2 n
  else String c EmptyString.

Fixpoint escape (s : string) : string :=
  match s with
  | EmptyString => EmptyString
  | String c s' => escape_char c ++ escape s'
  end.

(** A string literal. *)
Definition dumps_str (s : string) : string :=
  String Py.dquote (escape s ++ String Py.dquote EmptyString).

Definition dumps_value (v : value) : string :=
  match v with
  | JStr s => dumps_str s
  | JNum (Py.Int z) => PyStr.of_Z z
  | JNum (Py.Float q) => Py.repr_float q
  | JBool true => "true"
  | JBool false => "false"
  end.

(** A newline followed by [n] spaces. *)
Definition newline_indent (n : nat) : string :=
  Py.nl ++ PyStr.replicate n " "%char.

(** [json.dumps(o, indent=indent)] of a dict printed at nesting [level]:
    one ["key": value] per line, separated by commas. *)
Definition dumps_object (indent level : nat) (o : object) : string :=
  match o with
  | [] => "{}"
  | _ =>
      "{" ++ newline_indent (indent * S level) ++
      PyStr.join ("," ++ newline_indent (indent * S level))
        (map (fun kv => dumps_str (fst kv) ++ ": " ++ dumps_value (snd kv)) o) ++
      newline_indent (indent * level) ++ "}"
  end.

(** [json.dumps(l, indent=indent)] of a list of dicts. *)
Definition dumps (indent : nat) (l : list object) : string :=
  match l with
  | [] => "[]"
  | _ =>
      "[" ++ newline_indent indent ++
      PyStr.join ("," ++ newline_indent indent) (map (dumps_object indent 1) l) ++
      newline_indent 0 ++ "]"
  end.

End Json.

(* ===================================================================== *)
(** * The Agreement sheet *)
(* ===================================================================== *)

(** One row of the Agreement sheet as both scripts read it: the columns
    1 to 4 and 14.  A cell is [None] when [pd.notna] is false for it, and
    otherwise holds the text [str] gives for it (the number itself for the
    pVTE column). *)
Module Sheet.
Record row : Type := MkRow {
  col1 : option string;    (* the case id *)
  col2 : option string;    (* the ASH decision *)
  col3 : option string;    (* the EUT decision *)
  col4 : option string;    (* agreement flag *)
  col14 : option Q         (* the pVTE of the reference *)
}.

(** [str(cell) if pd.notna(cell) else ""] *)
Definition text (cell : option string) : string :=
  match cell with Some s => s | None => EmptyString end.
End Sheet.

(* ===================================================================== *)
(** * generate_complete_data.py *)
(* ===================================================================== *)

Module Builder.

(** The three decisions the scripts accept from the sheet. *)
Definition valid_decisions : list string := ["NoRx"; "Test"; "Rx"].

(** Lines 26-31: the ASH decision of every case of the Agreement sheet;
    a later row of the same case replaces an earlier one. *)
Definition ash_decisions_of (agreement : list Sheet.row) : gmap string string :=
  fold_left
    (fun (ash_decisions : gmap string string) (row : Sheet.row) =>
       let case := PyStr.strip (Sheet.text (Sheet.col1 row)) in
       let ash := PyStr.strip (Sheet.text (Sheet.col2 row)) in
       if PyStr.startswith case "R" && PyStr.in_list ash valid_decisions
       then <[case := ash]> ash_decisions
       else ash_decisions)
    agreement ∅.

(** [ash_decisions.get(rec_id, 'Unknown')] *)
Definition get_decision (ash_decisions : gmap string string) (rec_id : string)
  : string :=
  match ash_decisions !! rec_id with
  | Some d => d
  | None => "Unknown"
  end.

(** One element of [recommendations].  The keys [bleedingRisk] and
    [isReversed] exist only in the records of one family each. *)
Record recommendation : Type := MkRec {
  id : string;
  pVTE : Q;
  Tp : Q;
  RRt : Q;
  RRrx : Q;
  H_low : Q;
  H_high : Q;
  RRbleed : Py.number;
  decimals : Z;
  description : string;
  ashDecision : string;
  category : string;
  group : string;
  bleedingRisk : option string;
  isReversed : option bool
}.

(** The record as the dict that is serialized: the keys in the order of
    the dict display. *)
Definition to_object (r : recommendation) : Json.object :=
  ([ ("id", Json.JStr (id r));
    ("pVTE", Json.JNum (Py.Float (pVTE r)));
    ("Tp", Json.JNum (Py.Float (Tp r)));
    ("RRt", Json.JNum (Py.Float (RRt r)));
    ("RRrx", Json.JNum (Py.Float (RRrx r)));
    ("H_low", Json.JNum (Py.Float (H_low r)));
    ("H_high", Json.JNum (Py.Float (H_high r)));
    ("RRbleed", Json.JNum (RRbleed r));
    ("decimals", Json.JNum (Py.Int (decimals r)));
    ("description", Json.JStr (description r));
    ("ashDecision", Json.JStr (ashDecision r));
    ("category", Json.JStr (category r));
    ("group", Json.JStr (group r)) ]
   ++ match bleedingRisk r with
      | Some b => [("bleedingRisk", Json.JStr b)]
      | None => []
      end
   ++ match isReversed r with
      | Some b => [("isReversed", Json.JBool b)]
      | None => []
      end)%list.

(** ** R1-R10 *)

Record base_params : Type := MkBase {
  b_pVTE : Q;
  b_Tp : Q;
  b_RRt : Q;
  b_RRrx : Q;
  b_RRbleed : Q;
  b_description : string;
  b_category : string
}.

Definition r1_10_base : list (string * base_params) :=
  [ ("R1", MkBase 0.10 0.38 1.65 0.15 2.17
             "Unprovoked VTE - completed short-term treatment"
             "Symptomatic VTE");
    ("R2", MkBase 0.01 0.38 1.65 0.15 2.17
             "VTE provoked by surgery"
             "Symptomatic VTE");
    ("R3", MkBase 0.05 0.38 1.65 0.15 2.17
             "VTE provoked by nonsurgical major transient risk factor"
             "Symptomatic VTE");
    ("R4", MkBase 0.05 0.38 1.65 0.15 2.17
             "VTE provoked by pregnancy or postpartum"
             "Symptomatic VTE");
    ("R5", MkBase 0.05 0.38 1.65 0.15 2.17
             "VTE associated with combined oral contraceptive use"
             "Symptomatic VTE");
    ("R6", MkBase 0.075 0.38 1.65 0.15 2.17
             "Unspecified type of VTE"
             "Symptomatic VTE");
    ("R7", MkBase 0.038 0.436 1.65 0.15 2.17
             "Cerebral venous thrombosis - discontinue setting"
             "VTE in Unusual Sites");
    ("R8", MkBase 0.038 0.436 1.65 0.15 2.17
             "Cerebral venous thrombosis - continue indefinitely"
             "VTE in Unusual Sites");
    ("R9", MkBase 0.05 0.416 1.65 0.15 2.17
             "Splanchnic venous thrombosis - discontinue setting"
             "VTE in Unusual Sites");
    ("R10", MkBase 0.05 0.416 1.65 0.15 2.17
             "Splanchnic venous thrombosis - continue indefinitely"
             "VTE in Unusual Sites") ].

(** Lines 72-92: a LOW and a HIGH record for every base scenario. *)
Definition build_r1_10 (base : list (string * base_params))
           (ash_decisions : gmap string string) : list recommendation :=
  flat_map
    (fun '(base_id, params) =>
       map
         (fun risk_level =>
            let rec_id := base_id ++ " " ++ risk_level in
            let H : Q := (if String.eqb risk_level "low" then 0.005 else 0.015)%Q in
            {| id := rec_id;
               pVTE := b_pVTE params;
               Tp := b_Tp params;
               RRt := b_RRt params;
               RRrx := b_RRrx params;
               H_low := H;
               H_high := H;
               RRbleed := Py.Float (b_RRbleed params);
               decimals := if Py.ltb (b_pVTE params) 0.1 then 2 else 1;
               description :=
                 b_description params ++ " (" ++ PyStr.upper risk_level
                 ++ " bleeding risk)";
               ashDecision := get_decision ash_decisions rec_id;
               category := b_category params;
               group := "R1-R10";
               bleedingRisk := Some risk_level;
               isReversed := None |})
         ["low"; "high"])
    base.

(** ** R11-R14 *)

(** A row [(id, pVTE, Tp, RRt, RRrx, H, RRbleed, description)]. *)
Definition row7 : Type := string * Q * Q * Q * Q * Q * Q * string.

Definition r11_14_data : list row7 :=
  [ ("R11a", 0.015, 0.5, 2.71, 0.54, 0.004, 2.09, "First-degree relative with FVL, minor provoking risk factor");
    ("R11b", 0.015, 0.5, 2.35, 0.54, 0.004, 2.09, "First-degree relative with PGM, minor provoking risk factor");
    ("R11c", 0.05, 0.5, 12.17, 0.54, 0.004, 2.09, "First-degree relative with Protein C deficiency, minor risk factor");
    ("R11d", 0.05, 0.5, 7.47, 0.54, 0.004, 2.09, "First-degree relative with Protein S deficiency, minor risk factor");
    ("R11e", 0.05, 0.5, 5.98, 0.54, 0.004, 2.09, "First-degree relative with Antithrombin deficiency, minor risk factor");
    ("R12a", 0.015, 0.512, 2.82, 0.54, 0.004, 2.09, "Panel testing - FVL known in family");
    ("R12b", 0.015, 0.524, 2.55, 0.54, 0.004, 2.09, "Panel testing - PGM known in family");
    ("R12c", 0.05, 0.533, 11.76, 0.54, 0.004, 2.09, "Panel testing - Protein C deficiency known in family");
    ("R12d", 0.05, 0.533, 7.36, 0.54, 0.004, 2.09, "Panel testing - Protein S deficiency known in family");
    ("R12e", 0.05, 0.534, 5.98, 0.54, 0.004, 2.09, "Panel testing - Antithrombin deficiency known in family");
    ("R13", 0.012, 0.142, 3.89, 0.54, 0.004, 2.09, "Family history of VTE, unknown thrombophilia status, minor risk factor");
    ("R14a", 0.0075, 0.5, 2.71, 0.54, 0.004, 2.09, "Family history of FVL (no VTE), minor risk factor");
    ("R14b", 0.0075, 0.5, 2.54, 0.54, 0.004, 2.09, "Family history of PGM (no VTE), minor risk factor");
    ("R14c", 0.025, 0.5, 12.17, 0.54, 0.004, 2.09, "First-degree relative with Protein C (no VTE), minor risk factor");
    ("R14d", 0.025, 0.5, 7.47, 0.54, 0.004, 2.09, "First-degree relative with Protein S (no VTE), minor risk factor");
    ("R14e", 0.025, 0.5, 5.98, 0.54, 0.004, 2.09, "First-degree relative with Antithrombin (no VTE), minor risk factor") ]%Q.

(** Lines 114-129. *)
Definition build_r11_14 (data : list row7)
           (ash_decisions : gmap string string) : list recommendation :=
  map
    (fun '(rec_id, pvte, tp, rrt, rrrx, h, rrbleed, desc) =>
       {| id := rec_id;
          pVTE := pvte;
          Tp := tp;
          RRt := rrt;
          RRrx := rrrx;
          H_low := h;
          H_high := h;
          RRbleed := Py.Float rrbleed;
          decimals := if Py.ltb pvte 0.01 then 3 else 2;
          description := desc;
          ashDecision := get_decision ash_decisions rec_id;
          category := "Asymptomatic with Family History";
          group := "R11-R14";
          bleedingRisk := None;
          isReversed := None |})
    data.

(** ** R15-R20, the reversed model *)

(** A row [(id, pVTE, Tp, RRt, RRrx, H, description)]. *)
Definition row6 : Type := string * Q * Q * Q * Q * Q * string.

Definition r15_20_data : list row6 :=
  [ ("R15", 0.00035, 0.0685, 5.89, 3.5, 0.0595, "General population women considering COC");
    ("R16a", 0.002, 0.0685, 1.8, 2.22, 0.1077, "General population women considering HRT - estrogen alone");
    ("R16b", 0.002, 0.0685, 1.8, 4.28, 0.1559, "General population women considering HRT - combined");
    ("R17", 0.0012, 0.142, 3.87, 3.5, 0.0595, "Women with family history of VTE considering COC");
    ("R18a", 0.003, 0.142, 2.08, 2.22, 0.1077, "Women with family history of VTE considering HRT - estrogen");
    ("R18b", 0.003, 0.142, 2.08, 4.28, 0.1559, "Women with family history of VTE considering HRT - combined");
    ("R19a", 0.0025, 0.5, 2.71, 3.5, 0.0595, "Women with known FVL in family considering COC");
    ("R19b", 0.0025, 0.5, 2.35, 3.5, 0.0595, "Women with known PGM in family considering COC");
    ("R19c", 0.0084, 0.5, 12.07, 3.5, 0.0595, "Women with known Protein C deficiency considering COC");
    ("R19d", 0.0063, 0.5, 7.24, 3.5, 0.0595, "Women with known Protein S deficiency considering COC");
    ("R19e", 0.0049, 0.5, 5.98, 3.5, 0.0595, "Women with known Antithrombin deficiency considering COC");
    ("R20a", 0.0025, 0.5, 2.6, 2.22, 0.1077, "Women with known FVL considering HRT - estrogen");
    ("R20b", 0.0025, 0.5, 2.6, 4.28, 0.1559, "Women with known FVL considering HRT - combined");
    ("R20c", 0.0025, 0.5, 0.8, 2.22, 0.1077, "Women with known PGM considering HRT - estrogen");
    ("R20d", 0.0025, 0.5, 0.8, 4.28, 0.1559, "Women with known PGM considering HRT - combined");
    ("R20e", 0.0084, 0.5, 1.7, 2.22, 0.1077, "Women with Protein C deficiency considering HRT - estrogen");
    ("R20f", 0.0084, 0.5, 1.7, 4.28, 0.1559, "Women with Protein C deficiency considering HRT - combined");
    ("R20g", 0.0063, 0.5, 1.8, 2.22, 0.1077, "Women with Protein S deficiency considering HRT - estrogen");
    ("R20h", 0.0063, 0.5, 1.8, 4.28, 0.1559, "Women with Protein S deficiency considering HRT - combined");
    ("R20i", 0.0049, 0.5, 1.9, 2.22, 0.1077, "Women with Antithrombin deficiency considering HRT - estrogen");
    ("R20j", 0.0049, 0.5, 1.9, 4.28, 0.1559, "Women with Antithrombin deficiency considering HRT - combined") ]%Q.

(** Lines 156-172. *)
Definition build_r15_20 (data : list row6)
           (ash_decisions : gmap string string) : list recommendation :=
  map
    (fun '(rec_id, pvte, tp, rrt, rrrx, h, desc) =>
       {| id := rec_id;
          pVTE := pvte;
          Tp := tp;
          RRt := rrt;
          RRrx := rrrx;
          H_low := h;
          H_high := h;
          RRbleed := Py.Int 1;
          decimals := 4;
          description := desc;
          ashDecision := get_decision ash_decisions rec_id;
          category := "Women Considering COC/HRT";
          group := "R15-R20";
          bleedingRisk := None;
          isReversed := Some true |})
    data.

(** ** R21-R23 *)

Definition r21_23_data : list row7 :=
  [ ("R21a", 0.0375, 0.25, 20.96, 0.41, 0.00634, 3.21, "Pregnant with homozygous FVL - antepartum prophylaxis");
    ("R21b", 0.018, 0.5, 10.51, 0.41, 0.00634, 3.21, "Pregnant with compound heterozygous FVL/PGM - antepartum");
    ("R21c", 0.004, 0.5, 6.04, 0.41, 0.00634, 3.21, "Pregnant with heterozygous FVL - antepartum prophylaxis");
    ("R21d", 0.008, 0.5, 5.03, 0.41, 0.00634, 3.21, "Pregnant with heterozygous PGM - antepartum prophylaxis");
    ("R21e", 0.02025, 0.25, 9.36, 0.41, 0.00634, 3.21, "Pregnant with Protein C/S/AT deficiency - antepartum");
    ("R22a", 0.0375, 0.25, 20.96, 0.41, 0.00846, 3.38, "Postpartum with homozygous FVL - postpartum prophylaxis");
    ("R22b", 0.018, 0.5, 10.51, 0.41, 0.00846, 3.38, "Postpartum with compound heterozygous FVL/PGM");
    ("R22c", 0.004, 0.5, 6.04, 0.41, 0.00846, 3.38, "Postpartum with heterozygous FVL");
    ("R22d", 0.008, 0.5, 5.03, 0.41, 0.00846, 3.38, "Postpartum with heterozygous PGM");
    ("R22e", 0.02025, 0.25, 9.36, 0.41, 0.00846, 3.38, "Postpartum with Protein C/S/AT deficiency");
    ("R23a", 0.05, 0.142, 3.28, 0.61, 0.0036, 1.65, "Pregnant with family history VTE, unknown thrombophilia - antepartum");
    ("R23b", 0.066, 0.142, 3.28, 0.61, 0.008, 1.65, "Postpartum with family history VTE, unknown thrombophilia") ]%Q.

(** Lines 190-205. *)
Definition build_r21_23 (data : list row7)
           (ash_decisions : gmap string string) : list recommendation :=
  map
    (fun '(rec_id, pvte, tp, rrt, rrrx, h, rrbleed, desc) =>
       {| id := rec_id;
          pVTE := pvte;
          Tp := tp;
          RRt := rrt;
          RRrx := rrrx;
          H_low := h;
          H_high := h;
          RRbleed := Py.Float rrbleed;
          decimals := if Py.ltb pvte 0.01 then 4 else 3;
          description := desc;
          ashDecision := get_decision ash_decisions rec_id;
          category := "Women Planning Pregnancy";
          group := "R21-R23";
          bleedingRisk := None;
          isReversed := None |})
    data.

(** The list [recommendations] once the four loops have run. *)
Definition recommendations (ash_decisions : gmap string string)
  : list recommendation :=
  (build_r1_10 r1_10_base ash_decisions
   ++ build_r11_14 r11_14_data ash_decisions
   ++ build_r15_20 r15_20_data ash_decisions
   ++ build_r21_23 r21_23_data ash_decisions)%list.

(** ** The report and the two artifacts (lines 207-256) *)

(** What the script does to the outside world, in order. *)
Inductive effect : Type :=
| Stdout (text : string)                  (* print(text) *)
| FileWrite (path content : string).      (* open(path, 'w'), one write *)

(** [Counter(...)] read through [sorted(groups.items())]: the groups in
    increasing order of their name, each with its number of records. *)
Fixpoint count_into (g : string) (counts : list (string * nat))
  : list (string * nat) :=
  match counts with
  | [] => [(g, 1%nat)]
  | (g', c) :: rest =>
      if String.eqb g g' then (g', S c) :: rest
      else if String.ltb g g' then (g, 1%nat) :: (g', c) :: rest
      else (g', c) :: count_into g rest
  end.

Definition sorted_group_counts (recs : list recommendation)
  : list (string * nat) :=
  fold_left (fun counts r => count_into (group r) counts) recs [].

(** [repr] of a [str]: single quotes, unless the text has a single quote
    and no double quote. *)
Definition repr_char (quote : ascii) (c : ascii) : string :=
  let n := nat_of_ascii c in
  if Ascii.eqb c quote then String "092"%char (String c EmptyString)
  else if Nat.eqb n 92 then "\\"
  else if Nat.eqb n 10 then "\n"
  else if Nat.eqb n 13 then "\r"
  else if Nat.eqb n 9 then "\t"
  else if (n <? 32)%nat || (126 <? n)%nat then "\x" ++ Py.hex2 n
  else String c EmptyString.

Fixpoint repr_body (quote : ascii) (s : string) : string :=
  match s with
  | EmptyString => EmptyString
  | String c s' => repr_char quote c ++ repr_body quote s'
  end.

Definition repr_str (s : string) : string :=
  let quote :=
    if PyStr.contains "'" s && negb (PyStr.contains (String Py.dquote EmptyString) s)
    then Py.dquote else "'"%char in
  String quote (repr_body quote s ++ String quote EmptyString).

(** [repr] of a list of strings. *)
Definition repr_list (l : list string) : string :=
  "[" ++ PyStr.join ", " (map repr_str l) ++ "]".

(** The text of [data.js] around the serialized array. *)
Definition js_header : string :=
  PyStr.join Py.nl
    [ "/**";
      " * ASH Thrombophilia Guidelines - Complete Recommendation Data (69 Recommendations)";
      " *";
      " * Generated from Excel reference file.";
      " *";
      " * Groups:";
      " * - R1-R10 (20): Symptomatic VTE with LOW/HIGH bleeding risk variants";
      " * - R11-R14 (16): Asymptomatic with Family History";
      " * - R15-R20 (21): Women considering COC/HRT (INVERSE model)";
      " * - R21-R23 (12): Women Planning Pregnancy";
      " *";
      " * For R15-R20: RRrx > 1 means treatment INCREASES VTE risk (reversed logic)";
      " */";
      EmptyString;
      "const RECOMMENDATIONS = " ].

Definition js_footer : string :=
  PyStr.join Py.nl
    [ ";";
      EmptyString;
      "// Export for Node.js (if needed)";
      "if (typeof module !== 'undefined' && module.exports) {";
      "    module.exports = { RECOMMENDATIONS };";
      "}";
      EmptyString ].

(** Lines 229-252: the content written to [../data.js]. *)
Definition js_content (recs : list recommendation) : string :=
  js_header ++ Json.dumps 4 (map to_object recs) ++ js_footer.

(** Lines 207-256 as a function of the list [recommendations]: the count
    and the expected count are printed, then the groups and the ids
    without a decision, and the two files are written. *)
Definition report_and_save (recs : list recommendation) : list effect :=
  ([ Stdout (Py.nl ++ "Total recommendations generated: "
             ++ PyStr.of_N (N.of_nat (length recs)));
     Stdout "Expected: 69";
     Stdout (Py.nl ++ "By group:") ]
   ++ map (fun '(g, c) => Stdout ("  " ++ g ++ ": " ++ PyStr.of_N (N.of_nat c)))
          (sorted_group_counts recs)
   ++ (let missing :=
         map id (filter (fun r => String.eqb (ashDecision r) "Unknown") recs) in
       match missing with
       | [] => []
       | _ => [ Stdout (Py.nl ++ "Missing ASH decisions for: " ++ repr_list missing) ]
       end)
   ++ [ FileWrite "complete_recommendations.json"
          (Json.dumps 2 (map to_object recs));
        Stdout (Py.nl ++ "Saved to complete_recommendations.json");
        FileWrite "../data.js" (js_content recs);
        Stdout "Generated ../data.js" ])%list.

(** How a run ends: the effects performed, and the exception that
    stopped it, if any.  A run that ends without exception exits with
    status 0. *)
Record outcome : Type := MkOutcome {
  effects : list effect;
  raised : option Py.exn
}.

Definition exit_status (o : outcome) : Z :=
  match raised o with None => 0 | Some _ => 1 end.

Definition files_written (o : outcome) : list string :=
  flat_map (fun e => match e with FileWrite p _ => [p] | Stdout _ => [] end)
           (effects o).

(** The part of the script that builds nothing: from a value of
    [recommendations] to the end.  No statement of it raises or exits. *)
Definition finish (recs : list recommendation) : outcome :=
  {| effects := report_and_save recs; raised := None |}.

(** The whole script on the rows of the Agreement sheet. *)
Definition main (agreement : list Sheet.row) : outcome :=
  let ash_decisions := ash_decisions_of agreement in
  let o := finish (recommendations ash_decisions) in
  {| effects :=
       Stdout ("Loaded " ++ PyStr.of_N (N.of_nat (size ash_decisions))
               ++ " ASH decisions") :: effects o;
     raised := raised o |}.

End Builder.

(* ===================================================================== *)
(** * verify_calculations.py *)
(* ===================================================================== *)

Module Verifier.

(** ** load_excel_data *)

(** The value stored for a case of the Agreement sheet. *)
Module ExcelRec.
Record t : Type := Mk {
  ash_decision : string;
  eut_decision : string;
  agrees_eut : option string;
  pvte : option Q
}.
End ExcelRec.

(** The cases that are headers of the sheet, not records. *)
Definition header_cases : list string :=
  ["Cases"; "Total: 69"; EmptyString; "n"; "%"; "CASE"; "nan"].

Definition group_names : list string :=
  ["R1-R10"; "R11-R14"; "R15-R20"; "R21-R23"].

(** Lines 38-63, on the rows of the Agreement sheet. *)
Definition load_excel_data (agreement : list Sheet.row)
  : gmap string ExcelRec.t :=
  fold_left
    (fun (excel_data : gmap string ExcelRec.t) (row : Sheet.row) =>
       let case := Sheet.text (Sheet.col1 row) in
       if PyStr.in_list case header_cases then excel_data
       else if existsb (fun g => PyStr.contains g case) group_names then excel_data
       else if negb (String.eqb case EmptyString) && PyStr.startswith case "R" then
         let ash_decision := Sheet.text (Sheet.col2 row) in
         let eut_decision := Sheet.text (Sheet.col3 row) in
         let pvte := Sheet.col14 row in
         if PyStr.in_list ash_decision ["NoRx"; "Test"; "Rx"] then
           <[PyStr.strip case :=
               ExcelRec.Mk ash_decision eut_decision (Sheet.col4 row) pvte]>
             excel_data
         else excel_data
       else excel_data)
    agreement ∅.

(** ** load_js_data *)

(** The value stored for a record of [data.js]. *)
Module JsRec.
Record t : Type := Mk {
  ash_decision : string;
  pvte : Q
}.
End JsRec.

(** A sequence of patterns. *)
Definition seq (l : list Re.regex) : Re.regex := fold_right Re.Cat Re.Eps l.

(** [\s], [\d], the class of the characters other than the double quote,
    and the class of the digits and the dot. *)
Definition ws : Re.regex := Re.Cls PyStr.isspace.
Definition not_quote : Re.regex := Re.Cls (fun c => negb (Ascii.eqb c Py.dquote)).
Definition digit_or_dot : Re.regex :=
  Re.Cls (fun c => PyStr.isdigit c || Ascii.eqb c "."%char).

(** Line 74: [const RECOMMENDATIONS = \[(.*?)\];] with [re.DOTALL]. *)
Definition array_pattern : Re.regex :=
  seq [ Re.Lit "const RECOMMENDATIONS = ";
        Re.Chr "["%char;
        Re.Grp 1 (Re.Star false Re.Dot);
        Re.Chr "]"%char;
        Re.Chr ";"%char ].

(** Line 83: an opening brace, spaces, [id:], spaces, a quoted text
    (group 1); lazily anything up to [ashDecision:], spaces, a quoted
    text (group 2); lazily anything up to [pVTE:], spaces, and a run of
    digits and dots (group 3).  Compiled with [re.DOTALL]. *)
Definition rec_pattern : Re.regex :=
  seq [ Re.Chr "{"%char;
        Re.Star true ws;
        Re.Lit "id:";
        Re.Star true ws;
        Re.Chr Py.dquote;
        Re.Grp 1 (Re.Plus true not_quote);
        Re.Chr Py.dquote;
        Re.Star false Re.Dot;
        Re.Lit "ashDecision:";
        Re.Star true ws;
        Re.Chr Py.dquote;
        Re.Grp 2 (Re.Plus true not_quote);
        Re.Chr Py.dquote;
        Re.Star false Re.Dot;
        Re.Lit "pVTE:";
        Re.Star true ws;
        Re.Grp 3 (Re.Plus true digit_or_dot) ].

(** The value of a run of digits. *)
Fixpoint digits_value (acc : Z) (s : string) : option Z :=
  match s with
  | EmptyString => Some acc
  | String c s' =>
      if PyStr.isdigit c
      then digits_value (acc * 10 + Z.of_nat (nat_of_ascii c - 48)) s'
      else None
  end.

(** The text before the first dot, and the text after it if there is a
    dot. *)
Fixpoint split_dot (s : string) : string * option string :=
  match s with
  | EmptyString => (EmptyString, None)
  | String c s' =>
      if Ascii.eqb c "."%char then (EmptyString, Some s')
      else let '(a, b) := split_dot s' in (String c a, b)
  end.

(** [float(s)] for a text made of digits and dots, which is all group 3
    can hold: digits with at most one dot and at least one digit;
    anything else is a [ValueError]. *)
Definition float_of_string (s : string) : option Q :=
  let '(int_part, frac) := split_dot s in
  let frac_part := match frac with Some f => f | None => EmptyString end in
  if (String.length int_part + String.length frac_part =? 0)%nat then None
  else
    match digits_value 0 int_part, digits_value 0 frac_part with
    | Some i, Some f =>
        Some (inject_Z i + inject_Z f / inject_Z (10 ^ Z.of_nat (String.length frac_part)))%Q
    | _, _ => None
    end.

(** [match.group(n)]; a group that took no part gives [None]. *)
Definition group (mt : Re.rmatch) (n : nat) : option string := Re.m_group mt n.

(** Lines 78-95: the loop over the matches of [rec_pattern]. *)
Fixpoint collect (matches : list Re.rmatch) (js_data : Dict.t JsRec.t)
  : Py.exn + Dict.t JsRec.t :=
  match matches with
  | [] => inr js_data
  | mt :: rest =>
      match group mt 1, group mt 2, group mt 3 with
      | Some rec_id, Some ash_decision, Some g3 =>
          match float_of_string g3 with
          | Some pvte =>
              collect rest (Dict.set js_data rec_id (JsRec.Mk ash_decision pvte))
          | None =>
              inl (Py.ValueError ("could not convert string to float: '" ++ g3 ++ "'"))
          end
      | _, _, _ => inl Py.TypeError
      end
  end.

(** Lines 72-95, on the content read from [data.js]. *)
Definition load_js_data (content : string) : Py.exn + Dict.t JsRec.t :=
  match Re.search array_pattern content with
  | None => inl (Py.ValueError "Could not find RECOMMENDATIONS array in data.js")
  | Some mt =>
      match group mt 1 with
      | Some array_content =>
          collect (Re.finditer rec_pattern array_content) Dict.empty
      | None => inl Py.TypeError
      end
  end.

(** ** calculate_thresholds *)

(** The dict [params]; a key that is absent is [None]. *)
Record params : Type := MkParams {
  RV : option Q;
  RRbleed : option Q;
  H : option Q;
  RRrx : option Q;
  Tp : option Q;
  RRt : option Q
}.

(** [params.get(key, default)] *)
Definition get (field : option Q) (default : Q) : Q :=
  match field with Some v => v | None => default end.

(** The dict [{'Ptt': Ptt, 'Pt': Pt}]. *)
Record thresholds : Type := MkThresholds {
  Ptt : Q;
  Pt : Q
}.

(** Lines 109-125, in exact arithmetic.  [Some th] is a call that returns
    the pair of numbers [th]; [None] is a [ZeroDivisionError].  The
    rounding of the binary floats of Python is not part of the model, nor
    are the results that are not numbers ([inf], [nan]) or the
    [OverflowError] of an integer too large for a float.  What is stated
    of the returned thresholds further down is therefore limited to the
    order of [Pt] and [Ptt], their sign and the regions they cut, for the
    numbers a call returns. *)
Definition calculate_thresholds (p : params) (is_reversed : bool)
  : option thresholds :=
  let RV := get (RV p) 1 in
  let RRbleed := get (RRbleed p) 2.17 in
  let H := get (H p) 0.005 in
  let RRrx := get (RRrx p) 0.15 in
  let Tp := get (Tp p) 0.38 in
  let RRt := get (RRt p) 1.65 in
  if is_reversed then
    match Py.truediv (RV * H) (RRrx - 1) with
    | Some Pt =>
        let Ptt := (Pt * (RRt * Tp + (1 - Tp)))%Q in
        Some {| Ptt := Ptt; Pt := Pt |}
    | None => None
    end
  else
    match Py.truediv (RV * (RRbleed - 1) * H) (1 - RRrx) with
    | Some Pt =>
        match Py.truediv (RRt * Tp + (1 - Tp)) RRt with
        | Some f => Some {| Ptt := (f * Pt)%Q; Pt := Pt |}
        | None => None
        end
    | None => None
    end.

(** ** determine_decision *)

(** Lines 127-145. *)
Definition determine_decision (pVTE : Q) (th : thresholds) (is_reversed : bool)
  : string :=
  let Ptt := Ptt th in
  let Pt := Pt th in
  if is_reversed then
    if Py.ltb pVTE Pt then "Rx"
    else if Py.ltb Ptt pVTE then "NoRx"
    else "Test"
  else
    if Py.ltb pVTE Ptt then "NoRx"
    else if Py.ltb Pt pVTE then "Rx"
    else "Test".

(** ** compare_recommendations *)

(** One element of [results]. *)
Record result : Type := MkResult {
  js_id : string;
  excel_id : string;
  js_ash : string;
  excel_ash : string;
  js_pvte : Q;
  excel_pvte : option Q;
  ash_matches : bool
}.

(** Lines 154-164: the ids of the sheet tried for one id of [data.js]:
    the id itself, then the id followed by [" low"] and by [" high"]. *)
Definition excel_matches (excel_data : gmap string ExcelRec.t) (js_id : string)
  : list string :=
  let low := js_id ++ " low" in
  let high := js_id ++ " high" in
  ((if bool_decide (is_Some (excel_data !! js_id)) then [js_id] else [])
   ++ (if bool_decide (is_Some (excel_data !! low)) then [low] else [])
   ++ (if bool_decide (is_Some (excel_data !! high)) then [high] else []))%list.

(** Lines 166-179: the result appended for one pair of ids.
    [excel_data.get(excel_id, {})] is the record or the empty dict, whose
    fields then take the defaults of their [get]. *)
Definition compare_one (excel_data : gmap string ExcelRec.t)
           (js_id : string) (js_rec : JsRec.t) (excel_id : string) : result :=
  let excel_rec := excel_data !! excel_id in
  let ash_match :=
    String.eqb (JsRec.ash_decision js_rec)
               (match excel_rec with
                | Some e => ExcelRec.ash_decision e
                | None => EmptyString
                end) in
  {| js_id := js_id;
     excel_id := excel_id;
     js_ash := JsRec.ash_decision js_rec;
     excel_ash := match excel_rec with
                  | Some e => ExcelRec.ash_decision e
                  | None => "N/A"
                  end;
     js_pvte := JsRec.pvte js_rec;
     excel_pvte := match excel_rec with
                   | Some e => ExcelRec.pvte e
                   | None => None
                   end;
     ash_matches := ash_match |}.

(** Lines 147-181. *)
Definition compare_recommendations (excel_data : gmap string ExcelRec.t)
           (js_data : Dict.t JsRec.t) : list result :=
  flat_map
    (fun '(js_id, js_rec) =>
       map (compare_one excel_data js_id js_rec) (excel_matches excel_data js_id))
    (Dict.items js_data).

(** Lines 392-393 of [main]: the number of comparisons and of matches. *)
Definition total (results : list result) : nat := length results.
Definition matches (results : list result) : nat :=
  length (filter ash_matches results).

(** ** main: loading and summary *)

(** Lines 372-384: each of the two loads runs under [try]; any exception
    leaves the empty dict.  [None] stands for a sheet, or a file, that
    could not be read. *)
Definition excel_data_or_empty (sheet : option (list Sheet.row))
  : gmap string ExcelRec.t :=
  match sheet with
  | Some agreement => load_excel_data agreement
  | None => ∅
  end.

Definition js_data_or_empty (file : option string) : Dict.t JsRec.t :=
  match file with
  | Some content =>
      match load_js_data content with
      | inr js_data => js_data
      | inl _ => Dict.empty
      end
  | None => Dict.empty
  end.

(** Line 405: the results that are not matches. *)
Definition mismatches (results : list result) : list result :=
  filter (fun r => negb (ash_matches r)) results.

(** Line 401: [matches/total*100] when [total > 0]; [None] is the branch
    that prints N/A.  The rounding of the number to one decimal for the
    console is not part of the model. *)
Definition accuracy (results : list result) : option Q :=
  if (0 <? total results)%nat
  then Some (inject_Z (Z.of_nat (matches results))
             / inject_Z (Z.of_nat (total results)) * 100)%Q
  else None.

(** Line 410: the line printed for a mismatch. *)
Definition mismatch_line (r : result) : string :=
  "  " ++ js_id r ++ ": JS=" ++ js_ash r ++ ", Excel=" ++ excel_ash r.

(** The check mark U+2713, as its three UTF-8 bytes. *)
Definition check_mark : string :=
  String "226"%char (String "156"%char (String "147"%char EmptyString)).

(** Lines 404-412: the section of the console report after the summary:
    the header and one line per mismatch, or the line that says that all
    recommendations match. *)
Definition mismatch_report (results : list result) : list string :=
  match mismatches results with
  | [] => [check_mark ++ " All recommendations match!"]
  | ms => "MISMATCHES FOUND:" :: PyStr.replicate_str 60 "-" :: map mismatch_line ms
  end.

(** Lines 371-389: the results [main] works on. *)
Definition main_results (sheet : option (list Sheet.row)) (file : option string)
  : list result :=
  compare_recommendations (excel_data_or_empty sheet) (js_data_or_empty file).

(** ** generate_accuracy_chart: the tallies *)

(** [s.startswith((p1, p2, ...))] *)
Definition startswith_any (s : string) (prefixes : list string) : bool :=
  existsb (PyStr.startswith s) prefixes.

(** Lines 303-314: the group the chart gives to an id; [None] is the
    [continue] of the last branch. *)
Definition chart_group (rec_id : string) : option string :=
  if PyStr.startswith rec_id "R1" && (String.length rec_id <=? 3)%nat
  then Some "R1-R10"
  else if startswith_any rec_id
            ["R2"; "R3"; "R4"; "R5"; "R6"; "R7"; "R8"; "R9"; "R10"]
          && negb (startswith_any rec_id ["R21"; "R22"; "R23"])
  then Some "R1-R10"
  else if startswith_any rec_id ["R11"; "R12"; "R13"; "R14"]
  then Some "R11-R14"
  else if startswith_any rec_id ["R15"; "R16"; "R17"; "R18"; "R19"; "R20"]
  then Some "R15-R20"
  else if startswith_any rec_id ["R21"; "R22"; "R23"]
  then Some "R21-R23"
  else None.

(** The dict [{'match': m, 'total': t}] of a group. *)
Record tally : Type := MkTally {
  match_count : nat;
  total_count : nat
}.

(** Lines 293-298. *)
Definition chart_initial : Dict.t tally :=
  [ ("R1-R10", MkTally 0 0); ("R11-R14", MkTally 0 0);
    ("R15-R20", MkTally 0 0); ("R21-R23", MkTally 0 0) ].

(** Lines 300-318: the body of the loop for one result.  The group is one
    of the four keys of [groups]; a [groups[group]] on another key would
    be a [KeyError], kept here as [None]. *)
Definition chart_step (groups : option (Dict.t tally)) (r : result)
  : option (Dict.t tally) :=
  match groups with
  | None => None
  | Some groups =>
      match chart_group (js_id r) with
      | None => Some groups
      | Some g =>
          match Dict.get groups g with
          | None => None
          | Some t =>
              Some (Dict.set groups g
                      (MkTally
                         (if ash_matches r then S (match_count t) else match_count t)
                         (S (total_count t))))
          end
      end
  end.

(** Lines 293-326: the tallies the bars are drawn from, and the numbers
    of mismatches [t - m]. *)
Definition chart_tallies (results : list result) : option (Dict.t tally) :=
  fold_left chart_step results (Some chart_initial).

Definition chart_mismatches (groups : Dict.t tally) : list nat :=
  map (fun kv => total_count (snd kv) - match_count (snd kv))%nat (Dict.items groups).

End Verifier.

(* ===================================================================== *)
(** * Python floats *)
(* ===================================================================== *)

(** The floats of Python are the binary64 numbers of IEEE 754: 53 bits of
    precision, rounding to the nearest float, a tie going to the float
    with an even last bit, and gradual underflow down to [2^-1074].  A
    finite float is the rational it denotes.  Left out: overflow (a result
    beyond the largest float is [inf] in Python and is a large number
    here), the sign of zero, and [nan]. *)
Module F64.
Local Open Scope Q_scope.

(** [2^e] *)
Definition pow2 (e : Z) : Q := 2 ^ e.

(** The integer part of the binary logarithm of a positive rational. *)
Definition ilog2 (x : Q) : Z :=
  let k := (Z.log2 (Qnum x) - Z.log2 (Zpos (Qden x)))%Z in
  if Qle_bool (pow2 k) x then k else (k - 1)%Z.

(** The exponent of the last place of the float nearest to [x]: 53 bits of
    precision, and no exponent below that of the smallest subnormal. *)
Definition fexp (x : Q) : Z := Z.max (ilog2 (Qabs x) - 52) (-1074).

(** The integer nearest to [y]; a tie goes to the even one. *)
Definition rne (y : Q) : Z :=
  let f := Qfloor y in
  match Qcompare (y - inject_Z f) (1 # 2) with
  | Lt => f
  | Gt => (f + 1)%Z
  | Eq => if Z.even f then f else (f + 1)%Z
  end.

(** The float nearest to [x]. *)
Definition round (x : Q) : Q :=
  if Qeq_bool x 0 then 0
  else inject_Z (rne (x / pow2 (fexp x))) * pow2 (fexp x).

Definition is_float (x : Q) : Prop := round x == x.

End F64.

Module Binary64.
Import Verifier.
Local Open Scope Q_scope.

(** The arithmetic of Python on floats: the exact result, rounded to the
    nearest float.  An int of the dict (the tables have RRbleed = 1, and
    the default of RV is 1) counts as the float of the same value. *)
Definition fmul (x y : Q) : Q := F64.round (x * y).
Definition fadd (x y : Q) : Q := F64.round (x + y).
Definition fsub (x y : Q) : Q := F64.round (x - y).

(** [x / y]; [None] is the [ZeroDivisionError] of a zero divisor. *)
Definition fdiv (x y : Q) : option Q :=
  if Qeq_bool y 0 then None else Some (F64.round (x / y)).

(** [params.get(key, default)], the default being a literal of the source. *)
Definition getf (field : option Q) (default : Q) : Q :=
  match field with Some v => v | None => F64.round default end.

(** Every value of the dict is a float. *)
Definition float_field (field : option Q) : Prop :=
  match field with Some v => F64.is_float v | None => True end.

Definition float_params (p : params) : Prop :=
  float_field (RV p) /\ float_field (RRbleed p) /\ float_field (H p)
  /\ float_field (RRrx p) /\ float_field (Tp p) /\ float_field (RRt p).

(** Lines 109-125 of verify_calculations.py with the arithmetic of
    floats: the same expressions as [Verifier.calculate_thresholds], each
    operation rounded. *)
Definition calculate_thresholds (p : params) (is_reversed : bool)
  : option thresholds :=
  let RV := getf (RV p) 1 in
  let RRbleed := getf (RRbleed p) 2.17 in
  let H := getf (H p) 0.005 in
  let RRrx := getf (RRrx p) 0.15 in
  let Tp := getf (Tp p) 0.38 in
  let RRt := getf (RRt p) 1.65 in
  if is_reversed then
    match fdiv (fmul RV H) (fsub RRrx 1) with
    | Some Pt =>
        let Ptt := fmul Pt (fadd (fmul RRt Tp) (fsub 1 Tp)) in
        Some {| Ptt := Ptt; Pt := Pt |}
    | None => None
    end
  else
    match fdiv (fmul (fmul RV (fsub RRbleed 1)) H) (fsub 1 RRrx) with
    | Some Pt =>
        match fdiv (fadd (fmul RRt Tp) (fsub 1 Tp)) RRt with
        | Some f => Some {| Ptt := fmul f Pt; Pt := Pt |}
        | None => None
        end
    | None => None
    end.
End Binary64.

(* ===================================================================== *)
(** * Inputs used in the statements *)
(* ===================================================================== *)

Module Samples.
Import Verifier.

(** The parameters of the catalog row R20c (pVTE 0.0025, Tp 0.5, RRt 0.8,
    RRrx 2.22, H 0.1077), as a [params] dict without the key [RV]. *)
Definition R20c_params : params :=
  {| RV := None; RRbleed := None; H := Some 0.1077%Q; RRrx := Some 2.22%Q;
     Tp := Some 0.5%Q; RRt := Some 0.8%Q |}.

(** The parameters of the catalog row R15. *)
Definition R15_params : params :=
  {| RV := None; RRbleed := None; H := Some 0.0595%Q; RRrx := Some 3.5%Q;
     Tp := Some 0.0685%Q; RRt := Some 5.89%Q |}.

(** The parameters of the catalog record R1 low. *)
Definition R1_low_params : params :=
  {| RV := None; RRbleed := Some 2.17%Q; H := Some 0.005%Q; RRrx := Some 0.15%Q;
     Tp := Some 0.38%Q; RRt := Some 1.65%Q |}.

(** Standard parameters with a relative risk of thrombosis below one. *)
Definition low_RRt_params : params :=
  {| RV := Some 1%Q; RRbleed := Some 2%Q; H := Some 0.01%Q; RRrx := Some 0.5%Q;
     Tp := Some 0.5%Q; RRt := Some 0.5%Q |}.


(** A reference that knows the bare id R1 only, and a catalog with the
    two suffixed records of R1. *)
Definition bare_reference : gmap string ExcelRec.t :=
  {[ "R1" := ExcelRec.Mk "Rx" "Rx" None (Some 0.1%Q) ]}.

Definition suffixed_catalog : Dict.t JsRec.t :=
  [ ("R1 low", JsRec.Mk "Rx" 0.1%Q); ("R1 high", JsRec.Mk "Rx" 0.1%Q) ].

(** The other way round: the reference has the suffixed ids, the catalog
    the bare one. *)
Definition suffixed_reference : gmap string ExcelRec.t :=
  <[ "R1 low" := ExcelRec.Mk "Rx" "Rx" None (Some 0.1%Q) ]>
    {[ "R1 high" := ExcelRec.Mk "Test" "Rx" None (Some 0.1%Q) ]}.

Definition bare_catalog : Dict.t JsRec.t := [ ("R1", JsRec.Mk "Rx" 0.1%Q) ].

(** A catalog record without decision, and a reference that has one for
    its id. *)
Definition unknown_catalog : Dict.t JsRec.t :=
  [ ("R13", JsRec.Mk "Unknown" 0.012%Q) ].

Definition R13_reference : gmap string ExcelRec.t :=
  {[ "R13" := ExcelRec.Mk "Test" "Test" None (Some 0.012%Q) ]}.

(** The parameters of R15 and of R1 low as the floats their literals
    denote. *)
Definition R15_floats : params :=
  {| RV := None; RRbleed := Some 1%Q; H := Some (F64.round 0.0595);
     RRrx := Some (F64.round 3.5); Tp := Some (F64.round 0.0685);
     RRt := Some (F64.round 5.89) |}.

Definition R1_low_floats : params :=
  {| RV := None; RRbleed := Some (F64.round 2.17); H := Some (F64.round 0.005);
     RRrx := Some (F64.round 0.15); Tp := Some (F64.round 0.38);
     RRt := Some (F64.round 1.65) |}.

(** Parameters on which rounding shows: a tiny Tp with RRt below one, and
    the smallest positive float as H. *)
Definition tiny_Tp_floats : params :=
  {| RV := None; RRbleed := None; H := Some (F64.round 0.1077);
     RRrx := Some (F64.round 2.22); Tp := Some (F64.round (1 # 100000000000000000));
     RRt := Some (F64.round 0.8) |}.

Definition tiny_H_floats : params :=
  {| RV := None; RRbleed := None; H := Some (F64.pow2 (-1074));
     RRrx := Some 3%Q; Tp := Some 0.5%Q; RRt := Some 2%Q |}.

(** An Agreement sheet that has the bare id R1 only, and a [data.js],
    written as a JavaScript literal, with the record R1 low as the
    builder makes it from that sheet: without decision. *)
Definition bare_sheet : list Sheet.row :=
  [ Sheet.MkRow (Some "R1") (Some "Rx") (Some "Rx") None (Some 0.1%Q) ].

Definition unknown_data_js : string :=
  let q := String Py.dquote EmptyString in
  PyStr.join Py.nl
    [ "const RECOMMENDATIONS = [";
      "    { id: " ++ q ++ "R1 low" ++ q ++ ", ashDecision: " ++ q ++ "Unknown" ++ q
        ++ ", pVTE: 0.10 }";
      "];" ].

(** A [data.js] written by hand as a JavaScript literal: keys without
    quotes, [ashDecision] before [pVTE]. *)
Definition literal_data_js : string :=
  let q := String Py.dquote EmptyString in
  PyStr.join Py.nl
    [ "const RECOMMENDATIONS = [";
      "    {";
      "        id: " ++ q ++ "R1 low" ++ q ++ ",";
      "        ashDecision: " ++ q ++ "Rx" ++ q ++ ",";
      "        pVTE: 0.10,";
      "        Tp: 0.38";
      "    },";
      "    { id: " ++ q ++ "R15" ++ q ++ ", ashDecision: " ++ q ++ "NoRx" ++ q
        ++ ", pVTE: 0.00035 }";
      "];" ].

(** The first and the third record of the catalog when the Agreement
    sheet gives no decision. *)
Definition R1_low_record : Builder.recommendation :=
  {| Builder.id := "R1 low"; Builder.pVTE := 0.10; Builder.Tp := 0.38;
     Builder.RRt := 1.65; Builder.RRrx := 0.15;
     Builder.H_low := 0.005; Builder.H_high := 0.005;
     Builder.RRbleed := Py.Float 2.17; Builder.decimals := 1;
     Builder.description :=
       "Unprovoked VTE - completed short-term treatment (LOW bleeding risk)";
     Builder.ashDecision := "Unknown"; Builder.category := "Symptomatic VTE";
     Builder.group := "R1-R10"; Builder.bleedingRisk := Some "low";
     Builder.isReversed := None |}.

Definition R2_low_record : Builder.recommendation :=
  {| Builder.id := "R2 low"; Builder.pVTE := 0.01; Builder.Tp := 0.38;
     Builder.RRt := 1.65; Builder.RRrx := 0.15;
     Builder.H_low := 0.005; Builder.H_high := 0.005;
     Builder.RRbleed := Py.Float 2.17; Builder.decimals := 2;
     Builder.description := "VTE provoked by surgery (LOW bleeding risk)";
     Builder.ashDecision := "Unknown"; Builder.category := "Symptomatic VTE";
     Builder.group := "R1-R10"; Builder.bleedingRisk := Some "low";
     Builder.isReversed := None |}.

End Samples.

(* ===================================================================== *)
(** * Notions used in the statements *)
(* ===================================================================== *)

Module Catalog.
Import Builder.

(** The record [r] with another value in [ashDecision]. *)
Definition with_decision (d : string) (r : recommendation) : recommendation :=
  {| id := id r; pVTE := pVTE r; Tp := Tp r; RRt := RRt r; RRrx := RRrx r;
     H_low := H_low r; H_high := H_high r; RRbleed := RRbleed r;
     decimals := decimals r; description := description r;
     ashDecision := d; category := category r; group := group r;
     bleedingRisk := bleedingRisk r; isReversed := isReversed r |}.

(** The catalog built from a sheet without decisions. *)
Definition skeleton : list recommendation := recommendations ∅.

(** The tiering of [decimals] as the specification words it, family by
    family; it is compared with what the four loops of the builder
    compute.  A group that is none of the four has no rule. *)
Definition decimals_rule (group : string) (pVTE : Q) : option Z :=
  if String.eqb group "R1-R10" then Some (if Py.ltb pVTE 0.1 then 2 else 1)%Z
  else if String.eqb group "R11-R14" then Some (if Py.ltb pVTE 0.01 then 3 else 2)%Z
  else if String.eqb group "R21-R23" then Some (if Py.ltb pVTE 0.01 then 4 else 3)%Z
  else if String.eqb group "R15-R20" then Some 4%Z
  else None.

(** The number of records of a group. *)
Definition count_group (g : string) (recs : list recommendation) : nat :=
  length (filter (fun r => String.eqb (group r) g) recs).

(** The line of a printed record that carries the sentinel decision. *)
Definition unknown_line : string :=
  Json.dumps_str "ashDecision" ++ ": " ++ Json.dumps_str "Unknown".

End Catalog.

Module TextProps.
(** Every colon of [s] stands right after a double quote; [prev] tells
    whether the character before [s] is a double quote. *)
Fixpoint colons_quoted (prev : bool) (s : string) : bool :=
  match s with
  | EmptyString => true
  | String c s' =>
      (if Ascii.eqb c ":"%char then prev else true)
      && colons_quoted (Ascii.eqb c Py.dquote) s'
  end.

(** [t] is what remains of [s] after some of its characters. *)
Definition Suffix (t s : string) : Prop := exists a : string, s = a ++ t.

(** [lit] and [s] differ at a position that both have. *)
Fixpoint differs (lit s : string) : bool :=
  match lit, s with
  | String a lit', String b s' => if Ascii.eqb a b then differs lit' s' else true
  | _, _ => false
  end.

(** [lit] differs from [h] at every position of [h] taken as a start. *)
Fixpoint never_starts (lit h : string) : bool :=
  match h with
  | EmptyString => true
  | String _ h' => differs lit h && never_starts lit h'
  end.
End TextProps.

Module Artifact.
(** The literal that opens the array in [data.js], up to the bracket. *)
Definition declaration : string := "const RECOMMENDATIONS = ".

(** The comment of [js_header], before the declaration. *)
Definition comment : string :=
  PyStr.take (String.length Builder.js_header - String.length declaration)
             Builder.js_header.

(** What stands between the brackets of [json.dumps(l, indent=4)]. *)
Definition array_body (l : list Json.object) : string :=
  Json.newline_indent 4
  ++ PyStr.join ("," ++ Json.newline_indent 4) (map (Json.dumps_object 4 1) l)
  ++ Json.newline_indent 0.

(** [js_footer] without its first character, the semicolon. *)
Definition after_semicolon : string := Py.drop 1 Builder.js_footer.

(** The four values [ashDecision] can take in a built record. *)
Definition decisions : list string := ["NoRx"; "Test"; "Rx"; "Unknown"].
End Artifact.

(* ===================================================================== *)
(** * Further scenarios and notions used by the statements *)
(* ===================================================================== *)

Module Scenarios.
Import Verifier.

(** A pair of thresholds in the order of the standard model. *)
Definition ordered_thresholds : thresholds := {| Ptt := 0.01%Q; Pt := 0.05%Q |}.

(** A reference and a catalog with the same two ids, one decision in
    agreement and one not. *)
Definition same_ids_reference : gmap string ExcelRec.t :=
  <[ "R13" := ExcelRec.Mk "Test" "Test" None (Some 0.012%Q) ]>
    {[ "R15" := ExcelRec.Mk "Rx" "Rx" None None ]}.

Definition same_ids_catalog : Dict.t JsRec.t :=
  [ ("R13", JsRec.Mk "Test" 0.012%Q); ("R15", JsRec.Mk "NoRx" 0.00035%Q) ].

End Scenarios.

Module Notions.
Import Verifier.

(** The decisions in the order of increasing treatment. *)
Definition rank (d : string) : nat :=
  if String.eqb d "NoRx" then 0 else if String.eqb d "Test" then 1 else 2.

(** The decision with treating and not treating exchanged. *)
Definition flip (d : string) : string :=
  if String.eqb d "NoRx" then "Rx" else if String.eqb d "Rx" then "NoRx" else d.

(** The lower and the upper threshold of a model, and the decisions taken
    below the lower and above the upper one. *)
Definition lower (th : thresholds) (is_reversed : bool) : Q :=
  if is_reversed then Pt th else Ptt th.

Definition upper (th : thresholds) (is_reversed : bool) : Q :=
  if is_reversed then Ptt th else Pt th.

Definition below_decision (is_reversed : bool) : string :=
  if is_reversed then "Rx" else "NoRx".

Definition above_decision (is_reversed : bool) : string :=
  if is_reversed then "NoRx" else "Rx".

(** The ids of the catalog that the chart does not put in the group the
    builder gave them. *)
Definition chart_exceptions : list string :=
  [ "R1 low"; "R1 high"; "R13"; "R15"; "R17";
    "R20a"; "R20b"; "R20c"; "R20d"; "R20e";
    "R20f"; "R20g"; "R20h"; "R20i"; "R20j" ].

(** The tallies of the chart keep the four groups, in their order. *)
Definition four_groups (groups : Dict.t tally) : Prop :=
  Dict.keys groups = ["R1-R10"; "R11-R14"; "R15-R20"; "R21-R23"].

(** The sum of the totals, and of the matches, of the tallies. *)
Definition sum_totals (groups : Dict.t tally) : nat :=
  list_sum (map (fun kv => total_count (snd kv)) groups).

Definition sum_matches (groups : Dict.t tally) : nat :=
  list_sum (map (fun kv => match_count (snd kv)) groups).

(** The results the chart puts in one of its groups. *)
Definition charted (r : result) : bool :=
  bool_decide (is_Some (chart_group (js_id r))).

(** The invariant of the loop of the chart, after the results [results]. *)
Definition chart_inv (results : list result) (groups : Dict.t tally) : Prop :=
  four_groups groups
  /\ Forall (fun kv => match_count (snd kv) <= total_count (snd kv))%nat groups
  /\ sum_totals groups = length (filter charted results)
  /\ sum_matches groups
     = length (filter (fun r => charted r && ash_matches r) results).

(** The ids of the records of [recs] that [ash_decisions] has no entry
    for, in the order of [recs]. *)
Definition absent_ids (ash_decisions : gmap string string)
           (recs : list Builder.recommendation) : list string :=
  map Builder.id (filter (fun r => ash_decisions !! Builder.id r = None) recs).

(** The order of the printed counts: by the name of the group. *)
Definition name_lt (a b : string * nat) : Prop :=
  String.ltb (fst a) (fst b) = true.

(** The condition under which a row of the sheet enters the mapping of the
    builder (generate_complete_data.py, lines 26-31), with its key and its
    value. *)
Definition builder_entry (row : Sheet.row) : option (string * string) :=
  let case := PyStr.strip (Sheet.text (Sheet.col1 row)) in
  let ash := PyStr.strip (Sheet.text (Sheet.col2 row)) in
  if PyStr.startswith case "R" && PyStr.in_list ash Builder.valid_decisions
  then Some (case, ash) else None.

(** The body of that loop, as a function of the mapping and the row. *)
Definition builder_step (ash_decisions : gmap string string) (row : Sheet.row)
  : gmap string string :=
  match builder_entry row with
  | Some (case, ash) => <[case := ash]> ash_decisions
  | None => ash_decisions
  end.

End Notions.

(* ===================================================================== *)
(** * Properties of the threshold model *)
(* ===================================================================== *)

Module ThresholdFacts.
Import Verifier.
Local Open Scope Q_scope.

Lemma ltb_lt (x y : Q) : Py.ltb x y = true <-> x < y.
Proof.
  unfold Py.ltb. rewrite negb_true_iff.
  split; intro Hxy.
  - apply Qnot_le_lt. intro Hle. apply Qle_bool_iff in Hle. congruence.
  - destruct (Qle_bool y x) eqn:E; [|reflexivity].
    apply Qle_bool_iff in E. lra.
Qed.

Lemma ltb_ge (x y : Q) : Py.ltb x y = false <-> y <= x.
Proof.
  unfold Py.ltb. rewrite negb_false_iff. apply Qle_bool_iff.
Qed.

(** The comparison sees the value of a rational, not its fraction. *)
Lemma ltb_compat (x x' y y' : Q) :
  x == x' -> y == y' -> Py.ltb x y = Py.ltb x' y'.
Proof.
  intros Hx Hy.
  destruct (Py.ltb x y) eqn:E1, (Py.ltb x' y') eqn:E2; try reflexivity.
  - apply ltb_lt in E1. apply ltb_ge in E2. lra.
  - apply ltb_ge in E1. apply ltb_lt in E2. lra.
Qed.

Lemma truediv_some (x y : Q) : ~ y == 0 -> Py.truediv x y = Some (x / y).
Proof.
  intro Hy. unfold Py.truediv.
  destruct (Qeq_bool y 0) eqn:E; [|reflexivity].
  apply Qeq_bool_eq in E. contradiction.
Qed.

Lemma truediv_zero (x y : Q) : y == 0 -> Py.truediv x y = None.
Proof.
  intro Hy. unfold Py.truediv.
  apply Qeq_eq_bool in Hy. now rewrite Hy.
Qed.

Lemma div_pos (x y : Q) : 0 < x -> 0 < y -> 0 < x / y.
Proof.
  intros Hx Hy. apply Qlt_shift_div_l; [assumption | lra].
Qed.

(** What [calculate_thresholds] returns in the reversed model. *)
Lemma reversed_thresholds (p : params) :
  ~ get (RRrx p) 0.15 - 1 == 0 ->
  calculate_thresholds p true =
    Some {| Ptt := (get (RV p) 1 * get (H p) 0.005 / (get (RRrx p) 0.15 - 1))
                   * (get (RRt p) 1.65 * get (Tp p) 0.38 + (1 - get (Tp p) 0.38));
            Pt := get (RV p) 1 * get (H p) 0.005 / (get (RRrx p) 0.15 - 1) |}.
Proof.
  intro Hd. unfold calculate_thresholds.
  now rewrite (truediv_some _ _ Hd).
Qed.

(** What it returns in the standard model. *)
Lemma standard_thresholds (p : params) :
  ~ 1 - get (RRrx p) 0.15 == 0 ->
  ~ get (RRt p) 1.65 == 0 ->
  calculate_thresholds p false =
    Some {| Ptt := ((get (RRt p) 1.65 * get (Tp p) 0.38 + (1 - get (Tp p) 0.38))
                    / get (RRt p) 1.65)
                   * (get (RV p) 1 * (get (RRbleed p) 2.17 - 1) * get (H p) 0.005
                      / (1 - get (RRrx p) 0.15));
            Pt := get (RV p) 1 * (get (RRbleed p) 2.17 - 1) * get (H p) 0.005
                  / (1 - get (RRrx p) 0.15) |}.
Proof.
  intros Hd Ht. unfold calculate_thresholds.
  now rewrite (truediv_some _ _ Hd), (truediv_some _ _ Ht).
Qed.

(** A zero denominator is an error, in both models. *)
Lemma reversed_zero_division (p : params) :
  get (RRrx p) 0.15 == 1 -> calculate_thresholds p true = None.
Proof.
  intro E. unfold calculate_thresholds.
  rewrite truediv_zero; [reflexivity | lra].
Qed.

Lemma standard_zero_division (p : params) :
  get (RRrx p) 0.15 == 1 \/ get (RRt p) 1.65 == 0 ->
  calculate_thresholds p false = None.
Proof.
  intros [E | E]; unfold calculate_thresholds.
  - rewrite truediv_zero; [reflexivity | lra].
  - rewrite (truediv_zero _ (get (RRt p) 1.65)) by assumption.
    now destruct (Py.truediv _ _).
Qed.

(** For a positive [Pt], the order of [Pt] and [Pt * f] is the order of
    [1] and [f]. *)
Lemma scale_ge (pt f : Q) : 0 < pt -> (pt <= pt * f <-> 1 <= f).
Proof. intro Hp. split; intro Hle; nra. Qed.

Lemma scale_le (pt f : Q) : 0 < pt -> (f * pt <= pt <-> f <= 1).
Proof. intro Hp. split; intro Hle; nra. Qed.

Lemma nonneg_cases (x : Q) : 0 <= x -> 0 < x \/ x == 0.
Proof.
  intro Hx. apply Qle_lteq in Hx. destruct Hx as [Hlt | E].
  - now left.
  - right. now symmetry.
Qed.

(** The factor of the reversed model against one. *)
Lemma reversed_factor (rrt tp : Q) :
  0 <= tp -> (1 <= rrt * tp + (1 - tp) <-> 1 <= rrt \/ tp == 0).
Proof.
  intro Htp. split.
  - intro Hf. destruct (Qlt_le_dec rrt 1) as [Hlt | Hge]; [right | now left].
    destruct (nonneg_cases tp Htp) as [Hpos | E]; [exfalso; nra | assumption].
  - intros [Hge | Hz]; [nra | rewrite Hz; lra].
Qed.

(** The factor of the standard model against one. *)
Lemma standard_factor (rrt tp : Q) :
  0 < rrt -> tp <= 1 ->
  ((rrt * tp + (1 - tp)) / rrt <= 1 <-> 1 <= rrt \/ tp == 1).
Proof.
  intros Hr Htp.
  assert (Hiff : (rrt * tp + (1 - tp)) / rrt <= 1 <-> rrt * tp + (1 - tp) <= rrt).
  { split; intro Hle.
    - apply (Qmult_le_compat_r _ _ rrt) in Hle; [|lra].
      rewrite Qmult_comm, Qmult_div_r in Hle by lra. lra.
    - apply Qle_shift_div_r; [assumption | lra]. }
  rewrite Hiff. split.
  - intro Hf. destruct (Qlt_le_dec rrt 1) as [Hlt | Hge]; [right | now left].
    assert (Htp' : 0 <= 1 - tp) by lra.
    destruct (nonneg_cases _ Htp') as [Hpos | E]; [exfalso; nra | lra].
  - intros [Hge | Hz]; [nra | rewrite Hz; lra].
Qed.

(** C3, as the specification states it, fails on the catalog row R20c: all the
    conditions of the statement hold, and the reversed thresholds come out
    with [Ptt < Pt]. *)
Lemma reversed_order_fails_R20c :
  (1 < get (RRrx Samples.R20c_params) 0.15
   /\ 0 < get (RV Samples.R20c_params) 1
   /\ 0 < get (H Samples.R20c_params) 0.005
   /\ 0 <= get (Tp Samples.R20c_params) 0.38 <= 1
   /\ 0 < get (RRt Samples.R20c_params) 1.65)
  /\ exists th,
      calculate_thresholds Samples.R20c_params true = Some th
      /\ ~ Pt th <= Ptt th.
Proof.
  split.
  - cbn. lra.
  - eexists. split; [reflexivity|].
    cbn. intro Hle. vm_compute in Hle. now apply Hle.
Qed.

(** C3 (amended): in the reversed model, for every parameter tuple with
    RRrx > 1, RV > 0, H > 0, 0 <= Tp <= 1 and RRt >= 1, the thresholds
    that calculate_thresholds returns satisfy Pt <= Ptt.  Nothing is
    stated for RRt < 1: there the order depends on Tp. *)
Theorem reversed_order_RRt_ge_1 (p : params) (th : thresholds) :
  1 < get (RRrx p) 0.15 ->
  0 < get (RV p) 1 ->
  0 < get (H p) 0.005 ->
  0 <= get (Tp p) 0.38 <= 1 ->
  1 <= get (RRt p) 1.65 ->
  calculate_thresholds p true = Some th ->
  Pt th <= Ptt th.
Proof.
  intros Hrx Hrv Hh [Htp0 Htp1] Hrt Hth.
  rewrite reversed_thresholds in Hth by lra.
  injection Hth as <-. cbn [Pt Ptt].
  apply scale_ge.
  - apply div_pos; [apply Qmult_lt_0_compat; lra | lra].
  - apply reversed_factor; [assumption | now left].
Qed.

Lemma reversed_order_RRt_ge_1_witness :
  exists th,
    calculate_thresholds Samples.R15_params true = Some th
    /\ Pt th <= Ptt th.
Proof.
  eexists. split; [reflexivity|].
  apply (reversed_order_RRt_ge_1 Samples.R15_params);
    [cbn; lra | cbn; lra | cbn; lra | cbn; lra | cbn; lra | reflexivity].
Defined.

(** C4, as the specification states it, fails when the relative risk of
    thrombosis is below one: with RV = 1, RRbleed = 2, H = 0.01,
    RRrx = 0.5, Tp = 0.5 and RRt = 0.5 the standard thresholds come out
    with [Pt < Ptt]. *)
Lemma standard_order_fails_low_RRt :
  (0 < get (RRrx Samples.low_RRt_params) 0.15 < 1
   /\ 1 < get (RRbleed Samples.low_RRt_params) 2.17
   /\ 0 < get (RV Samples.low_RRt_params) 1
   /\ 0 < get (H Samples.low_RRt_params) 0.005
   /\ 0 <= get (Tp Samples.low_RRt_params) 0.38 <= 1
   /\ 0 < get (RRt Samples.low_RRt_params) 1.65)
  /\ exists th,
      calculate_thresholds Samples.low_RRt_params false = Some th
      /\ ~ Ptt th <= Pt th.
Proof.
  split.
  - cbn. lra.
  - eexists. split; [reflexivity|].
    cbn. intro Hle. vm_compute in Hle. now apply Hle.
Qed.

(** C4 (amended): in the standard model, for every parameter tuple with
    0 < RRrx < 1, RRbleed > 1, RV > 0, H > 0, 0 <= Tp <= 1 and RRt >= 1,
    the thresholds that calculate_thresholds returns satisfy Ptt <= Pt:
    the three-way partition is well formed.  Nothing is stated for
    RRt < 1: there the order depends on Tp. *)
Theorem standard_order_RRt_ge_1 (p : params) (th : thresholds) :
  0 < get (RRrx p) 0.15 < 1 ->
  1 < get (RRbleed p) 2.17 ->
  0 < get (RV p) 1 ->
  0 < get (H p) 0.005 ->
  0 <= get (Tp p) 0.38 <= 1 ->
  1 <= get (RRt p) 1.65 ->
  calculate_thresholds p false = Some th ->
  Ptt th <= Pt th.
Proof.
  intros [Hrx0 Hrx1] Hb Hrv Hh [Htp0 Htp1] Hrt Hth.
  rewrite standard_thresholds in Hth by lra.
  injection Hth as <-. cbn [Pt Ptt].
  apply scale_le.
  - apply div_pos; [repeat apply Qmult_lt_0_compat; lra | lra].
  - apply standard_factor; [lra | assumption | now left].
Qed.

Lemma standard_order_RRt_ge_1_witness :
  exists th,
    calculate_thresholds Samples.R1_low_params false = Some th
    /\ Ptt th <= Pt th.
Proof.
  eexists. split; [reflexivity|].
  apply (standard_order_RRt_ge_1 Samples.R1_low_params);
    [cbn; lra | cbn; lra | cbn; lra | cbn; lra | cbn; lra | cbn; lra | reflexivity].
Defined.

End ThresholdFacts.

(* ===================================================================== *)
(** * Properties of determine_decision *)
(* ===================================================================== *)

Module DecisionFacts.
Import Verifier ThresholdFacts.
Local Open Scope Q_scope.

(** The decision in the standard model, by the position of pVTE. *)
Lemma standard_decision (pVTE : Q) (th : thresholds) :
  (pVTE < Ptt th /\ determine_decision pVTE th false = "NoRx")
  \/ (Ptt th <= pVTE /\ Pt th < pVTE /\ determine_decision pVTE th false = "Rx")
  \/ (Ptt th <= pVTE <= Pt th /\ determine_decision pVTE th false = "Test").
Proof.
  unfold determine_decision.
  destruct (Py.ltb pVTE (Ptt th)) eqn:E1.
  - left. split; [now apply ThresholdFacts.ltb_lt | reflexivity].
  - apply ThresholdFacts.ltb_ge in E1.
    destruct (Py.ltb (Pt th) pVTE) eqn:E2.
    + right; left. apply ThresholdFacts.ltb_lt in E2. now repeat split.
    + right; right. apply ThresholdFacts.ltb_ge in E2. now repeat split.
Qed.

(** The decision in the reversed model. *)
Lemma reversed_decision (pVTE : Q) (th : thresholds) :
  (pVTE < Pt th /\ determine_decision pVTE th true = "Rx")
  \/ (Pt th <= pVTE /\ Ptt th < pVTE /\ determine_decision pVTE th true = "NoRx")
  \/ (Pt th <= pVTE <= Ptt th /\ determine_decision pVTE th true = "Test").
Proof.
  unfold determine_decision.
  destruct (Py.ltb pVTE (Pt th)) eqn:E1.
  - left. split; [now apply ThresholdFacts.ltb_lt | reflexivity].
  - apply ThresholdFacts.ltb_ge in E1.
    destruct (Py.ltb (Ptt th) pVTE) eqn:E2.
    + right; left. apply ThresholdFacts.ltb_lt in E2. now repeat split.
    + right; right. apply ThresholdFacts.ltb_ge in E2. now repeat split.
Qed.

(** With an inverted pair of thresholds the standard model never answers
    Test, and neither does the reversed one. *)
Lemma standard_inverted_no_test (pVTE : Q) (th : thresholds) :
  Pt th < Ptt th -> determine_decision pVTE th false <> "Test".
Proof.
  intro Hinv.
  destruct (standard_decision pVTE th) as [[_ E] | [[_ [_ E]] | [[H1 H2] _]]];
    try (rewrite E; discriminate).
  lra.
Qed.

Lemma reversed_inverted_no_test (pVTE : Q) (th : thresholds) :
  Ptt th < Pt th -> determine_decision pVTE th true <> "Test".
Proof.
  intro Hinv.
  destruct (reversed_decision pVTE th) as [[_ E] | [[_ [_ E]] | [[H1 H2] _]]];
    try (rewrite E; discriminate).
  lra.
Qed.

(** The decision depends on the values of its arguments only, not on the
    fractions that denote them. *)
Lemma determine_decision_compat (p p' : Q) (th th' : thresholds) (r : bool) :
  p == p' -> Ptt th == Ptt th' -> Pt th == Pt th' ->
  determine_decision p th r = determine_decision p' th' r.
Proof.
  intros Hp Htt Ht. unfold determine_decision.
  rewrite (ltb_compat p p' (Pt th) (Pt th')) by assumption.
  rewrite (ltb_compat (Ptt th) (Ptt th') p p') by assumption.
  rewrite (ltb_compat p p' (Ptt th) (Ptt th')) by assumption.
  rewrite (ltb_compat (Pt th) (Pt th') p p') by assumption.
  reflexivity.
Qed.

(** C10: [determine_decision] is a total function into the three
    decisions: for every pVTE, every pair of thresholds (also an inverted
    one) and both modes the result is NoRx, Test or Rx; each of the three
    is the result for some input in each mode; and equal inputs give the
    same result. *)
Theorem determine_decision_range :
  (forall (pVTE : Q) (th : thresholds) (is_reversed : bool),
      In (determine_decision pVTE th is_reversed) ["NoRx"; "Test"; "Rx"])
  /\ (forall (is_reversed : bool) (d : string),
         In d ["NoRx"; "Test"; "Rx"] ->
         exists (pVTE : Q) (th : thresholds),
           determine_decision pVTE th is_reversed = d)
  /\ (forall (p p' : Q) (th th' : thresholds) (is_reversed : bool),
         p == p' -> Ptt th == Ptt th' -> Pt th == Pt th' ->
         determine_decision p th is_reversed
         = determine_decision p' th' is_reversed).
Proof.
  split; [|split].
  - intros pVTE th [|].
    + destruct (reversed_decision pVTE th) as [[_ E] | [[_ [_ E]] | [_ E]]];
        rewrite E; cbn; tauto.
    + destruct (standard_decision pVTE th) as [[_ E] | [[_ [_ E]] | [_ E]]];
        rewrite E; cbn; tauto.
  - intros r d Hd.
    pose (th := {| Ptt := 2; Pt := 2 |}).
    cbn in Hd. destruct Hd as [<- | [<- | [<- | []]]]; destruct r.
    + now exists 3, th.
    + now exists 1, th.
    + now exists 2, th.
    + now exists 2, th.
    + now exists 1, th.
    + now exists 3, th.
  - intros. now apply determine_decision_compat.
Qed.

Lemma determine_decision_range_witness :
  In (determine_decision 0.1 {| Ptt := 0.2; Pt := 0.1 |} false)
     ["NoRx"; "Test"; "Rx"]
  /\ (exists (pVTE : Q) (th : thresholds), determine_decision pVTE th true = "Test")
  /\ determine_decision (1 # 2) {| Ptt := 0.2; Pt := 0.1 |} false
     = determine_decision (2 # 4) {| Ptt := 2 # 10; Pt := 3 # 30 |} false.
Proof.
  destruct determine_decision_range as [Hin [Hall Heq]].
  split; [apply Hin | split].
  - apply (Hall true "Test"). cbn. tauto.
  - apply Heq; reflexivity.
Defined.

End DecisionFacts.

(* ===================================================================== *)
(** * Properties of the catalog builder *)
(* ===================================================================== *)

Module BuilderFacts.
Import Builder.

(** A decidable fact about the tables is settled by evaluating its
    decision procedure. *)
Ltac by_computation := apply (bool_decide_unpack _); vm_compute; exact I.

(** The decision mapping only decides the field [ashDecision]: the
    catalog is the catalog built without decisions, with that field set. *)
Lemma recommendations_shape (ash : gmap string string) :
  recommendations ash
  = map (fun r0 => Catalog.with_decision (get_decision ash (id r0)) r0) Catalog.skeleton.
Proof. reflexivity. Qed.

Lemma in_recommendations (ash : gmap string string) (r : recommendation) :
  In r (recommendations ash) ->
  exists r0, In r0 Catalog.skeleton
             /\ r = Catalog.with_decision (get_decision ash (id r0)) r0.
Proof.
  rewrite recommendations_shape. intro Hin.
  apply in_map_iff in Hin. destruct Hin as [r0 [<- Hin]]. now exists r0.
Qed.

(** [x in l] on a list of strings is membership. *)
Lemma in_list_In (x : string) (l : list string) :
  PyStr.in_list x l = true -> In x l.
Proof.
  unfold PyStr.in_list. intro Hex.
  apply existsb_exists in Hex. destruct Hex as [y [Hy E]].
  apply String.eqb_eq in E. now subst.
Qed.

(** The mapping read from the Agreement sheet holds the three decisions
    only. *)
Lemma ash_decisions_valid (agreement : list Sheet.row) (k d : string) :
  ash_decisions_of agreement !! k = Some d -> In d valid_decisions.
Proof.
  unfold ash_decisions_of.
  assert (Hinv : forall (rows : list Sheet.row) (m : gmap string string),
             map_Forall (fun _ v => In v valid_decisions) m ->
             map_Forall (fun _ v => In v valid_decisions)
               (fold_left
                  (fun (acc : gmap string string) (row : Sheet.row) =>
                     let case := PyStr.strip (Sheet.text (Sheet.col1 row)) in
                     let ash := PyStr.strip (Sheet.text (Sheet.col2 row)) in
                     if PyStr.startswith case "R" && PyStr.in_list ash valid_decisions
                     then <[case := ash]> acc else acc) rows m)).
  { induction rows as [|row rows IH]; intros m Hm; [exact Hm|].
    cbn [fold_left]. apply IH.
    destruct (PyStr.startswith _ _ && PyStr.in_list _ _) eqn:E; [|exact Hm].
    apply andb_true_iff in E. destruct E as [_ E].
    apply map_Forall_insert_2; [now apply in_list_In | exact Hm]. }
  intro Hk. exact (Hinv agreement ∅ (map_Forall_empty _) k d Hk).
Qed.

(** So a built record has one of four values in [ashDecision]. *)
Lemma get_decision_cases (agreement : list Sheet.row) (k : string) :
  In (get_decision (ash_decisions_of agreement) k)
     ["NoRx"; "Test"; "Rx"; "Unknown"].
Proof.
  unfold get_decision.
  destruct (ash_decisions_of agreement !! k) as [d|] eqn:E.
  - apply ash_decisions_valid in E. cbn in *. tauto.
  - cbn. tauto.
Qed.

(** The tiering rule, checked on the 69 rows. *)
Lemma decimals_by_rule (ash : gmap string string) (r : recommendation) :
  In r (recommendations ash) ->
  Catalog.decimals_rule (group r) (pVTE r) = Some (decimals r).
Proof.
  intro Hin. apply in_recommendations in Hin. destruct Hin as [r0 [Hin ->]].
  cbn [group pVTE decimals Catalog.with_decision].
  revert r0 Hin. apply (proj1 (List.Forall_forall _ _)).
  by_computation.
Qed.

(** The size of the catalog and of its groups. *)
Lemma counts_fixed (ash : gmap string string) :
  length (recommendations ash) = 69%nat
  /\ sorted_group_counts (recommendations ash)
     = [("R1-R10", 20%nat); ("R11-R14", 16%nat); ("R15-R20", 21%nat); ("R21-R23", 12%nat)]
  /\ Catalog.count_group "R1-R10" (recommendations ash) = 20%nat
  /\ Catalog.count_group "R11-R14" (recommendations ash) = 16%nat
  /\ Catalog.count_group "R15-R20" (recommendations ash) = 21%nat
  /\ Catalog.count_group "R21-R23" (recommendations ash) = 12%nat.
Proof. repeat split; reflexivity. Qed.

(** C5: for every decision mapping the list [recommendations] has exactly
    69 records; their [group] field takes the four values R1-R10, R11-R14,
    R15-R20 and R21-R23 on 20, 16, 21 and 12 records, which is also what
    the script's own [Counter] reports; and the [id] values are pairwise
    distinct. *)
Theorem catalog_partition (ash_decisions : gmap string string) :
  length (recommendations ash_decisions) = 69%nat
  /\ sorted_group_counts (recommendations ash_decisions)
     = [("R1-R10", 20%nat); ("R11-R14", 16%nat);
        ("R15-R20", 21%nat); ("R21-R23", 12%nat)]
  /\ Catalog.count_group "R1-R10" (recommendations ash_decisions) = 20%nat
  /\ Catalog.count_group "R11-R14" (recommendations ash_decisions) = 16%nat
  /\ Catalog.count_group "R15-R20" (recommendations ash_decisions) = 21%nat
  /\ Catalog.count_group "R21-R23" (recommendations ash_decisions) = 12%nat
  /\ NoDup (map id (recommendations ash_decisions)).
Proof.
  do 6 (split; [reflexivity|]).
  replace (map id (recommendations ash_decisions)) with (map id Catalog.skeleton)
    by reflexivity.
  by_computation.
Qed.

(** C8: the [decimals] of every built record is the value the tiering
    rule of its family gives for its pVTE: 2 below 0.1 and 1 otherwise in
    R1-R10, 3 below 0.01 and 2 otherwise in R11-R14, 4 below 0.01 and 3
    otherwise in R21-R23, and 4 in R15-R20. *)
Theorem decimals_deterministic (ash_decisions : gmap string string)
        (r : recommendation) :
  In r (recommendations ash_decisions) ->
  Catalog.decimals_rule (group r) (pVTE r) = Some (decimals r).
Proof.
  intro Hin. apply in_recommendations in Hin. destruct Hin as [r0 [Hin ->]].
  cbn [group pVTE decimals Catalog.with_decision].
  revert r0 Hin. apply (proj1 (List.Forall_forall _ _)).
  by_computation.
Qed.

Lemma decimals_deterministic_witness :
  In Samples.R1_low_record (recommendations ∅)
  /\ Catalog.decimals_rule "R1-R10" 0.10 = Some 1%Z.
Proof.
  assert (Hin : In Samples.R1_low_record (recommendations ∅))
    by (left; reflexivity).
  split; [exact Hin|].
  exact (decimals_deterministic ∅ Samples.R1_low_record Hin).
Defined.

(** C9, as the specification states it, fails on the record R2 low: it belongs to
    the R1-R10 family, its pVTE is 0.01, and it receives two decimals,
    not one. *)
Lemma R2_low_gets_two_decimals :
  In Samples.R2_low_record (recommendations ∅)
  /\ group Samples.R2_low_record = "R1-R10"
  /\ (pVTE Samples.R2_low_record == 0.01)%Q
  /\ decimals Samples.R2_low_record = 2%Z
  /\ decimals Samples.R2_low_record <> 1%Z.
Proof.
  split; [right; right; left; reflexivity|].
  split; [reflexivity|]. split; [reflexivity|]. split; [reflexivity|].
  discriminate.
Qed.

(** C9 (amended): every record built in the R1-R10 family whose pVTE
    equals 0.01 receives decimals = 2. *)
Theorem R1_R10_hundredth_two_decimals (ash_decisions : gmap string string)
        (r : recommendation) :
  In r (recommendations ash_decisions) ->
  group r = "R1-R10" ->
  (pVTE r == 0.01)%Q ->
  decimals r = 2%Z.
Proof.
  intros Hin Hg Hp. apply decimals_by_rule in Hin.
  rewrite Hg in Hin. unfold Catalog.decimals_rule in Hin.
  change (String.eqb "R1-R10" "R1-R10") with true in Hin. cbv iota in Hin.
  rewrite (ThresholdFacts.ltb_compat _ 0.01 _ 0.1 Hp (Qeq_refl _)) in Hin.
  change (Py.ltb 0.01 0.1) with true in Hin. cbv iota in Hin.
  now injection Hin.
Qed.

Lemma R1_R10_hundredth_two_decimals_witness :
  In Samples.R2_low_record (recommendations ∅)
  /\ decimals Samples.R2_low_record = 2%Z.
Proof.
  assert (Hin : In Samples.R2_low_record (recommendations ∅))
    by (right; right; left; reflexivity).
  split; [exact Hin|].
  apply (R1_R10_hundredth_two_decimals ∅ Samples.R2_low_record Hin);
    reflexivity.
Defined.

(** The files a run writes do not depend on what it prints. *)
Lemma files_of_stdout {X : Type} (f : X -> string) (l : list X) :
  flat_map (fun e => match e with FileWrite p _ => [p] | Stdout _ => [] end)
           (map (fun x => Stdout (f x)) l) = [].
Proof. induction l as [|x l IH]; [reflexivity | exact IH]. Qed.

Lemma files_written_finish (recs : list recommendation) :
  files_written (finish recs) = ["complete_recommendations.json"; "../data.js"].
Proof.
  unfold files_written, finish, report_and_save. cbn [effects].
  rewrite !flat_map_app.
  rewrite (map_ext _ (fun gc => Stdout ("  " ++ fst gc ++ ": " ++ PyStr.of_N (N.of_nat (snd gc)))))
    by (now intros [g c]).
  rewrite files_of_stdout.
  destruct (map id (filter _ recs)); reflexivity.
Qed.

(** A record whose id has no decision is built with the sentinel, and the
    object printed for it has the line of the sentinel. *)
Lemma unknown_when_absent (ash_decisions : gmap string string)
      (r : recommendation) :
  In r (recommendations ash_decisions) ->
  ash_decisions !! id r = None ->
  ashDecision r = "Unknown"
  /\ In ("ashDecision", Json.JStr "Unknown") (to_object r)
  /\ PyStr.contains Catalog.unknown_line (Json.dumps_object 4 1 (to_object r)) = true.
Proof.
  intros Hin Hnone. apply in_recommendations in Hin.
  destruct Hin as [r0 [Hin ->]]. cbn [id Catalog.with_decision] in Hnone.
  unfold get_decision. rewrite Hnone.
  split; [reflexivity | split].
  - unfold to_object. cbn [ashDecision Catalog.with_decision].
    apply in_or_app. left. do 10 right. left. reflexivity.
  - clear Hnone. revert r0 Hin. apply (proj1 (List.Forall_forall _ _)).
    by_computation.
Qed.

End BuilderFacts.

(* ===================================================================== *)
(** * Properties of the comparison *)
(* ===================================================================== *)

Module VerifierFacts.
Import Verifier.

(** The ids of the sheet tried for [js_id]: the id itself or the id with
    one of the two suffixes, when the sheet has it. *)
Lemma in_excel_matches (excel_data : gmap string ExcelRec.t) (js_id x : string) :
  In x (excel_matches excel_data js_id)
  <-> (x = js_id \/ x = js_id ++ " low" \/ x = js_id ++ " high")
      /\ is_Some (excel_data !! x).
Proof.
  unfold excel_matches. cbv zeta. rewrite !in_app_iff.
  repeat case_bool_decide; cbn [In]; split.
  all: try (intros [E | [E | E]]; try destruct E as [E | []]; try contradiction;
            subst x; tauto).
  all: try (intros [[-> | [-> | ->]] Hs]; tauto).
Qed.

(** The results are the comparisons of every record of [data.js] with
    every id of the sheet tried for it. *)
Lemma in_compare (excel_data : gmap string ExcelRec.t) (js_data : Dict.t JsRec.t)
      (row : result) :
  In row (compare_recommendations excel_data js_data)
  <-> exists js_id js_rec excel_id,
        In (js_id, js_rec) (Dict.items js_data)
        /\ In excel_id (excel_matches excel_data js_id)
        /\ row = compare_one excel_data js_id js_rec excel_id.
Proof.
  unfold compare_recommendations. rewrite in_flat_map. split.
  - intros [[js_id js_rec] [Hin Hrow]]. apply in_map_iff in Hrow.
    destruct Hrow as [excel_id [<- Hm]]. now exists js_id, js_rec, excel_id.
  - intros (js_id & js_rec & excel_id & Hin & Hm & ->).
    exists (js_id, js_rec). split; [assumption|].
    apply in_map_iff. now exists excel_id.
Qed.

(** The reference loaded from the sheet holds the three decisions only. *)
Lemma load_excel_data_valid (agreement : list Sheet.row) (k : string)
      (e : ExcelRec.t) :
  load_excel_data agreement !! k = Some e ->
  In (ExcelRec.ash_decision e) ["NoRx"; "Test"; "Rx"].
Proof.
  unfold load_excel_data.
  set (P := fun (_ : string) (v : ExcelRec.t) =>
              In (ExcelRec.ash_decision v) ["NoRx"; "Test"; "Rx"]).
  match goal with
  | |- fold_left ?f _ _ !! _ = _ -> _ =>
      assert (Hinv : forall rows m, map_Forall P m -> map_Forall P (fold_left f rows m))
  end.
  { induction rows as [|row rows IH]; intros m Hm; [exact Hm|].
    cbn [fold_left]. apply IH.
    repeat match goal with
           | |- map_Forall P (if ?b then _ else _) => destruct b eqn:?
           end; try exact Hm.
    apply map_Forall_insert_2; [|exact Hm].
    unfold P. cbn [ExcelRec.ash_decision].
    now apply BuilderFacts.in_list_In. }
  intro Hk. exact (Hinv agreement ∅ (map_Forall_empty _) k e Hk).
Qed.

(** C6, as the specification states it, fails: with the catalog records R1 low
    and R1 high and a reference that has the bare id R1 only, no result is
    produced at all. *)
Lemma suffixed_catalog_bare_reference_skipped :
  Dict.mem Samples.suffixed_catalog "R1 low" = true
  /\ Samples.bare_reference !! "R1" = Some (ExcelRec.Mk "Rx" "Rx" None (Some 0.1%Q))
  /\ compare_recommendations Samples.bare_reference Samples.suffixed_catalog = [].
Proof. repeat split; vm_compute; reflexivity. Qed.

(** C6 (amended): the expansion goes from the catalog id to the ids of
    the reference.  For every catalog record with id [b], when the
    reference has [b low] or [b high], [compare_recommendations] produces
    the result that pairs the record with that entry; and every result
    pairs a catalog id with the same id or with it followed by [ low] or
    [ high], an id the reference has.  A catalog record whose own id
    carries the suffix is therefore not paired with a bare reference id. *)
Theorem suffix_expansion :
  (forall (excel_data : gmap string ExcelRec.t) (js_data : Dict.t JsRec.t)
          (js_id : string) (js_rec : JsRec.t) (suffix : string),
      In (js_id, js_rec) (Dict.items js_data) ->
      In suffix [" low"; " high"] ->
      is_Some (excel_data !! (js_id ++ suffix)) ->
      In (compare_one excel_data js_id js_rec (js_id ++ suffix))
         (compare_recommendations excel_data js_data))
  /\ (forall (excel_data : gmap string ExcelRec.t) (js_data : Dict.t JsRec.t)
             (row : result),
         In row (compare_recommendations excel_data js_data) ->
         (excel_id row = js_id row
          \/ excel_id row = js_id row ++ " low"
          \/ excel_id row = js_id row ++ " high")
         /\ is_Some (excel_data !! excel_id row)).
Proof.
  split.
  - intros excel_data js_data jid jrec suffix Hin Hs He.
    apply in_compare. exists jid, jrec, (jid ++ suffix).
    split; [assumption | split; [|reflexivity]].
    apply in_excel_matches. split; [|assumption].
    cbn in Hs. destruct Hs as [<- | [<- | []]]; tauto.
  - intros excel_data js_data row Hin.
    apply in_compare in Hin.
    destruct Hin as (jid & jrec & eid & _ & Hm & ->).
    cbn [excel_id js_id compare_one].
    now apply in_excel_matches.
Qed.

Lemma suffix_expansion_witness :
  In (compare_one Samples.suffixed_reference "R1" (JsRec.Mk "Rx" 0.1%Q) ("R1" ++ " high"))
     (compare_recommendations Samples.suffixed_reference Samples.bare_catalog).
Proof.
  apply (proj1 suffix_expansion).
  - left. reflexivity.
  - right; left. reflexivity.
  - vm_compute. eexists. reflexivity.
Defined.

(** C7, as the specification states it, fails: a record without decision
    can be left out of the comparison without a word.  From a sheet that
    has the bare id R1 only, the builder makes R1 low with the decision
    Unknown; the verifier reads a reference decision, Rx, for R1 from the
    same sheet, and the record R1 low from data.js; and the comparison
    has no result at all: no mismatch is counted, and the report says
    that all recommendations match. *)
Lemma unknown_record_silently_excluded :
  In Samples.R1_low_record
     (Builder.recommendations (Builder.ash_decisions_of Samples.bare_sheet))
  /\ Builder.ashDecision Samples.R1_low_record = "Unknown"
  /\ (exists e, load_excel_data Samples.bare_sheet !! "R1" = Some e
                /\ ExcelRec.ash_decision e = "Rx")
  /\ (exists pv, load_js_data Samples.unknown_data_js
                 = inr [ ("R1 low", JsRec.Mk "Unknown" pv) ])
  /\ main_results (Some Samples.bare_sheet) (Some Samples.unknown_data_js) = []
  /\ mismatches
       (main_results (Some Samples.bare_sheet) (Some Samples.unknown_data_js)) = []
  /\ mismatch_report
       (main_results (Some Samples.bare_sheet) (Some Samples.unknown_data_js))
     = [check_mark ++ " All recommendations match!"].
Proof.
  split; [left; vm_compute; reflexivity|].
  split; [reflexivity|].
  split; [eexists; split; [vm_compute; reflexivity | reflexivity]|].
  split; [eexists; vm_compute; reflexivity|].
  assert (Hnil : main_results (Some Samples.bare_sheet) (Some Samples.unknown_data_js)
                 = []) by (vm_compute; reflexivity).
  rewrite Hnil. split; [reflexivity|]. split; reflexivity.
Qed.

(** C7 (amended): a record whose id is absent from the decision mapping
    is built, and printed, with ashDecision = Unknown.  In the comparison
    a catalog record is set against the entries the reference has under
    its id, its id followed by low and its id followed by high, and
    against nothing else: for each such entry with a decision NoRx, Test
    or Rx an Unknown record gives a result, and the match flag of a result
    of an Unknown record is never true (also with the reference loaded
    from the Agreement sheet); a record for which the reference has none
    of the three ids gives no result at all. *)
Theorem unknown_is_mismatch :
  (forall (ash_decisions : gmap string string) (r : Builder.recommendation),
      In r (Builder.recommendations ash_decisions) ->
      ash_decisions !! Builder.id r = None ->
      Builder.ashDecision r = "Unknown"
      /\ In ("ashDecision", Json.JStr "Unknown") (Builder.to_object r)
      /\ PyStr.contains Catalog.unknown_line
           (Json.dumps_object 4 1 (Builder.to_object r)) = true)
  /\ (forall (excel_data : gmap string ExcelRec.t) (js_data : Dict.t JsRec.t)
             (row : result),
         In row (compare_recommendations excel_data js_data) ->
         js_ash row = "Unknown" ->
         In (excel_ash row) ["NoRx"; "Test"; "Rx"] ->
         ash_matches row = false)
  /\ (forall (excel_data : gmap string ExcelRec.t) (js_data : Dict.t JsRec.t)
             (jid eid : string) (pvte : Q) (e : ExcelRec.t),
         In (jid, JsRec.Mk "Unknown" pvte) (Dict.items js_data) ->
         In eid [jid; jid ++ " low"; jid ++ " high"] ->
         excel_data !! eid = Some e ->
         In (ExcelRec.ash_decision e) ["NoRx"; "Test"; "Rx"] ->
         In {| js_id := jid; excel_id := eid; js_ash := "Unknown";
               excel_ash := ExcelRec.ash_decision e; js_pvte := pvte;
               excel_pvte := ExcelRec.pvte e; ash_matches := false |}
            (compare_recommendations excel_data js_data))
  /\ (forall (agreement : list Sheet.row) (js_data : Dict.t JsRec.t) (row : result),
         In row (compare_recommendations (load_excel_data agreement) js_data) ->
         js_ash row = "Unknown" ->
         ash_matches row = false)
  /\ (forall (excel_data : gmap string ExcelRec.t) (js_data : Dict.t JsRec.t)
             (jid : string),
         excel_data !! jid = None ->
         excel_data !! (jid ++ " low") = None ->
         excel_data !! (jid ++ " high") = None ->
         forall row : result,
           In row (compare_recommendations excel_data js_data) ->
           js_id row <> jid).
Proof.
  assert (Hneq : forall d, In d ["NoRx"; "Test"; "Rx"] -> String.eqb "Unknown" d = false).
  { intros d Hd. cbn in Hd. destruct Hd as [<- | [<- | [<- | []]]]; reflexivity. }
  split; [|split; [|split; [|split]]].
  - intros ash r Hin Hnone.
    exact (BuilderFacts.unknown_when_absent ash r Hin Hnone).
  - intros excel_data js_data row Hin Hun Hvalid.
    apply in_compare in Hin.
    destruct Hin as (jid & jrec & eid & _ & _ & ->).
    cbn [js_ash excel_ash ash_matches compare_one] in *.
    rewrite Hun. destruct (excel_data !! eid) as [e|]; [|reflexivity].
    now apply Hneq.
  - intros excel_data js_data jid eid pvte e Hin Hid He Hvalid.
    apply in_compare. exists jid, (JsRec.Mk "Unknown" pvte), eid.
    split; [assumption | split].
    + apply in_excel_matches. split; [|now rewrite He].
      cbn in Hid. destruct Hid as [<- | [<- | [<- | []]]]; tauto.
    + unfold compare_one. rewrite He. cbn [JsRec.ash_decision JsRec.pvte].
      now rewrite (Hneq _ Hvalid).
  - intros agreement js_data row Hin Hun.
    apply in_compare in Hin.
    destruct Hin as (jid & jrec & eid & _ & Hm & ->).
    cbn [js_ash excel_ash ash_matches compare_one] in *.
    rewrite Hun.
    destruct (load_excel_data agreement !! eid) as [e|] eqn:E; [|reflexivity].
    apply Hneq. now apply (load_excel_data_valid agreement eid).
  - intros excel_data js_data jid Hn Hl Hh row Hin Hid.
    apply in_compare in Hin.
    destruct Hin as (jid' & jrec & eid & _ & Hm & ->).
    cbn [js_id compare_one] in Hid. subst jid'.
    apply in_excel_matches in Hm. destruct Hm as [Hid [e He]].
    destruct Hid as [-> | [-> | ->]]; congruence.
Qed.

Lemma unknown_is_mismatch_witness :
  In {| js_id := "R13"; excel_id := "R13"; js_ash := "Unknown";
        excel_ash := "Test"; js_pvte := 0.012%Q; excel_pvte := Some 0.012%Q;
        ash_matches := false |}
     (compare_recommendations Samples.R13_reference Samples.unknown_catalog).
Proof.
  apply (proj1 (proj2 (proj2 unknown_is_mismatch))
           Samples.R13_reference Samples.unknown_catalog "R13" "R13" 0.012%Q
           (ExcelRec.Mk "Test" "Test" None (Some 0.012%Q))).
  - left. reflexivity.
  - left. reflexivity.
  - vm_compute. reflexivity.
  - right; left. reflexivity.
Defined.

End VerifierFacts.

(* ===================================================================== *)
(** * Properties of texts and of the matcher *)
(* ===================================================================== *)

Module StringFacts.
Lemma app_cons (x : ascii) (a b : string) : String x a ++ b = String x (a ++ b).
Proof. reflexivity. Qed.

Lemma app_nil_l (b : string) : EmptyString ++ b = b.
Proof. reflexivity. Qed.

Lemma app_assoc (a b c : string) : (a ++ b) ++ c = a ++ (b ++ c).
Proof.
  induction a as [|x a IH]; [reflexivity|].
  rewrite !app_cons. now f_equal.
Qed.

Lemma length_app (a b : string) :
  String.length (a ++ b) = (String.length a + String.length b)%nat.
Proof.
  induction a as [|x a IH]; [reflexivity|].
  rewrite app_cons. cbn [String.length]. now rewrite IH.
Qed.

Lemma take_app (a b : string) : PyStr.take (String.length a) (a ++ b) = a.
Proof.
  induction a as [|x a IH]; [reflexivity|].
  rewrite app_cons. cbn [String.length PyStr.take]. now f_equal.
Qed.
End StringFacts.

Module TextFacts.
Import TextProps.

Lemma suffix_refl (s : string) : Suffix s s.
Proof. now exists EmptyString. Qed.

Lemma suffix_tail (c : ascii) (s : string) : Suffix s (String c s).
Proof. now exists (String c EmptyString). Qed.

Lemma suffix_trans (u t s : string) : Suffix u t -> Suffix t s -> Suffix u s.
Proof.
  intros [a ->] [b ->]. exists (b ++ a). now rewrite StringFacts.app_assoc.
Qed.

Lemma cq_any (b : bool) (s : string) :
  colons_quoted b s = true -> colons_quoted true s = true.
Proof.
  destruct s as [|c s]; [reflexivity|]. cbn.
  rewrite !andb_true_iff. intros [H1 H2]. split; [|assumption].
  now destruct (Ascii.eqb c ":").
Qed.

Lemma cq_false (b : bool) (s : string) :
  colons_quoted false s = true -> colons_quoted b s = true.
Proof.
  destruct s as [|c s]; [reflexivity|]. cbn.
  rewrite !andb_true_iff. intros [H1 H2]. split; [|assumption].
  now destruct (Ascii.eqb c ":").
Qed.

Lemma cq_app (b : bool) (x y : string) :
  colons_quoted b x = true -> colons_quoted false y = true ->
  colons_quoted b (x ++ y) = true.
Proof.
  revert b. induction x as [|c x IH]; intros b Hx Hy.
  - now apply cq_false.
  - rewrite StringFacts.app_cons. cbn in *.
    apply andb_true_iff in Hx. destruct Hx as [H1 H2].
    rewrite H1. now apply IH.
Qed.

Lemma cq_prefix (b : bool) (x y : string) :
  colons_quoted b (x ++ y) = true -> colons_quoted b x = true.
Proof.
  revert b. induction x as [|c x IH]; intros b H; [reflexivity|].
  rewrite StringFacts.app_cons in H. cbn in *.
  apply andb_true_iff in H. destruct H as [H1 H2].
  rewrite H1. now apply (IH _ H2).
Qed.

Lemma cq_suffix (b : bool) (t s : string) :
  Suffix t s -> colons_quoted b s = true -> colons_quoted true t = true.
Proof.
  intros [a ->]. revert b. induction a as [|c a IH]; intros b H.
  - now apply (cq_any b).
  - rewrite StringFacts.app_cons in H. cbn in H.
    apply andb_true_iff in H. destruct H as [_ H2].
    now apply (IH _ H2).
Qed.

Lemma cq_join (sep : string) (items : list string) :
  colons_quoted false sep = true ->
  Forall (fun x => colons_quoted false x = true) items ->
  colons_quoted false (PyStr.join sep items) = true.
Proof.
  intros Hsep Hall. induction Hall as [|x items Hx Hall IH]; [reflexivity|].
  destruct items as [|y items]; [exact Hx|].
  change (PyStr.join sep (x :: y :: items))
    with (x ++ sep ++ PyStr.join sep (y :: items)).
  apply cq_app; [assumption|]. now apply cq_app.
Qed.
End TextFacts.

Module ReFacts.
Import Re TextProps.

Section Engine.
Context {A : Type}.
Implicit Types (k : @cont A) (s : string) (pos : N) (g : groups).

(** When what follows fails on every suffix, so does the loop. *)
Lemma star_loop_none (greedy : bool)
      (body : string -> N -> groups -> @cont A -> option A) k :
  (forall s pos g k',
      (forall s' pos' g', Suffix s' s -> k' s' pos' g' = None) ->
      body s pos g k' = None) ->
  forall fuel s pos g,
    (forall s' pos' g', Suffix s' s -> k s' pos' g' = None) ->
    star_loop greedy body k fuel s pos g = None.
Proof.
  intros Hbody. induction fuel as [|fuel IH]; intros s pos g Hk.
  - cbn. apply Hk, TextFacts.suffix_refl.
  - cbn.
    assert (Hagain : body s pos g
               (fun s' pos' g' =>
                  if (pos <? pos')%N
                  then star_loop greedy body k fuel s' pos' g' else None) = None).
    { apply Hbody. intros s' pos' g' Hs.
      destruct (pos <? pos')%N; [|reflexivity].
      apply IH. intros s'' pos'' g'' Hs'. apply Hk.
      now apply (TextFacts.suffix_trans _ s'). }
    rewrite Hagain, (Hk s pos g (TextFacts.suffix_refl s)).
    now destruct greedy.
Qed.

(** A pattern followed by something that fails everywhere fails. *)
Lemma run_none (r : regex) :
  forall s pos g k,
    (forall s' pos' g', Suffix s' s -> k s' pos' g' = None) ->
    run r s pos g k = None.
Proof.
  induction r as [| c | | p | r1 IH1 r2 IH2 | greedy r1 IH1 | n r1 IH1];
    intros s pos g k Hk; cbn [run].
  - apply Hk, TextFacts.suffix_refl.
  - destruct s as [|b s]; [reflexivity|].
    destruct (Ascii.eqb c b); [|reflexivity]. apply Hk, TextFacts.suffix_tail.
  - destruct s as [|b s]; [reflexivity|]. apply Hk, TextFacts.suffix_tail.
  - destruct s as [|b s]; [reflexivity|].
    destruct (p b); [|reflexivity]. apply Hk, TextFacts.suffix_tail.
  - apply IH1. intros s' pos' g' Hs. apply IH2.
    intros s'' pos'' g'' Hs'. apply Hk. now apply (TextFacts.suffix_trans _ s').
  - apply star_loop_none; [|assumption].
    intros s0 pos0 g0 k' Hk'. now apply IH1.
  - apply IH1. intros s' pos' g' Hs. now apply Hk.
Qed.

(** A literal is consumed when the subject begins with it. *)
Lemma run_lit (l : string) :
  forall s pos g k,
    run (Lit l) (l ++ s) pos g k = k s (pos + N.of_nat (String.length l))%N g.
Proof.
  induction l as [|c l IH]; intros s pos g k.
  - cbn. now rewrite N.add_0_r.
  - rewrite StringFacts.app_cons. cbn [Lit run].
    rewrite Ascii.eqb_refl, IH. f_equal.
    cbn [String.length]. lia.
Qed.

(** A literal fails on a subject that differs from it. *)
Lemma run_lit_differs (l : string) :
  forall h s pos g k,
    differs l h = true -> run (Lit l) (h ++ s) pos g k = None.
Proof.
  induction l as [|c l IH]; intros h s pos g k Hd; [discriminate|].
  destruct h as [|b h]; [discriminate|].
  rewrite StringFacts.app_cons. cbn [Lit run]. cbn in Hd.
  destruct (Ascii.eqb c b); [|reflexivity]. now apply IH.
Qed.

(** The lazy [.*?]: a result comes from what follows, run on the
    subject less some prefix, with the same captures. *)
Lemma lazy_any_inv k :
  forall fuel s pos g x,
    star_loop false (run Dot) k fuel s pos g = Some x ->
    exists a t, s = a ++ t
                /\ k t (pos + N.of_nat (String.length a))%N g = Some x.
Proof.
  induction fuel as [|fuel IH]; intros s pos g x Hrun.
  - cbn in Hrun. exists EmptyString, s. now rewrite N.add_0_r.
  - cbn [star_loop] in Hrun.
    destruct (k s pos g) as [y|] eqn:Ek; cbv beta iota zeta in Hrun.
    + exists EmptyString, s. rewrite N.add_0_r, Ek. now split.
    + destruct s as [|c s]; [discriminate|]. cbn [run] in Hrun.
      replace (pos <? N.succ pos)%N with true in Hrun
        by (symmetry; apply N.ltb_lt; lia).
      apply IH in Hrun. destruct Hrun as (a & t & -> & Hk).
      exists (String c a), t. split; [reflexivity|].
      rewrite <- Hk. f_equal. cbn [String.length]. lia.
Qed.

(** The lazy [.*?] succeeds as soon as what follows succeeds
    somewhere. *)
Lemma lazy_any_some k :
  forall a t fuel pos g x,
    (String.length a <= fuel)%nat ->
    k t (pos + N.of_nat (String.length a))%N g = Some x ->
    exists y, star_loop false (run Dot) k fuel (a ++ t) pos g = Some y.
Proof.
  induction a as [|c a IH]; intros t fuel pos g x Hfuel Hk.
  - rewrite StringFacts.app_nil_l. cbn [String.length] in *.
    rewrite N.add_0_r in Hk.
    destruct fuel; cbn [star_loop]; rewrite Hk; now eexists.
  - destruct fuel as [|fuel]; [cbn in Hfuel; lia|].
    rewrite StringFacts.app_cons. cbn [star_loop].
    destruct (k (String c (a ++ t)) pos g) as [y|]; [now eexists|].
    cbn [run].
    replace (pos <? N.succ pos)%N with true by (symmetry; apply N.ltb_lt; lia).
    apply (IH t fuel (N.succ pos) g x).
    + cbn in Hfuel. lia.
    + rewrite <- Hk. f_equal. cbn [String.length]. lia.
Qed.
End Engine.

(** No match anywhere: [search] finds nothing. *)
Lemma search_from_none (r : regex) (s : string) :
  (forall t pos, Suffix t s -> match_at r t pos = None) ->
  forall pos, search_from r s pos = None.
Proof.
  induction s as [|c s IH]; intros Hnone pos; cbn [search_from].
  - now rewrite (Hnone EmptyString pos (TextFacts.suffix_refl _)).
  - rewrite (Hnone _ pos (TextFacts.suffix_refl _)).
    apply IH. intros t pos' Ht. apply Hnone.
    apply (TextFacts.suffix_trans _ s); [assumption | apply TextFacts.suffix_tail].
Qed.

Lemma finditer_none (r : regex) (s : string) :
  (forall t pos, Suffix t s -> match_at r t pos = None) ->
  finditer r s = [].
Proof.
  intro Hnone. unfold finditer. cbn [finditer_from].
  now rewrite search_from_none.
Qed.
End ReFacts.

(* ===================================================================== *)
(** * The artifact of the builder read back by the verifier *)
(* ===================================================================== *)

Module RoundTripFacts.
Import Re TextProps Verifier.

Lemma run_cat {A : Type} (r1 r2 : regex) s pos g (k : @cont A) :
  run (Cat r1 r2) s pos g k
  = run r1 s pos g (fun s' pos' g' => run r2 s' pos' g' k).
Proof. reflexivity. Qed.

Lemma run_chr {A : Type} (c : ascii) s pos g (k : @cont A) :
  run (Chr c) (String c s) pos g k = k s (N.succ pos) g.
Proof. cbn [run]. now rewrite Ascii.eqb_refl. Qed.

Lemma run_group_lazy_any {A : Type} (n : nat) s pos g (k : @cont A) :
  run (Grp n (Star false Dot)) s pos g k
  = star_loop false (run Dot)
      (fun s' pos' g' => k s' pos' (set_group n (s, (pos' - pos)%N) g'))
      (String.length s) s pos g.
Proof. reflexivity. Qed.

(** [rec_pattern] needs the text [id:], a colon that follows a letter. *)
Lemma lit_id_fails {A : Type} s pos g (k : @cont A) :
  colons_quoted true s = true -> run (Lit "id:") s pos g k = None.
Proof.
  intro Hcq. cbn [Lit run].
  destruct s as [|c1 s]; [reflexivity|].
  destruct (Ascii.eqb "i" c1) eqn:E1; [|reflexivity].
  destruct s as [|c2 s]; [reflexivity|].
  destruct (Ascii.eqb "d" c2) eqn:E2; [|reflexivity].
  destruct s as [|c3 s]; [reflexivity|].
  destruct (Ascii.eqb ":" c3) eqn:E3; [|reflexivity].
  apply Ascii.eqb_eq in E1, E2, E3. subst. discriminate.
Qed.

Lemma rec_pattern_no_match (t : string) (pos : N) :
  colons_quoted true t = true -> match_at rec_pattern t pos = None.
Proof.
  intro Hcq. unfold match_at, rec_pattern, seq. cbn [fold_right].
  rewrite (run_cat (Chr _)). apply ReFacts.run_none. intros s1 pos1 g1 Hs1.
  rewrite (run_cat (Star _ _)). apply ReFacts.run_none. intros s2 pos2 g2 Hs2.
  rewrite (run_cat (Lit _)). apply lit_id_fails.
  apply (TextFacts.cq_suffix true s2 t); [|assumption].
  now apply (TextFacts.suffix_trans _ s1).
Qed.

Lemma finditer_rec_pattern_nil (a : string) :
  colons_quoted true a = true -> finditer rec_pattern a = [].
Proof.
  intro Hcq. apply ReFacts.finditer_none. intros t pos Ht.
  apply rec_pattern_no_match. now apply (TextFacts.cq_suffix true t a).
Qed.

(** [array_pattern] on a subject that begins with the declaration and a
    bracket and has a bracket and a semicolon later on: there is a match,
    and its group 1 is a prefix of what follows the first bracket. *)
Lemma array_pattern_match (inner foot : string) (pos : N) :
  exists (mt : rmatch) (a t : string),
    match_at array_pattern
      (Artifact.declaration ++ String "[" (inner ++ String "]" (String ";" foot))) pos
    = Some mt
    /\ m_group mt 1 = Some a
    /\ inner ++ String "]" (String ";" foot) = a ++ t.
Proof.
  unfold match_at, array_pattern, seq. cbn [fold_right].
  rewrite (run_cat (Lit _)). fold Artifact.declaration. rewrite ReFacts.run_lit.
  cbv beta. rewrite (run_cat (Chr _)), run_chr.
  rewrite (run_cat (Grp _ _)), run_group_lazy_any.
  set (s1 := inner ++ String "]" (String ";" foot)).
  set (pos1 := N.succ (pos + N.of_nat (String.length Artifact.declaration))).
  match goal with
  | |- exists mt a t, star_loop false _ ?K ?fuel s1 pos1 no_groups = Some mt /\ _ =>
      set (k := K);
      destruct (ReFacts.lazy_any_some k inner (String "]" (String ";" foot))
                  fuel pos1 no_groups
                  (MkMatch pos
                     (N.succ (N.succ (pos1 + N.of_nat (String.length inner))))
                     foot
                     (set_group 1 (s1, (pos1 + N.of_nat (String.length inner) - pos1)%N)
                                no_groups)))
        as [y Hy]
  end.
  - unfold s1. rewrite StringFacts.length_app. lia.
  - unfold k. cbn [run]. change (Ascii.eqb "]" "]") with true.
    change (Ascii.eqb ";" ";") with true. reflexivity.
  - fold s1 in Hy. rewrite Hy.
    apply ReFacts.lazy_any_inv in Hy. destruct Hy as (a & t & Hs & Hk).
    exists y, a, t. split; [reflexivity | split; [|exact Hs]].
    unfold k in Hk. cbn [run] in Hk.
    destruct t as [|c1 t]; [discriminate|].
    destruct (Ascii.eqb "]" c1); [|discriminate].
    destruct t as [|c2 t]; [discriminate|].
    destruct (Ascii.eqb ";" c2); [|discriminate].
    injection Hk as <-. unfold m_group. cbn [m_groups set_group Nat.eqb].
    unfold span_text. cbn [fst snd]. f_equal.
    replace (N.to_nat (pos1 + N.of_nat (String.length a) - pos1))
      with (String.length a) by lia.
    rewrite Hs. apply StringFacts.take_app.
Qed.

(** The search skips a prefix in which the declaration starts nowhere. *)
Lemma search_skips (h T : string) :
  never_starts Artifact.declaration h = true ->
  forall pos,
    search_from array_pattern (h ++ T) pos
    = search_from array_pattern T (pos + N.of_nat (String.length h))%N.
Proof.
  induction h as [|c h IH]; intros Hns pos.
  - rewrite StringFacts.app_nil_l. cbn [String.length]. now rewrite N.add_0_r.
  - cbn [never_starts] in Hns. apply andb_true_iff in Hns. destruct Hns as [Hd Hns].
    assert (Hnone : match_at array_pattern (String c h ++ T) pos = None).
    { unfold match_at, array_pattern, seq. cbn [fold_right].
      rewrite (run_cat (Lit _)). now apply ReFacts.run_lit_differs. }
    rewrite StringFacts.app_cons in *. cbn [search_from]. rewrite Hnone.
    rewrite (IH Hns). f_equal. cbn [String.length]. lia.
Qed.

(** ** The text the builder writes *)

Lemma header_split :
  Builder.js_header = Artifact.comment ++ Artifact.declaration.
Proof. vm_compute. reflexivity. Qed.

Lemma comment_never_starts :
  never_starts Artifact.declaration Artifact.comment = true.
Proof. vm_compute. reflexivity. Qed.

Lemma footer_split : Builder.js_footer = String ";" Artifact.after_semicolon.
Proof. vm_compute. reflexivity. Qed.

Lemma dumps_cons (o : Json.object) (l : list Json.object) :
  Json.dumps 4 (o :: l) = String "[" (Artifact.array_body (o :: l) ++ "]").
Proof.
  unfold Json.dumps, Artifact.array_body.
  rewrite StringFacts.app_cons, StringFacts.app_nil_l.
  now rewrite !StringFacts.app_assoc.
Qed.

Lemma js_content_split (r : Builder.recommendation)
      (recs : list Builder.recommendation) :
  Builder.js_content (r :: recs)
  = Artifact.comment
    ++ (Artifact.declaration
        ++ String "["
             (Artifact.array_body (map Builder.to_object (r :: recs))
              ++ String "]" (String ";" Artifact.after_semicolon))).
Proof.
  unfold Builder.js_content. cbn [map].
  rewrite dumps_cons, header_split, footer_split.
  rewrite StringFacts.app_cons, !StringFacts.app_assoc.
  reflexivity.
Qed.

(** In the object printed for a record, whatever its decision, every
    colon follows a double quote. *)
Lemma skeleton_objects_quoted :
  forallb
    (fun r0 =>
       forallb
         (fun d =>
            colons_quoted false
              (Json.dumps_object 4 1 (Builder.to_object (Catalog.with_decision d r0))))
         Artifact.decisions)
    Catalog.skeleton = true.
Proof. vm_compute. reflexivity. Qed.

Lemma built_objects_quoted (agreement : list Sheet.row) :
  Forall (fun x => colons_quoted false x = true)
    (map (Json.dumps_object 4 1)
         (map Builder.to_object
              (Builder.recommendations (Builder.ash_decisions_of agreement)))).
Proof.
  rewrite map_map. apply List.Forall_map. apply List.Forall_forall. intros r Hin.
  apply BuilderFacts.in_recommendations in Hin. destruct Hin as [r0 [Hin ->]].
  pose proof skeleton_objects_quoted as Hall.
  rewrite forallb_forall in Hall. specialize (Hall r0 Hin).
  rewrite forallb_forall in Hall. apply Hall.
  apply BuilderFacts.get_decision_cases.
Qed.

Lemma built_array_quoted (agreement : list Sheet.row) :
  colons_quoted false
    (Artifact.array_body
       (map Builder.to_object
            (Builder.recommendations (Builder.ash_decisions_of agreement)))
     ++ String "]" (String ";" Artifact.after_semicolon)) = true.
Proof.
  unfold Artifact.array_body.
  apply TextFacts.cq_app; [|vm_compute; reflexivity].
  apply TextFacts.cq_app; [vm_compute; reflexivity|].
  apply TextFacts.cq_app; [|vm_compute; reflexivity].
  apply TextFacts.cq_join; [vm_compute; reflexivity|].
  apply built_objects_quoted.
Qed.

(** C1 (the code departs from the specification): for every Agreement sheet the
    builder holds 69 records in memory, and [load_js_data] applied to the
    [data.js] content serialized from them returns the empty dictionary:
    the array is found, [rec_pattern] matches nowhere in it, and no record
    comes back from the serialize-then-parse cycle. *)
Theorem built_catalog_loads_empty (agreement : list Sheet.row) :
  length (Builder.recommendations (Builder.ash_decisions_of agreement)) = 69%nat
  /\ load_js_data
       (Builder.js_content
          (Builder.recommendations (Builder.ash_decisions_of agreement)))
     = inr Dict.empty.
Proof.
  split; [exact (proj1 (BuilderFacts.counts_fixed _))|].
  pose proof (built_array_quoted agreement) as Hcq.
  rewrite (BuilderFacts.recommendations_shape (Builder.ash_decisions_of agreement)) in *.
  unfold Catalog.skeleton in *.
  destruct (Builder.recommendations ∅) as [|r0 skel] eqn:Eskel; [discriminate|].
  cbn [map] in *. rewrite js_content_split.
  unfold load_js_data, search.
  rewrite (search_skips _ _ comment_never_starts).
  match goal with
  | |- context [search_from array_pattern (_ ++ String "[" (?inner ++ _)) ?p] =>
      destruct (array_pattern_match inner Artifact.after_semicolon p)
        as (mt & a & t & Hm & Hg & Hs)
  end.
  match goal with
  | |- context [search_from array_pattern ?T ?p] =>
      replace (search_from array_pattern T p) with (Some mt)
        by (destruct T; cbn [search_from]; now rewrite Hm)
  end.
  unfold group. rewrite Hg.
  rewrite finditer_rec_pattern_nil; [reflexivity|].
  apply (TextFacts.cq_any false).
  apply (TextFacts.cq_prefix false a t). rewrite <- Hs. exact Hcq.
Qed.

(** The content of the file [../data.js] that the script writes is that
    serialization: it is the text the verifier reads after a run of the
    builder. *)
Lemma data_js_of_main (agreement : list Sheet.row) (content : string) :
  In (Builder.FileWrite "../data.js" content) (Builder.effects (Builder.main agreement)) ->
  content
  = Builder.js_content (Builder.recommendations (Builder.ash_decisions_of agreement)).
Proof.
  unfold Builder.main, Builder.finish, Builder.report_and_save.
  cbn [Builder.effects].
  intros [Hin | Hin]; [discriminate|].
  repeat (apply in_app_or in Hin; destruct Hin as [Hin | Hin]).
  - destruct Hin as [E | [E | [E | []]]]; discriminate.
  - apply in_map_iff in Hin. destruct Hin as [[g c] [E _]]. discriminate.
  - destruct (map Builder.id _); [destruct Hin|].
    destruct Hin as [E | []]. discriminate.
  - destruct Hin as [E | [E | [E | [E | []]]]]; try discriminate.
    now injection E.
Qed.

(** The same loader reads a [data.js] written as a JavaScript literal,
    with keys without quotes: the two patterns are those of that format. *)
Lemma load_literal_data_js :
  exists p1 p2 : Q,
    load_js_data Samples.literal_data_js
    = inr [ ("R1 low", JsRec.Mk "Rx" p1); ("R15", JsRec.Mk "NoRx" p2) ]
    /\ (p1 == 0.10)%Q /\ (p2 == 0.00035)%Q.
Proof.
  eexists. eexists. split; [vm_compute; reflexivity|]. split; reflexivity.
Qed.

End RoundTripFacts.

(* ===================================================================== *)
(** * Further facts: strings and dictionaries *)
(* ===================================================================== *)

Module StripFacts.

Lemma startswith_app (s p : string) :
  PyStr.startswith s p = true -> exists t, s = p ++ t.
Proof.
  unfold PyStr.startswith. revert s.
  induction p as [|a p IH]; intros s Hp.
  - now exists s.
  - destruct s as [|b s]; [discriminate|]. cbn in Hp.
    destruct (ascii_dec a b) as [<- | N]; [|discriminate].
    destruct (IH s Hp) as [t ->]. now exists t.
Qed.

Lemma rstrip_cons (c : ascii) (s : string) :
  PyStr.rstrip (String c s)
  = match PyStr.rstrip s with
    | EmptyString => if PyStr.isspace c then EmptyString else String c EmptyString
    | String d r => String c (String d r)
    end.
Proof. reflexivity. Qed.

Lemma rstrip_idem (s : string) : PyStr.rstrip (PyStr.rstrip s) = PyStr.rstrip s.
Proof.
  induction s as [|c s IH]; [reflexivity|].
  rewrite rstrip_cons. destruct (PyStr.rstrip s) as [|d r] eqn:E.
  - destruct (PyStr.isspace c) eqn:Ec; [reflexivity|].
    rewrite rstrip_cons. cbn [PyStr.rstrip]. now rewrite Ec.
  - rewrite rstrip_cons, IH. reflexivity.
Qed.

Lemma rstrip_head (c : ascii) (s : string) :
  PyStr.isspace c = false -> exists r, PyStr.rstrip (String c s) = String c r.
Proof.
  intro Hc. rewrite rstrip_cons. destruct (PyStr.rstrip s); [rewrite Hc|]; now eexists.
Qed.

Lemma lstrip_head (s : string) :
  PyStr.lstrip s = EmptyString
  \/ exists c s', PyStr.lstrip s = String c s' /\ PyStr.isspace c = false.
Proof.
  induction s as [|c s IH]; [now left|].
  cbn [PyStr.lstrip]. destruct (PyStr.isspace c) eqn:Ec; [exact IH|].
  right. now exists c, s.
Qed.

(** Stripping a stripped string changes nothing. *)
Lemma strip_idem (s : string) : PyStr.strip (PyStr.strip s) = PyStr.strip s.
Proof.
  unfold PyStr.strip.
  destruct (lstrip_head s) as [-> | (c & s' & -> & Hc)]; [reflexivity|].
  destruct (rstrip_head c s' Hc) as [r Hr]. rewrite Hr.
  cbn [PyStr.lstrip]. rewrite Hc, <- Hr. apply rstrip_idem.
Qed.

(** A string that starts with R still does after stripping. *)
Lemma strip_keeps_R (s : string) :
  PyStr.startswith s "R" = true -> PyStr.startswith (PyStr.strip s) "R" = true.
Proof.
  intro Hs. apply startswith_app in Hs. destruct Hs as [t ->].
  change ("R" ++ t) with (String "R" t).
  unfold PyStr.strip. cbn [PyStr.lstrip].
  change (PyStr.isspace "R") with false. cbv iota.
  destruct (rstrip_head "R" t eq_refl) as [r ->]. now destruct r.
Qed.

(** The three decisions have no space around them. *)
Lemma strip_valid (d : string) :
  PyStr.in_list d Builder.valid_decisions = true -> PyStr.strip d = d.
Proof.
  intro Hd. apply BuilderFacts.in_list_In in Hd. cbn in Hd.
  destruct Hd as [<- | [<- | [<- | []]]]; reflexivity.
Qed.

End StripFacts.

Module DictFacts.

Lemma list_sum_cons (x : nat) (l : list nat) :
  list_sum (x :: l) = (x + list_sum l)%nat.
Proof. reflexivity. Qed.

Lemma get_of_key {V : Type} (d : Dict.t V) (k : string) :
  In k (Dict.keys d) -> exists v, Dict.get d k = Some v.
Proof.
  induction d as [|[k' v'] d IH]; [intros []|].
  cbn. intros [<- | Hin].
  - rewrite String.eqb_refl. now eexists.
  - destruct (String.eqb k k'); [now eexists | now apply IH].
Qed.

Lemma keys_set {V : Type} (d : Dict.t V) (k : string) (v : V) :
  In k (Dict.keys d) -> Dict.keys (Dict.set d k v) = Dict.keys d.
Proof.
  induction d as [|[k' v'] d IH]; [intros []|].
  cbn. intro Hin. destruct (String.eqb k k') eqn:E; [reflexivity|].
  cbn. f_equal. apply IH. destruct Hin as [<- | Hin]; [|assumption].
  rewrite String.eqb_refl in E. discriminate.
Qed.

Lemma in_keys_set {V : Type} (d : Dict.t V) (k x : string) (v : V) :
  In x (Dict.keys (Dict.set d k v)) -> x = k \/ In x (Dict.keys d).
Proof.
  induction d as [|[k' v'] d IH]; cbn.
  - intros [<- | []]. now left.
  - destruct (String.eqb k k'); cbn; [tauto|].
    intros [<- | Hin]; [tauto|]. destruct (IH Hin); tauto.
Qed.

(** Assignment to a key keeps the keys distinct. *)
Lemma set_keys_nodup {V : Type} (d : Dict.t V) (k : string) (v : V) :
  List.NoDup (Dict.keys d) -> List.NoDup (Dict.keys (Dict.set d k v)).
Proof.
  induction d as [|[k' v'] d IH]; cbn; intro Hnd.
  - repeat constructor. intros [].
  - destruct (String.eqb k k') eqn:E; [exact Hnd|].
    apply List.NoDup_cons_iff in Hnd. destruct Hnd as [Hnin Hnd].
    cbn. apply List.NoDup_cons; [|now apply IH].
    intro Hin. apply in_keys_set in Hin. destruct Hin as [-> | Hin]; [|contradiction].
    rewrite String.eqb_refl in E. discriminate.
Qed.

End DictFacts.

(* ===================================================================== *)
(** * Further facts: thresholds and decisions *)
(* ===================================================================== *)

Module RegionFacts.
Import Verifier ThresholdFacts Notions.
Local Open Scope Q_scope.

(** X1 (calculate_thresholds): thresholds are returned only when no
    denominator is zero.  Whenever a call returns, RRrx is not 1, and in
    the standard model RRt is not 0: with RRrx = 1 (either model), or
    RRt = 0 (standard model), the call raises and returns nothing. *)
Theorem returned_thresholds_nonzero_denominators
        (p : params) (is_reversed : bool) (th : thresholds) :
  calculate_thresholds p is_reversed = Some th ->
  ~ get (RRrx p) 0.15 == 1
  /\ (is_reversed = false -> ~ get (RRt p) 1.65 == 0).
Proof.
  intro Hth. split.
  - intro E. destruct is_reversed.
    + rewrite reversed_zero_division in Hth by assumption. discriminate.
    + rewrite standard_zero_division in Hth by (now left). discriminate.
  - intros -> E.
    rewrite standard_zero_division in Hth by (now right). discriminate.
Qed.

Lemma returned_thresholds_nonzero_denominators_witness :
  ~ get (RRrx Samples.R1_low_params) 0.15 == 1
  /\ (false = false -> ~ get (RRt Samples.R1_low_params) 1.65 == 0).
Proof.
  eapply (returned_thresholds_nonzero_denominators Samples.R1_low_params false).
  reflexivity.
Defined.



(** X3 (determine_decision): the decision as a function of the position of
    pVTE, for every pair of thresholds, ordered or not.  Standard model:
    NoRx exactly below Ptt, Test exactly on [Ptt, Pt], Rx exactly above Pt
    and not below Ptt.  Reversed model: Rx exactly below Pt, Test exactly
    on [Pt, Ptt], NoRx exactly above Ptt and not below Pt.  Both bounds of
    the Test interval belong to it. *)
Theorem decision_by_position (pVTE : Q) (th : thresholds) :
  ((determine_decision pVTE th false = "NoRx" <-> pVTE < Ptt th)
   /\ (determine_decision pVTE th false = "Test" <-> Ptt th <= pVTE <= Pt th)
   /\ (determine_decision pVTE th false = "Rx"
       <-> Ptt th <= pVTE /\ Pt th < pVTE))
  /\ ((determine_decision pVTE th true = "Rx" <-> pVTE < Pt th)
      /\ (determine_decision pVTE th true = "Test" <-> Pt th <= pVTE <= Ptt th)
      /\ (determine_decision pVTE th true = "NoRx"
          <-> Pt th <= pVTE /\ Ptt th < pVTE)).
Proof.
  split.
  - destruct (DecisionFacts.standard_decision pVTE th)
      as [[H1 E] | [[H1 [H2 E]] | [[H1 H2] E]]];
      rewrite E; repeat split; intros; try discriminate; try lra; try reflexivity.
  - destruct (DecisionFacts.reversed_decision pVTE th)
      as [[H1 E] | [[H1 [H2 E]] | [[H1 H2] E]]];
      rewrite E; repeat split; intros; try discriminate; try lra; try reflexivity.
Qed.

(** X4 (determine_decision): the reversed model is the standard model with
    the two thresholds exchanged and the answers Rx and NoRx exchanged. *)
Theorem reversed_is_flipped_standard (pVTE : Q) (th : thresholds) :
  determine_decision pVTE th true
  = flip (determine_decision pVTE {| Ptt := Pt th; Pt := Ptt th |} false).
Proof.
  unfold determine_decision. cbn [Pt Ptt].
  destruct (Py.ltb pVTE (Pt th)); [reflexivity|].
  destruct (Py.ltb (Ptt th) pVTE); reflexivity.
Qed.

(** X5 (determine_decision): for fixed thresholds, ordered or not, the
    decision is monotone in pVTE: a larger pVTE never lowers the decision
    in the order NoRx, Test, Rx in the standard model, and never raises it
    in the reversed model. *)
Theorem decision_monotone (p p' : Q) (th : thresholds) :
  p <= p' ->
  (rank (determine_decision p th false) <= rank (determine_decision p' th false))%nat
  /\ (rank (determine_decision p' th true) <= rank (determine_decision p th true))%nat.
Proof.
  intro Hle. split.
  - destruct (DecisionFacts.standard_decision p th)
      as [[H1 E] | [[H1 [H2 E]] | [[H1 H2] E]]];
      destruct (DecisionFacts.standard_decision p' th)
        as [[H1' E'] | [[H1' [H2' E']] | [[H1' H2'] E']]];
      rewrite E, E'; cbn; try lia; exfalso; lra.
  - destruct (DecisionFacts.reversed_decision p th)
      as [[H1 E] | [[H1 [H2 E]] | [[H1 H2] E]]];
      destruct (DecisionFacts.reversed_decision p' th)
        as [[H1' E'] | [[H1' [H2' E']] | [[H1' H2'] E']]];
      rewrite E, E'; cbn; try lia; exfalso; lra.
Qed.

Lemma decision_monotone_witness :
  (rank (determine_decision 0.001 Scenarios.ordered_thresholds false)
   <= rank (determine_decision 0.02 Scenarios.ordered_thresholds false))%nat
  /\ (rank (determine_decision 0.02 Scenarios.ordered_thresholds true)
      <= rank (determine_decision 0.001 Scenarios.ordered_thresholds true))%nat.
Proof.
  apply (decision_monotone 0.001 0.02 Scenarios.ordered_thresholds).
  unfold Qle. cbn. lia.
Defined.

(** X6 (calculate_thresholds, then determine_decision): with parameters in
    their clinical ranges and RRt at least 1, the thresholds a call
    returns cut the pVTE axis in three regions: below the lower threshold,
    between the two (bounds included) and above the upper one, with
    lower <= upper, and the decision taken on those thresholds is the one
    of the region: NoRx, Test, Rx in the standard model and Rx, Test, NoRx
    in the reversed one. *)
Theorem decision_regions (p : params) (is_reversed : bool) (th : thresholds) :
  (if is_reversed then 1 < get (RRrx p) 0.15
   else 0 < get (RRrx p) 0.15 < 1 /\ 1 < get (RRbleed p) 2.17) ->
  0 < get (RV p) 1 ->
  0 < get (H p) 0.005 ->
  0 <= get (Tp p) 0.38 <= 1 ->
  1 <= get (RRt p) 1.65 ->
  calculate_thresholds p is_reversed = Some th ->
  lower th is_reversed <= upper th is_reversed
  /\ forall pVTE : Q,
      (determine_decision pVTE th is_reversed = below_decision is_reversed
       <-> pVTE < lower th is_reversed)
      /\ (determine_decision pVTE th is_reversed = "Test"
          <-> lower th is_reversed <= pVTE <= upper th is_reversed)
      /\ (determine_decision pVTE th is_reversed = above_decision is_reversed
          <-> upper th is_reversed < pVTE).
Proof.
  intros Hrx Hrv Hh [Htp0 Htp1] Hrt Hth.
  assert (Hord : lower th is_reversed <= upper th is_reversed).
  { destruct is_reversed.
    - rewrite reversed_thresholds in Hth by lra.
      injection Hth as <-. unfold lower, upper. cbn [Pt Ptt].
      apply scale_ge.
      + apply div_pos; [apply Qmult_lt_0_compat; lra | lra].
      + apply reversed_factor; [assumption | now left].
    - destruct Hrx as [[Hrx0 Hrx1] Hb].
      rewrite standard_thresholds in Hth by lra.
      injection Hth as <-. unfold lower, upper. cbn [Pt Ptt].
      apply scale_le.
      + apply div_pos; [repeat apply Qmult_lt_0_compat; lra | lra].
      + apply standard_factor; [lra | assumption | now left]. }
  split; [exact Hord|].
  intro pVTE. unfold lower, upper, below_decision, above_decision in *.
  destruct is_reversed.
  - destruct (DecisionFacts.reversed_decision pVTE th)
      as [[H1 E] | [[H1 [H2 E]] | [[H1 H2] E]]];
      rewrite E; repeat split; intros; try discriminate; try lra; try reflexivity.
  - destruct (DecisionFacts.standard_decision pVTE th)
      as [[H1 E] | [[H1 [H2 E]] | [[H1 H2] E]]];
      rewrite E; repeat split; intros; try discriminate; try lra; try reflexivity.
Qed.

Lemma decision_regions_witness :
  exists th,
    calculate_thresholds Samples.R1_low_params false = Some th
    /\ lower th false <= upper th false
    /\ forall pVTE : Q,
        (determine_decision pVTE th false = below_decision false
         <-> pVTE < lower th false)
        /\ (determine_decision pVTE th false = "Test"
            <-> lower th false <= pVTE <= upper th false)
        /\ (determine_decision pVTE th false = above_decision false
            <-> upper th false < pVTE).
Proof.
  eexists. split; [reflexivity|].
  apply (decision_regions Samples.R1_low_params false);
    [cbn; lra | cbn; lra | cbn; lra | cbn; lra | cbn; lra | reflexivity].
Defined.

End RegionFacts.

(* ===================================================================== *)
(** * Further facts: the comparison and its summary *)
(* ===================================================================== *)

Module CompareFacts.
Import Verifier VerifierFacts.

Lemma excel_matches_length (excel_data : gmap string ExcelRec.t) (jid : string) :
  (length (excel_matches excel_data jid) <= 3)%nat.
Proof.
  unfold excel_matches. cbv zeta. rewrite !length_app.
  repeat case_bool_decide; cbn; lia.
Qed.

(** With an empty reference nothing is compared. *)
Lemma compare_empty_reference (js_data : Dict.t JsRec.t) :
  compare_recommendations ∅ js_data = [].
Proof.
  unfold compare_recommendations, Dict.items.
  induction js_data as [|[jid jrec] js IH]; [reflexivity|].
  cbn [flat_map]. rewrite IH.
  unfold excel_matches. cbv zeta. rewrite !lookup_empty.
  repeat case_bool_decide; try reflexivity;
    match goal with H : is_Some None |- _ => destruct H; discriminate end.
Qed.

(** X7 (compare_recommendations): the size of the result.  With an empty
    reference, or an empty catalog, the comparison is empty; and a catalog
    record gives at most three results (its id, its id with low, its id
    with high), so there are at most three times as many results as
    records. *)
Theorem compare_size (excel_data : gmap string ExcelRec.t)
        (js_data : Dict.t JsRec.t) :
  compare_recommendations ∅ js_data = []
  /\ compare_recommendations excel_data Dict.empty = []
  /\ (length (compare_recommendations excel_data js_data) <= 3 * length js_data)%nat.
Proof.
  split; [apply compare_empty_reference | split; [reflexivity|]].
  unfold compare_recommendations, Dict.items.
  induction js_data as [|[jid jrec] js IH]; [cbn; lia|].
  cbn [flat_map length]. rewrite length_app, length_map.
  pose proof (excel_matches_length excel_data jid). lia.
Qed.

(** X8 (compare_recommendations): what a result holds.  Every result has
    the id of a record of the catalog and the id of an entry of the
    reference; its catalog fields are those of that record, its reference
    fields those of that entry; and its match flag is the equality of the
    two decisions as strings, nothing more (the pVTE values are carried
    along and never compared). *)
Theorem results_faithful (excel_data : gmap string ExcelRec.t)
        (js_data : Dict.t JsRec.t) :
  Forall
    (fun row =>
       exists (jrec : JsRec.t) (e : ExcelRec.t),
         In (js_id row, jrec) (Dict.items js_data)
         /\ excel_data !! excel_id row = Some e
         /\ js_ash row = JsRec.ash_decision jrec
         /\ js_pvte row = JsRec.pvte jrec
         /\ excel_ash row = ExcelRec.ash_decision e
         /\ excel_pvte row = ExcelRec.pvte e
         /\ ash_matches row = String.eqb (js_ash row) (excel_ash row))
    (compare_recommendations excel_data js_data).
Proof.
  apply List.Forall_forall. intros row Hin.
  apply in_compare in Hin. destruct Hin as (jid & jrec & eid & Hin & Hm & ->).
  apply in_excel_matches in Hm. destruct Hm as [_ [e He]].
  exists jrec, e. unfold compare_one.
  cbn [js_id excel_id js_ash js_pvte excel_ash excel_pvte ash_matches].
  rewrite He. repeat split; assumption.
Qed.

(** X9 (compare_recommendations): when every id of the catalog is an id of
    the reference, and no id of the reference is one of them followed by
    low or high, the comparison has exactly one result per record of the
    catalog, in the order of the catalog, each against the entry of the
    same id. *)
Theorem compare_same_ids (excel_data : gmap string ExcelRec.t)
        (js_data : Dict.t JsRec.t) :
  Forall (fun kv => is_Some (excel_data !! fst kv)
                    /\ excel_data !! (fst kv ++ " low") = None
                    /\ excel_data !! (fst kv ++ " high") = None)
         (Dict.items js_data) ->
  compare_recommendations excel_data js_data
  = map (fun kv => compare_one excel_data (fst kv) (snd kv) (fst kv))
        (Dict.items js_data).
Proof.
  unfold compare_recommendations, Dict.items.
  induction 1 as [|[jid jrec] js (Hs & Hl & Hh) Hall IH]; [reflexivity|].
  cbn [flat_map map fst snd] in *. rewrite IH. f_equal.
  unfold excel_matches. cbv zeta. rewrite Hl, Hh.
  repeat case_bool_decide; try reflexivity; try contradiction;
    match goal with H : is_Some None |- _ => destruct H; discriminate end.
Qed.

Lemma compare_same_ids_witness :
  compare_recommendations Scenarios.same_ids_reference Scenarios.same_ids_catalog
  = map (fun kv => compare_one Scenarios.same_ids_reference (fst kv) (snd kv) (fst kv))
        (Dict.items Scenarios.same_ids_catalog).
Proof.
  apply compare_same_ids.
  repeat constructor; vm_compute; try reflexivity; eexists; reflexivity.
Defined.

(** X10 (main): the accuracy of the summary.  The branch that prints N/A
    is taken exactly when there is no result; otherwise the division is
    defined and the percentage lies between 0 and 100. *)
Theorem accuracy_range (results : list result) :
  match accuracy results with
  | Some a => (0 <= a <= 100)%Q /\ results <> []
  | None => results = []
  end.
Proof.
  unfold accuracy, total, matches.
  destruct results as [|r results]; [reflexivity|].
  set (l := r :: results).
  assert (Hlen : (0 < length l)%nat) by (cbn; lia).
  destruct (0 <? length l)%nat eqn:E; [|apply Nat.ltb_ge in E; lia].
  split; [|discriminate].
  pose proof (length_filter ash_matches l) as Hm. fold l in Hm.
  assert (H0 : (0 <= inject_Z (Z.of_nat (length (filter ash_matches l))))%Q)
    by (rewrite <- (Zle_Qle 0); lia).
  assert (H1 : (inject_Z (Z.of_nat (length (filter ash_matches l)))
                <= inject_Z (Z.of_nat (length l)))%Q)
    by (rewrite <- Zle_Qle; lia).
  assert (H2 : (0 < inject_Z (Z.of_nat (length l)))%Q)
    by (rewrite <- (Zlt_Qlt 0); lia).
  set (m := inject_Z (Z.of_nat (length (filter ash_matches l)))) in *.
  set (t := inject_Z (Z.of_nat (length l))) in *.
  assert (Hd0 : (0 <= m / t)%Q) by (apply Qle_shift_div_l; [assumption | lra]).
  assert (Hd1 : (m / t <= 1)%Q) by (apply Qle_shift_div_r; [assumption | lra]).
  split; lra.
Qed.

End CompareFacts.

(* ===================================================================== *)
(** * Further facts: the tallies of the chart *)
(* ===================================================================== *)

Module ChartFacts.
Import Verifier Notions DictFacts.

(** X11 (generate_accuracy_chart): the first two branches of the grouping
    put under R1-R10 every id that starts with R20, and every id of at
    most three characters that starts with R1 (R11 to R19 among them). *)
Theorem chart_group_R1_R10_extra (rec_id : string) :
  PyStr.startswith rec_id "R20" = true
  \/ (PyStr.startswith rec_id "R1" = true /\ (String.length rec_id <= 3)%nat) ->
  chart_group rec_id = Some "R1-R10".
Proof.
  intros [H20 | [H1 Hlen]].
  - apply StripFacts.startswith_app in H20. destruct H20 as [t ->]. reflexivity.
  - unfold chart_group. rewrite H1.
    apply Nat.leb_le in Hlen. now rewrite Hlen.
Qed.

Lemma chart_group_R1_R10_extra_witness :
  chart_group "R20a" = Some "R1-R10".
Proof.
  apply chart_group_R1_R10_extra. left. reflexivity.
Defined.

(** X12 (generate_accuracy_chart): an id made of R1, a space and at least
    one more character (R1 low, R1 high) falls through every branch of the
    grouping: the result is skipped and counted in no group. *)
Theorem chart_group_skips_R1_variants (rec_id : string) :
  PyStr.startswith rec_id "R1 " = true ->
  (3 < String.length rec_id)%nat ->
  chart_group rec_id = None.
Proof.
  intros H Hlen. apply StripFacts.startswith_app in H. destruct H as [t ->].
  destruct t as [|c t]; [|reflexivity].
  exfalso. change (3 < 3)%nat in Hlen. lia.
Qed.

Lemma chart_group_skips_R1_variants_witness : chart_group "R1 low" = None.
Proof.
  apply chart_group_skips_R1_variants; [reflexivity | cbn; lia].
Defined.

(** X13 (generate_accuracy_chart, on the ids the builder emits): for every
    Agreement sheet and every record of the catalog, the group of the
    chart is the group the builder gave to the record, except for fifteen
    ids: R1 low and R1 high (in no group), R13, R15 and R17 and the ten
    records R20a to R20j (under R1-R10). *)
Theorem chart_group_on_catalog (ash_decisions : gmap string string) :
  Forall
    (fun r =>
       if PyStr.in_list (Builder.id r) chart_exceptions
       then chart_group (Builder.id r) <> Some (Builder.group r)
       else chart_group (Builder.id r) = Some (Builder.group r))
    (Builder.recommendations ash_decisions)
  /\ incl chart_exceptions
          (map Builder.id (Builder.recommendations ash_decisions)).
Proof.
  rewrite BuilderFacts.recommendations_shape. split.
  - apply List.Forall_map.
    cbn [Builder.id Builder.group Catalog.with_decision].
    unfold Catalog.skeleton.
    repeat (apply List.Forall_cons; [vm_compute; congruence|]).
    apply List.Forall_nil.
  - rewrite map_map. cbn [Builder.id Catalog.with_decision].
    intros x Hin. apply BuilderFacts.in_list_In.
    unfold chart_exceptions in Hin. cbn [In] in Hin.
    repeat (destruct Hin as [<- | Hin]; [vm_compute; reflexivity|]).
    destruct Hin.
Qed.

Lemma chart_group_cases (rec_id : string) :
  match chart_group rec_id with
  | Some g => In g ["R1-R10"; "R11-R14"; "R15-R20"; "R21-R23"]
  | None => True
  end.
Proof.
  unfold chart_group.
  repeat match goal with
         | |- context [if ?b then _ else _] => destruct b
         end; cbn; tauto.
Qed.

Lemma sum_set (f : tally -> nat) (d : Dict.t tally) (k : string) (t t' : tally) :
  Dict.get d k = Some t ->
  (list_sum (map (fun kv => f (snd kv)) (Dict.set d k t')) + f t
   = list_sum (map (fun kv => f (snd kv)) d) + f t')%nat.
Proof.
  induction d as [|[k' v'] d IH]; [discriminate|].
  cbn [Dict.get Dict.set]. destruct (String.eqb k k') eqn:E.
  - intros [= ->]. cbn [map snd]. rewrite !list_sum_cons. lia.
  - intro Hg. cbn [map snd]. rewrite !list_sum_cons. specialize (IH Hg). lia.
Qed.

Lemma forall_set (P : tally -> Prop) (d : Dict.t tally) (k : string) (t' : tally) :
  Forall (fun kv => P (snd kv)) d -> P t' ->
  Forall (fun kv => P (snd kv)) (Dict.set d k t').
Proof.
  intros Hall Ht. induction Hall as [|[k' v'] d Hv Hall IH].
  - cbn. now repeat constructor.
  - cbn. destruct (String.eqb k k'); constructor; assumption.
Qed.

Lemma get_forall (P : tally -> Prop) (d : Dict.t tally) (k : string) (t : tally) :
  Forall (fun kv => P (snd kv)) d -> Dict.get d k = Some t -> P t.
Proof.
  intros Hall. induction Hall as [|[k' v'] d Hv Hall IH]; [discriminate|].
  cbn. destruct (String.eqb k k'); [now intros [= <-] | exact IH].
Qed.

Lemma length_filter_snoc {X : Type} (f : X -> bool) (l : list X) (x : X) :
  length (filter f (l ++ [x])%list) = (length (filter f l) + if f x then 1 else 0)%nat.
Proof.
  rewrite filter_app, length_app. f_equal.
  rewrite filter_cons, filter_nil.
  destruct (f x); case_decide; try reflexivity; cbn in *; tauto.
Qed.

(** One turn of the loop keeps the invariant, and raises no KeyError. *)
Lemma chart_step_inv (results : list result) (groups : Dict.t tally) (r : result) :
  chart_inv results groups ->
  exists groups', chart_step (Some groups) r = Some groups'
                  /\ chart_inv (results ++ [r])%list groups'.
Proof.
  unfold chart_inv. intros (Hk & Hle & Ht & Hm). unfold chart_step.
  pose proof (chart_group_cases (js_id r)) as Hg.
  destruct (chart_group (js_id r)) as [g|] eqn:Eg.
  - assert (Hin : In g (Dict.keys groups)) by (now rewrite Hk).
    destruct (get_of_key groups g Hin) as [t Hget]. rewrite Hget.
    eexists. split; [reflexivity|].
    pose proof (get_forall (fun t => match_count t <= total_count t)%nat _ _ _ Hle Hget)
      as Hlt.
    cbn beta in Hlt.
    split; [|split; [|split]].
    + unfold four_groups. now rewrite keys_set.
    + apply (forall_set (fun t => match_count t <= total_count t)%nat); [assumption|].
      cbn. destruct (ash_matches r); lia.
    + rewrite length_filter_snoc.
      change (charted r) with (bool_decide (is_Some (chart_group (js_id r)))).
      rewrite Eg.
      rewrite bool_decide_true by (now eexists).
      pose proof (sum_set total_count groups g t
                    (MkTally (if ash_matches r then S (match_count t) else match_count t)
                             (S (total_count t))) Hget) as Hs.
      unfold sum_totals in *. cbn [total_count] in Hs. lia.
    + rewrite length_filter_snoc.
      change (charted r) with (bool_decide (is_Some (chart_group (js_id r)))).
      rewrite Eg.
      rewrite bool_decide_true by (now eexists). cbn [andb].
      pose proof (sum_set match_count groups g t
                    (MkTally (if ash_matches r then S (match_count t) else match_count t)
                             (S (total_count t))) Hget) as Hs.
      unfold sum_matches in *. cbn [match_count] in Hs.
      destruct (ash_matches r); lia.
  - exists groups. split; [reflexivity|].
    split; [assumption | split; [assumption|]].
    rewrite !length_filter_snoc.
    change (charted r) with (bool_decide (is_Some (chart_group (js_id r)))).
    rewrite Eg.
    rewrite bool_decide_false by (intros [x Hx]; discriminate).
    cbn [andb]. split; lia.
Qed.

Lemma chart_fold_inv (rs : list result) :
  forall (done : list result) (groups : Dict.t tally),
    chart_inv done groups ->
    exists groups', fold_left chart_step rs (Some groups) = Some groups'
                    /\ chart_inv (done ++ rs)%list groups'.
Proof.
  induction rs as [|r rs IH]; intros done groups Hinv.
  - exists groups. rewrite app_nil_r. now split.
  - cbn [fold_left].
    destruct (chart_step_inv done groups r Hinv) as (g1 & -> & Hinv1).
    destruct (IH _ _ Hinv1) as (g2 & Hf & Hinv2).
    exists g2. split; [assumption|]. now rewrite <- app_assoc in Hinv2.
Qed.

(** X14 (generate_accuracy_chart): the tallies the bars are drawn from.
    For every list of results the loop ends without a KeyError; the dict
    still has its four groups, in their order; in every group the matches
    are at most the total; the totals add up to the number of results
    whose id the grouping accepts, which can be less than the number of
    results; and the mismatches and the matches add up to the totals. *)
Theorem chart_tallies_sound (results : list result) :
  exists groups : Dict.t tally,
    chart_tallies results = Some groups
    /\ Dict.keys groups = ["R1-R10"; "R11-R14"; "R15-R20"; "R21-R23"]
    /\ Forall (fun kv => match_count (snd kv) <= total_count (snd kv))%nat groups
    /\ sum_totals groups = length (filter charted results)
    /\ (sum_totals groups <= length results)%nat
    /\ (list_sum (chart_mismatches groups) + sum_matches groups
        = sum_totals groups)%nat.
Proof.
  destruct (chart_fold_inv results [] chart_initial) as (groups & Hf & Hk & Hle & Ht & Hm).
  { repeat split; try reflexivity. repeat constructor. }
  exists groups. cbn [app] in *. split; [exact Hf|].
  split; [exact Hk|]. split; [exact Hle|]. split; [exact Ht|].
  split; [rewrite Ht; apply length_filter|].
  unfold chart_mismatches, sum_matches, sum_totals, Dict.items. clear -Hle.
  induction Hle as [|[k t] d Hkt Hle IH]; [reflexivity|].
  cbn [map snd] in *. rewrite !list_sum_cons. lia.
Qed.

End ChartFacts.

(* ===================================================================== *)
(** * Further facts: the builder and the Agreement sheet *)
(* ===================================================================== *)

Module SheetFacts.
Import Builder Notions StripFacts.

(** X15 (generate_complete_data.py, the loop over r1_10_base): for every
    table of base scenarios, each scenario gives exactly two records, low
    then high, in the order of the table, with ids the base id followed by
    low and high and hemorrhage risks 0.005 and 0.015; so there are twice
    as many records as scenarios.  Every record has H_high equal to H_low,
    the group R1-R10, no isReversed key, and the decision of the mapping
    at its own, suffixed, id. *)
Theorem r1_10_expansion (base : list (string * base_params))
        (ash_decisions : gmap string string) :
  map id (build_r1_10 base ash_decisions)
  = flat_map (fun bp => [fst bp ++ " low"; fst bp ++ " high"]) base
  /\ map H_low (build_r1_10 base ash_decisions)
     = flat_map (fun _ => [0.005; 0.015]%Q) base
  /\ length (build_r1_10 base ash_decisions) = (2 * length base)%nat
  /\ Forall (fun r => H_high r = H_low r
                      /\ group r = "R1-R10"
                      /\ isReversed r = None
                      /\ ashDecision r = get_decision ash_decisions (id r))
            (build_r1_10 base ash_decisions).
Proof.
  unfold build_r1_10.
  induction base as [|[base_id params] base (IH1 & IH2 & IH3 & IH4)].
  - repeat split; constructor.
  - cbn [flat_map]. rewrite !map_app, length_app, IH1, IH2, IH3.
    split; [reflexivity|]. split; [reflexivity|]. split; [cbn; lia|].
    apply List.Forall_app. split; [|exact IH4].
    repeat (apply List.Forall_cons; [now repeat split|]). apply List.Forall_nil.
Qed.

(** X16 (generate_complete_data.py, ash_decisions.get(id, 'Unknown')): for
    every Agreement sheet, the decision of every built record is NoRx,
    Test, Rx or Unknown, and it is Unknown exactly when the id of the
    record is not a key of the mapping read from the sheet. *)
Theorem decision_never_empty (agreement : list Sheet.row) :
  Forall (fun r => In (ashDecision r) ["NoRx"; "Test"; "Rx"; "Unknown"]
                   /\ (ashDecision r = "Unknown"
                       <-> ash_decisions_of agreement !! id r = None))
         (recommendations (ash_decisions_of agreement)).
Proof.
  apply List.Forall_forall. intros r Hin.
  apply BuilderFacts.in_recommendations in Hin. destruct Hin as [r0 [_ ->]].
  cbn [ashDecision id Catalog.with_decision].
  split; [apply BuilderFacts.get_decision_cases|].
  unfold get_decision.
  destruct (ash_decisions_of agreement !! id r0) as [d|] eqn:E; [|tauto].
  apply BuilderFacts.ash_decisions_valid in E.
  split; [|discriminate]. intros ->. cbn in E.
  destruct E as [E | [E | [E | []]]]; discriminate.
Qed.

Lemma ash_decisions_fold (rows : list Sheet.row) :
  forall (P : gmap string string -> Prop) (m : gmap string string),
    P m ->
    (forall m k v row, P m -> builder_entry row = Some (k, v) -> P (<[k := v]> m)) ->
    P (fold_left
         (fun (acc : gmap string string) (row : Sheet.row) =>
            let case := PyStr.strip (Sheet.text (Sheet.col1 row)) in
            let ash := PyStr.strip (Sheet.text (Sheet.col2 row)) in
            if PyStr.startswith case "R" && PyStr.in_list ash valid_decisions
            then <[case := ash]> acc else acc) rows m).
Proof.
  induction rows as [|row rows IH]; intros P m Hm Hstep; [exact Hm|].
  cbn [fold_left]. apply IH; [|exact Hstep].
  destruct (PyStr.startswith _ _ && PyStr.in_list _ _) eqn:E; [|exact Hm].
  apply (Hstep m _ _ row Hm). unfold builder_entry. now rewrite E.
Qed.

(** X17 (generate_complete_data.py, the loop over the Agreement sheet):
    for every sheet, every key of the decision mapping starts with R and
    has no space at either end, every value is NoRx, Test or Rx, and the
    mapping has at most as many entries as the sheet has rows. *)
Theorem ash_decisions_keys (agreement : list Sheet.row) :
  map_Forall (fun k v => PyStr.startswith k "R" = true
                         /\ PyStr.strip k = k
                         /\ In v ["NoRx"; "Test"; "Rx"])
             (ash_decisions_of agreement)
  /\ (size (ash_decisions_of agreement) <= length agreement)%nat.
Proof.
  split.
  - unfold ash_decisions_of. apply ash_decisions_fold; [apply map_Forall_empty|].
    intros m k v row Hm He. apply map_Forall_insert_2; [|exact Hm].
    unfold builder_entry in He.
    destruct (PyStr.startswith _ _ && PyStr.in_list _ _) eqn:E; [|discriminate].
    injection He as <- <-. apply andb_true_iff in E. destruct E as [E1 E2].
    split; [exact E1|]. split; [apply strip_idem|].
    now apply BuilderFacts.in_list_In.
  - unfold ash_decisions_of.
    assert (Hgen : forall rows (m : gmap string string),
               (size (fold_left
                        (fun (acc : gmap string string) (row : Sheet.row) =>
                           let case := PyStr.strip (Sheet.text (Sheet.col1 row)) in
                           let ash := PyStr.strip (Sheet.text (Sheet.col2 row)) in
                           if PyStr.startswith case "R" && PyStr.in_list ash valid_decisions
                           then <[case := ash]> acc else acc) rows m)
                <= size m + length rows)%nat).
    { induction rows as [|row rows IH]; intro m; [cbn; lia|].
      cbn [fold_left length]. etransitivity; [apply IH|].
      destruct (PyStr.startswith _ _ && PyStr.in_list _ _); [|lia].
      destruct (m !! PyStr.strip (Sheet.text (Sheet.col1 row))) eqn:El.
      - rewrite map_size_insert_Some by (rewrite El; now eexists). lia.
      - rewrite map_size_insert_None by assumption. lia. }
    specialize (Hgen agreement ∅). now rewrite map_size_empty in Hgen.
Qed.

Lemma ash_decisions_of_steps (agreement : list Sheet.row) :
  ash_decisions_of agreement = fold_left builder_step agreement ∅.
Proof.
  unfold ash_decisions_of. generalize (∅ : gmap string string).
  induction agreement as [|row rows IH]; intro m; [reflexivity|].
  cbn [fold_left]. rewrite IH. f_equal.
  unfold builder_step, builder_entry. now destruct (_ && _).
Qed.

Lemma builder_step_dom (m : gmap string string) (row : Sheet.row) :
  dom m ⊆ dom (builder_step m row).
Proof.
  unfold builder_step. destruct (builder_entry row) as [[k v]|]; [|set_solver].
  rewrite dom_insert. set_solver.
Qed.

(** X18 (load_excel_data of the verifier against the loop of the builder,
    on the same sheet): every id of the reference of the verifier is a key
    of the decision mapping of the builder.  The verifier reads the cells
    as they are and leaves out the header and group rows; the builder
    strips the cells and leaves out nothing that starts with R. *)
Theorem reference_within_mapping (agreement : list Sheet.row) :
  dom (Verifier.load_excel_data agreement) ⊆ dom (ash_decisions_of agreement).
Proof.
  rewrite ash_decisions_of_steps. unfold Verifier.load_excel_data.
  match goal with
  | |- dom (fold_left ?fv _ _) ⊆ _ =>
      assert (Hgen : forall rows m1 m2,
                 dom m1 ⊆ dom m2 ->
                 dom (fold_left fv rows m1) ⊆ dom (fold_left builder_step rows m2))
  end.
  { induction rows as [|row rows IH]; intros m1 m2 Hdom; [exact Hdom|].
    cbn [fold_left]. apply IH.
    pose proof (builder_step_dom m2 row) as Hmono.
    assert (Hskip : dom m1 ⊆ dom (builder_step m2 row))
      by (etransitivity; eassumption).
    destruct (PyStr.in_list (Sheet.text (Sheet.col1 row)) Verifier.header_cases);
      [exact Hskip|].
    destruct (existsb _ Verifier.group_names); [exact Hskip|].
    destruct (negb _ && PyStr.startswith (Sheet.text (Sheet.col1 row)) "R") eqn:E1;
      [|exact Hskip].
    destruct (PyStr.in_list (Sheet.text (Sheet.col2 row)) _) eqn:E2; [|exact Hskip].
    clear Hskip Hmono.
    apply andb_true_iff in E1. destruct E1 as [_ E1].
    unfold builder_step, builder_entry. cbv zeta.
    rewrite (strip_keeps_R _ E1), (strip_valid _ E2).
    change (PyStr.in_list (Sheet.text (Sheet.col2 row)) valid_decisions)
      with (PyStr.in_list (Sheet.text (Sheet.col2 row)) ["NoRx"; "Test"; "Rx"]).
    rewrite E2. cbn [andb]. rewrite !dom_insert. now apply union_mono_l. }
  apply Hgen. set_solver.
Qed.

End SheetFacts.

(* ===================================================================== *)
(** * Further facts: the counts by group of the builder *)
(* ===================================================================== *)

Module CountFacts.
Import Builder Notions DictFacts.

Lemma ltb_flip (g g' : string) :
  String.eqb g g' = false -> String.ltb g g' = false -> String.ltb g' g = true.
Proof.
  unfold String.ltb. intros Hne Hlt.
  rewrite (String.compare_antisym g g') in Hlt.
  destruct (String.compare g' g) eqn:E; cbn in Hlt; try reflexivity; try discriminate.
  apply String.compare_eq_iff in E. subst. rewrite String.eqb_refl in Hne. discriminate.
Qed.

Lemma count_into_head (g : string) (counts : list (string * nat)) (x : string * nat) :
  HdRel name_lt x counts -> String.ltb (fst x) g = true ->
  HdRel name_lt x (count_into g counts).
Proof.
  intros Hhd Hx. destruct counts as [|[g' c] rest]; cbn [count_into].
  - now constructor.
  - apply HdRel_inv in Hhd.
    destruct (String.eqb g g'); [now constructor|].
    destruct (String.ltb g g'); now constructor.
Qed.

Lemma count_into_sorted (g : string) (counts : list (string * nat)) :
  Sorted name_lt counts -> Sorted name_lt (count_into g counts).
Proof.
  induction 1 as [|[g' c] rest Hs IH Hhd]; cbn [count_into].
  - repeat constructor.
  - destruct (String.eqb g g') eqn:E1.
    + constructor; [assumption|].
      destruct rest as [|y rest]; constructor. now apply HdRel_inv in Hhd.
    + destruct (String.ltb g g') eqn:E2.
      * constructor; [now constructor|]. now constructor.
      * constructor; [assumption|].
        apply count_into_head; [assumption|]. now apply ltb_flip.
Qed.

Lemma count_into_sum (g : string) (counts : list (string * nat)) :
  list_sum (map snd (count_into g counts)) = S (list_sum (map snd counts)).
Proof.
  induction counts as [|[g' c] rest IH]; [reflexivity|].
  cbn [count_into]. destruct (String.eqb g g'); [reflexivity|].
  destruct (String.ltb g g'); [reflexivity|].
  cbn [map snd]. rewrite !list_sum_cons, IH. lia.
Qed.

Lemma count_into_positive (g : string) (counts : list (string * nat)) :
  Forall (fun gc => 0 < snd gc)%nat counts ->
  Forall (fun gc => 0 < snd gc)%nat (count_into g counts).
Proof.
  induction 1 as [|[g' c] rest Hc Hall IH]; cbn [count_into].
  - repeat constructor.
  - destruct (String.eqb g g'); [constructor; [cbn; lia | assumption]|].
    destruct (String.ltb g g'); repeat constructor; assumption.
Qed.

Lemma count_into_names (g : string) (counts : list (string * nat)) (names : list string) :
  Forall (fun gc => In (fst gc) names) counts ->
  Forall (fun gc => In (fst gc) (g :: names)) (count_into g counts).
Proof.
  induction 1 as [|[g' c] rest Hc Hall IH]; cbn [count_into].
  - repeat constructor.
  - assert (Hall' : Forall (fun gc => In (fst gc) (g :: names)) rest)
      by (eapply List.Forall_impl; [|exact Hall]; intros ? ?; now right).
    destruct (String.eqb g g'); [constructor; [now right | assumption]|].
    destruct (String.ltb g g').
    + constructor; [now left|]. constructor; [now right | assumption].
    + constructor; [now right | assumption].
Qed.

(** X19 (generate_complete_data.py, the Counter by group printed in sorted
    order): for every list of records, the printed lines are in strictly
    increasing order of the group name, so no group is printed twice; the
    counts add up to the number of records; and every line has a positive
    count and the group of some record. *)
Theorem group_counts_sound (recs : list recommendation) :
  Sorted name_lt (sorted_group_counts recs)
  /\ list_sum (map snd (sorted_group_counts recs)) = length recs
  /\ Forall (fun gc => (0 < snd gc)%nat /\ In (fst gc) (map group recs))
            (sorted_group_counts recs).
Proof.
  unfold sorted_group_counts.
  assert (Hgen : forall (rs done : list recommendation) (counts : list (string * nat)),
             Sorted name_lt counts ->
             list_sum (map snd counts) = length done ->
             Forall (fun gc => (0 < snd gc)%nat /\ In (fst gc) (map group done)) counts ->
             let final := fold_left (fun counts r => count_into (group r) counts) rs counts in
             Sorted name_lt final
             /\ list_sum (map snd final) = length (done ++ rs)%list
             /\ Forall (fun gc => (0 < snd gc)%nat /\ In (fst gc) (map group (done ++ rs)%list))
                       final).
  { induction rs as [|r rs IH]; intros done counts Hs Hsum Hall; cbv zeta.
    - rewrite app_nil_r. now repeat split.
    - cbn [fold_left].
      replace (done ++ r :: rs)%list with ((done ++ [r]) ++ rs)%list
        by (now rewrite <- app_assoc).
      apply IH.
      + now apply count_into_sorted.
      + rewrite count_into_sum, Hsum, length_app. cbn. lia.
      + apply List.Forall_and.
        * apply count_into_positive. eapply List.Forall_impl; [|exact Hall]. now intros ? [? ?].
        * assert (Hn : Forall (fun gc => In (fst gc) (map group done)) counts)
            by (eapply List.Forall_impl; [|exact Hall]; now intros ? [? ?]).
          apply (count_into_names (group r)) in Hn.
          eapply List.Forall_impl; [|exact Hn]. intros gc Hin. cbn beta in *.
          rewrite map_app, in_app_iff. cbn. destruct Hin as [<- | Hin]; tauto. }
  apply (Hgen recs [] []); [constructor | reflexivity | constructor].
Qed.

End CountFacts.

(* ===================================================================== *)
(** * Further facts: what a run of the builder prints and writes *)
(* ===================================================================== *)

Module RunFacts.
Import Builder Notions.

Lemma filter_agree {X : Type} (P Q : X -> Prop)
      `{!forall x, Decision (P x)} `{!forall x, Decision (Q x)} (l : list X) :
  Forall (fun x => P x <-> Q x) l -> filter P l = filter Q l.
Proof.
  induction 1 as [|x l Hx Hall IH]; [reflexivity|].
  rewrite !filter_cons, IH.
  destruct (decide (P x)), (decide (Q x)); tauto.
Qed.

(** The ids the script lists as missing are those the sheet gave no
    decision for. *)
Lemma missing_are_absent (agreement : list Sheet.row) :
  map id (filter (fun r => String.eqb (ashDecision r) "Unknown")
                 (recommendations (ash_decisions_of agreement)))
  = absent_ids (ash_decisions_of agreement)
               (recommendations (ash_decisions_of agreement)).
Proof.
  unfold absent_ids. f_equal. apply filter_agree.
  apply List.Forall_forall. intros r Hin.
  apply BuilderFacts.in_recommendations in Hin. destruct Hin as [r0 [_ ->]].
  cbn [ashDecision id Catalog.with_decision]. unfold get_decision.
  destruct (ash_decisions_of agreement !! id r0) as [d|] eqn:E.
  - apply BuilderFacts.ash_decisions_valid in E. cbn in E.
    destruct E as [<- | [<- | [<- | []]]]; cbn; split; intro H;
      try discriminate H; destruct H.
  - cbn. tauto.
Qed.

(** X24 (generate_complete_data.py, lines 33 and 207-256): everything a run
    of the builder prints and writes, for every Agreement sheet.  The run
    prints the number of decisions read, the count 69 above the line
    "Expected: 69", and the four groups with 20, 16, 21 and 12 records;
    it prints the line of the missing decisions exactly when the sheet
    gave no decision for some id of the catalog, and the line lists those
    ids in the order of the catalog; then it writes the 69 records to
    complete_recommendations.json and to data.js, in that order.  The
    count is compared with nothing: the same two files are written in
    every run. *)
Theorem builder_run_output (agreement : list Sheet.row) :
  let ash_decisions := ash_decisions_of agreement in
  let recs := recommendations ash_decisions in
  effects (main agreement)
  = ([ Stdout ("Loaded " ++ PyStr.of_N (N.of_nat (size ash_decisions))
               ++ " ASH decisions");
       Stdout (Py.nl ++ "Total recommendations generated: 69");
       Stdout "Expected: 69";
       Stdout (Py.nl ++ "By group:");
       Stdout "  R1-R10: 20";
       Stdout "  R11-R14: 16";
       Stdout "  R15-R20: 21";
       Stdout "  R21-R23: 12" ]
     ++ match absent_ids ash_decisions recs with
        | [] => []
        | missing =>
            [ Stdout (Py.nl ++ "Missing ASH decisions for: " ++ repr_list missing) ]
        end
     ++ [ FileWrite "complete_recommendations.json"
            (Json.dumps 2 (map to_object recs));
          Stdout (Py.nl ++ "Saved to complete_recommendations.json");
          FileWrite "../data.js" (js_content recs);
          Stdout "Generated ../data.js" ])%list
  /\ length recs = 69%nat
  /\ files_written (main agreement)
     = ["complete_recommendations.json"; "../data.js"].
Proof.
  cbv zeta. split; [|split].
  - unfold main, finish. cbn [effects raised]. unfold report_and_save.
    rewrite (proj1 (BuilderFacts.counts_fixed _)).
    rewrite (proj1 (proj2 (BuilderFacts.counts_fixed _))).
    rewrite missing_are_absent.
    destruct (absent_ids _ _); reflexivity.
  - exact (proj1 (BuilderFacts.counts_fixed _)).
  - rewrite <- (BuilderFacts.files_written_finish
                  (recommendations (ash_decisions_of agreement))).
    reflexivity.
Qed.

End RunFacts.

(* ===================================================================== *)
(** * Further facts: the loader of data.js, and the two scripts in a row *)
(* ===================================================================== *)

Module LoaderFacts.
Import Re TextProps Verifier RoundTripFacts DictFacts.

Lemma contains_false_suffix (p s t : string) :
  PyStr.contains p s = false -> Suffix t s -> String.prefix p t = false.
Proof.
  intros Hc [a ->]. induction a as [|c a IH].
  - rewrite StringFacts.app_nil_l in Hc. destruct t; cbn in Hc;
      now apply orb_false_iff in Hc.
  - rewrite StringFacts.app_cons in Hc. cbn [PyStr.contains] in Hc.
    apply orb_false_iff in Hc. now apply IH.
Qed.

Lemma run_lit_no_prefix {A : Type} (l : string) :
  forall t pos g (k : @cont A),
    String.prefix l t = false -> run (Lit l) t pos g k = None.
Proof.
  induction l as [|a l IH]; intros t pos g k Hp.
  - destruct t; discriminate.
  - destruct t as [|b t]; [reflexivity|]. cbn [Lit run]. cbn in Hp.
    destruct (ascii_dec a b) as [<- | N].
    + rewrite Ascii.eqb_refl. now apply IH.
    + apply Ascii.eqb_neq in N. now rewrite N.
Qed.

Lemma run_lit_snoc {A : Type} (l : string) (c : ascii) (r : regex) :
  forall t pos g (k : @cont A),
    run (Cat (Lit l) (Cat (Chr c) r)) t pos g k
    = run (Cat (Lit (l ++ String c EmptyString)) r) t pos g k.
Proof.
  induction l as [|a l IH]; intros t pos g k.
  - rewrite StringFacts.app_nil_l. reflexivity.
  - rewrite StringFacts.app_cons. cbn [Lit].
    change (run (Cat (Cat (Chr a) (Lit l)) (Cat (Chr c) r)) t pos g k)
      with (run (Chr a) t pos g
              (fun s' pos' g' => run (Cat (Lit l) (Cat (Chr c) r)) s' pos' g' k)).
    change (run (Cat (Cat (Chr a) (Lit (l ++ String c EmptyString))) r) t pos g k)
      with (run (Chr a) t pos g
              (fun s' pos' g' =>
                 run (Cat (Lit (l ++ String c EmptyString)) r) s' pos' g' k)).
    cbn [run]. destruct t as [|b t]; [reflexivity|].
    destruct (Ascii.eqb a b); [apply IH | reflexivity].
Qed.

(** X20 (load_js_data): a file that does not contain the text
    const RECOMMENDATIONS = [ anywhere makes the loader raise ValueError
    with the message that the array could not be found; it returns no
    dict, not even an empty one. *)
Theorem load_js_data_no_array (content : string) :
  PyStr.contains "const RECOMMENDATIONS = [" content = false ->
  load_js_data content
  = inl (Py.ValueError "Could not find RECOMMENDATIONS array in data.js").
Proof.
  intro Hc. unfold load_js_data, search.
  rewrite ReFacts.search_from_none; [reflexivity|].
  intros t pos Ht. unfold match_at, array_pattern, seq. cbn [fold_right].
  rewrite run_lit_snoc, (run_cat (Lit _)).
  apply run_lit_no_prefix.
  now apply (contains_false_suffix _ content).
Qed.

Lemma load_js_data_no_array_witness :
  load_js_data "const RECOMMENDATIONS = {};"
  = inl (Py.ValueError "Could not find RECOMMENDATIONS array in data.js").
Proof.
  apply load_js_data_no_array. reflexivity.
Defined.

Lemma collect_nodup (ms : list rmatch) :
  forall (d d' : Dict.t JsRec.t),
    List.NoDup (Dict.keys d) -> collect ms d = inr d' -> List.NoDup (Dict.keys d').
Proof.
  induction ms as [|mt ms IH]; intros d d' Hnd Hc; cbn [collect] in Hc.
  - now injection Hc as <-.
  - destruct (group mt 1), (group mt 2), (group mt 3); try discriminate.
    destruct (float_of_string _); [|discriminate].
    eapply IH; [|exact Hc]. now apply set_keys_nodup.
Qed.

(** X21 (load_js_data): whenever the loader returns, the ids of the dict
    it returns are pairwise distinct: a record whose id was seen before
    replaces the earlier one in place. *)
Theorem load_js_data_distinct_ids (content : string) (js_data : Dict.t JsRec.t) :
  load_js_data content = inr js_data ->
  List.NoDup (Dict.keys js_data).
Proof.
  unfold load_js_data. destruct (search array_pattern content); [|discriminate].
  destruct (group _ 1); [|discriminate].
  apply collect_nodup. constructor.
Qed.

Lemma load_js_data_distinct_ids_witness :
  List.NoDup
    (Dict.keys [ ("R1 low", JsRec.Mk "Rx" 0.10%Q); ("R15", JsRec.Mk "NoRx" 0.00035%Q) ]).
Proof.
  apply (load_js_data_distinct_ids Samples.literal_data_js).
  vm_compute. reflexivity.
Defined.

End LoaderFacts.

Module PipelineFacts.
Import Re TextProps Verifier RoundTripFacts.

(** X22 (main): when the sheet cannot be read, or data.js cannot be read,
    or the loader of data.js raises, the run goes on with an empty dict on
    that side: there is no result, the total is 0, the accuracy line is
    the N/A branch, and the report says that all recommendations match. *)
Theorem failed_load_zero_comparisons (sheet : option (list Sheet.row))
        (file : option string) :
  sheet = None \/ file = None
  \/ (exists content e, file = Some content /\ load_js_data content = inl e) ->
  main_results sheet file = []
  /\ total (main_results sheet file) = 0%nat
  /\ accuracy (main_results sheet file) = None
  /\ mismatch_report (main_results sheet file)
     = [check_mark ++ " All recommendations match!"].
Proof.
  intro Hfail.
  assert (Hnil : main_results sheet file = []).
  { unfold main_results. destruct Hfail as [-> | [-> | (content & e & -> & He)]].
    - apply CompareFacts.compare_empty_reference.
    - reflexivity.
    - unfold js_data_or_empty. rewrite He. reflexivity. }
  rewrite Hnil. repeat split.
Qed.

Lemma failed_load_zero_comparisons_witness :
  main_results (Some []) (Some "no array here") = []
  /\ total (main_results (Some []) (Some "no array here")) = 0%nat
  /\ accuracy (main_results (Some []) (Some "no array here")) = None
  /\ mismatch_report (main_results (Some []) (Some "no array here"))
     = [check_mark ++ " All recommendations match!"].
Proof.
  apply failed_load_zero_comparisons.
  right; right. eexists. eexists. split; [reflexivity|]. vm_compute. reflexivity.
Defined.

(** The file written by the builder, read by the loader of the verifier:
    the array is found and no record in it. *)
Lemma artifact_read_back (agreement : list Sheet.row) :
  load_js_data
    (Builder.js_content
       (Builder.recommendations (Builder.ash_decisions_of agreement)))
  = inr Dict.empty.
Proof.
  pose proof (built_array_quoted agreement) as Hcq.
  rewrite (BuilderFacts.recommendations_shape (Builder.ash_decisions_of agreement)) in *.
  unfold Catalog.skeleton in *.
  destruct (Builder.recommendations ∅) as [|r0 skel] eqn:Eskel; [discriminate|].
  cbn [map] in *. rewrite js_content_split.
  unfold load_js_data, search.
  rewrite (search_skips _ _ comment_never_starts).
  match goal with
  | |- context [search_from array_pattern (_ ++ String "[" (?inner ++ _)) ?p] =>
      destruct (array_pattern_match inner Artifact.after_semicolon p)
        as (mt & a & t & Hm & Hg & Hs)
  end.
  match goal with
  | |- context [search_from array_pattern ?T ?p] =>
      replace (search_from array_pattern T p) with (Some mt)
        by (destruct T; cbn [search_from]; now rewrite Hm)
  end.
  unfold group. rewrite Hg.
  rewrite finditer_rec_pattern_nil; [reflexivity|].
  apply (TextFacts.cq_any false).
  apply (TextFacts.cq_prefix false a t). rewrite <- Hs. exact Hcq.
Qed.

(** X23 (main of the verifier on the data.js written by main of the
    builder, for every Agreement sheet): the verifier compares nothing.
    Its list of results is empty, the accuracy line is the N/A branch, the
    report says that all recommendations match, and every tally of the
    chart is zero. *)
Theorem verifier_after_builder (agreement : list Sheet.row) :
  main_results (Some agreement)
    (Some (Builder.js_content
             (Builder.recommendations (Builder.ash_decisions_of agreement))))
  = []
  /\ accuracy
       (main_results (Some agreement)
          (Some (Builder.js_content
                   (Builder.recommendations (Builder.ash_decisions_of agreement)))))
     = None
  /\ mismatch_report
       (main_results (Some agreement)
          (Some (Builder.js_content
                   (Builder.recommendations (Builder.ash_decisions_of agreement)))))
     = [check_mark ++ " All recommendations match!"]
  /\ chart_tallies
       (main_results (Some agreement)
          (Some (Builder.js_content
                   (Builder.recommendations (Builder.ash_decisions_of agreement)))))
     = Some chart_initial.
Proof.
  assert (Hnil : main_results (Some agreement)
                   (Some (Builder.js_content
                            (Builder.recommendations (Builder.ash_decisions_of agreement))))
                 = []).
  { unfold main_results, js_data_or_empty. now rewrite artifact_read_back. }
  rewrite Hnil. repeat split.
Qed.

End PipelineFacts.

(* ===================================================================== *)
(** * Further facts: the thresholds in float arithmetic *)
(* ===================================================================== *)

Module F64Facts.
Import F64.
Local Open Scope Q_scope.

Lemma pow2_pos (e : Z) : 0 < pow2 e.
Proof. apply Qpower_0_lt. reflexivity. Qed.

Lemma pow2_add (a b : Z) : pow2 (a + b) == pow2 a * pow2 b.
Proof. apply Qpower_plus. discriminate. Qed.

Lemma pow2_le (a b : Z) : (a <= b)%Z -> pow2 a <= pow2 b.
Proof. intro H. apply Qpower_le_compat_l; [assumption|]. unfold Qle; cbn; lia. Qed.

Lemma pow2_lt (a b : Z) : (a < b)%Z -> pow2 a < pow2 b.
Proof. intro H. apply Qpower_lt_compat_l; [assumption|]. reflexivity. Qed.

Lemma pow2_Z (e : Z) : (0 <= e)%Z -> pow2 e == inject_Z (2 ^ e).
Proof. intro H. unfold pow2. now rewrite Zpower_Qpower. Qed.

Lemma pow2_succ (e : Z) : pow2 (e + 1) == 2 * pow2 e.
Proof. rewrite pow2_add. change (pow2 1) with 2. ring. Qed.

Lemma pow2_pred (e : Z) : pow2 (e - 1) == pow2 e / 2.
Proof.
  assert (H : pow2 e == 2 * pow2 (e - 1)).
  { rewrite <- pow2_succ. now replace (e - 1 + 1)%Z with e by lia. }
  rewrite H. field.
Qed.

(** ** rne *)

Lemma rne_cases (y : Q) :
  (rne y = Qfloor y /\ y - inject_Z (Qfloor y) <= 1 # 2)
  \/ (rne y = (Qfloor y + 1)%Z /\ 1 # 2 <= y - inject_Z (Qfloor y)).
Proof.
  unfold rne. destruct (Qcompare_spec (y - inject_Z (Qfloor y)) (1 # 2)) as [E | L | G].
  - destruct (Z.even (Qfloor y)); [left | right]; split; try reflexivity; rewrite E; lra.
  - left. split; [reflexivity | lra].
  - right. split; [reflexivity | lra].
Qed.

Lemma rne_le (y : Q) : inject_Z (rne y) <= y + (1 # 2).
Proof.
  pose proof (Qfloor_le y) as Hf.
  destruct (rne_cases y) as [[-> H] | [-> H]].
  - lra.
  - rewrite inject_Z_plus. change (inject_Z 1) with 1. lra.
Qed.

Lemma rne_ge (y : Q) : y - (1 # 2) <= inject_Z (rne y).
Proof.
  pose proof (Qlt_floor y) as Hf. rewrite inject_Z_plus in Hf. change (inject_Z 1) with 1 in Hf.
  destruct (rne_cases y) as [[-> H] | [-> H]].
  - lra.
  - rewrite inject_Z_plus. change (inject_Z 1) with 1. lra.
Qed.

Lemma rne_Z (n : Z) : rne (inject_Z n) = n.
Proof.
  unfold rne. rewrite Qfloor_Z.
  destruct (Qcompare_spec (inject_Z n - inject_Z n) (1 # 2)) as [E | L | G].
  - exfalso. lra.
  - reflexivity.
  - exfalso. lra.
Qed.

Lemma inject_Z_lt_succ (a b : Z) : inject_Z a < inject_Z b + 1 -> (a <= b)%Z.
Proof.
  intro H. change 1 with (inject_Z 1) in H. rewrite <- inject_Z_plus in H.
  rewrite <- Zlt_Qlt in H. lia.
Qed.

Lemma rne_mono (y y' : Q) : y <= y' -> (rne y <= rne y')%Z.
Proof.
  intro Hle.
  pose proof (Qfloor_resp_le _ _ Hle) as Hfl.
  pose proof (Qfloor_le y) as F1. pose proof (Qfloor_le y') as F1'.
  destruct (Z.eq_dec (Qfloor y) (Qfloor y')) as [E | N].
  - unfold rne. rewrite <- E.
    destruct (Qcompare_spec (y - inject_Z (Qfloor y)) (1 # 2)) as [E1 | L1 | G1];
      destruct (Qcompare_spec (y' - inject_Z (Qfloor y)) (1 # 2)) as [E2 | L2 | G2];
      try (destruct (Z.even (Qfloor y)); lia); exfalso; lra.
  - assert (Hlt : (Qfloor y + 1 <= Qfloor y')%Z) by lia.
    destruct (rne_cases y) as [[-> _] | [-> _]];
      destruct (rne_cases y') as [[-> _] | [-> _]]; lia.
Qed.

Lemma rne_comp (y y' : Q) : y == y' -> rne y = rne y'.
Proof.
  intro E. apply Z.le_antisymm; apply rne_mono; rewrite E; apply Qle_refl.
Qed.

Lemma rne_near (n : Z) (y : Q) :
  inject_Z n - (1 # 2) < y < inject_Z n + (1 # 2) -> rne y = n.
Proof.
  intros [H1 H2].
  pose proof (rne_le y) as U. pose proof (rne_ge y) as L.
  assert (A : inject_Z (rne y) < inject_Z n + 1) by lra.
  assert (B : inject_Z n < inject_Z (rne y) + 1) by lra.
  apply inject_Z_lt_succ in A. apply inject_Z_lt_succ in B. lia.
Qed.


(** ** ilog2 *)

Lemma Q_num_den (x : Q) : x * inject_Z (Zpos (Qden x)) == inject_Z (Qnum x).
Proof. destruct x as [n d]. unfold Qeq. cbn. lia. Qed.

Lemma Z_log2_pow2 (n : Z) :
  (0 < n)%Z -> pow2 (Z.log2 n) <= inject_Z n < pow2 (Z.log2 n + 1).
Proof.
  intro Hn. pose proof (Z.log2_spec n Hn) as [L U].
  pose proof (Z.log2_nonneg n) as Hnn.
  rewrite !pow2_Z by lia. rewrite <- Zle_Qle, <- Zlt_Qlt.
  split; [exact L | now rewrite <- Z.add_1_r in U].
Qed.

Lemma scale_lt (x t p d n : Q) :
  0 < x -> 0 < p -> x * d == n -> p <= d -> n < t * p -> x < t.
Proof.
  intros Hx Hp Hd Hpd Hn.
  assert (H1 : x * p <= x * d) by nra.
  assert (H2 : (x - t) * p < 0) by lra.
  destruct (Qlt_le_dec x t) as [L | G]; [assumption|]. exfalso. nra.
Qed.

Lemma scale_gt (x t p d n : Q) :
  0 < x -> 0 < p -> x * d == n -> d < p -> t * p <= n -> t < x.
Proof.
  intros Hx Hp Hd Hpd Hn.
  assert (H1 : x * d < x * p) by nra.
  assert (H2 : (t - x) * p < 0) by lra.
  destruct (Qlt_le_dec t x) as [L | G]; [assumption|]. exfalso. nra.
Qed.

Lemma ilog2_spec (x : Q) :
  0 < x -> pow2 (ilog2 x) <= x < pow2 (ilog2 x + 1).
Proof.
  intro Hx.
  assert (Hn : (0 < Qnum x)%Z).
  { destruct x as [n d]. unfold Qlt in Hx. cbn in *. lia. }
  pose proof (Z_log2_pow2 _ Hn) as [Ln Un].
  pose proof (Z_log2_pow2 (Zpos (Qden x)) eq_refl) as [Ld Ud].
  pose proof (Q_num_den x) as Hxd.
  set (a := Z.log2 (Qnum x)) in *. set (b := Z.log2 (Zpos (Qden x))) in *.
  assert (Hup : x < pow2 (a - b + 1)).
  { apply (scale_lt x _ (pow2 b) _ _ Hx (pow2_pos b) Hxd Ld).
    rewrite <- pow2_add. now replace (a - b + 1 + b)%Z with (a + 1)%Z by lia. }
  assert (Hlo : pow2 (a - b - 1) < x).
  { apply (scale_gt x _ (pow2 (b + 1)) _ _ Hx (pow2_pos _) Hxd Ud).
    rewrite <- pow2_add. now replace (a - b - 1 + (b + 1))%Z with a by lia. }
  unfold ilog2. fold a b.
  destruct (Qle_bool (pow2 (a - b)) x) eqn:E.
  - apply Qle_bool_iff in E. now split.
  - assert (Hlt : x < pow2 (a - b)).
    { apply Qnot_le_lt. intro H. apply Qle_bool_iff in H. congruence. }
    split; [now apply Qlt_le_weak|].
    now replace (a - b - 1 + 1)%Z with (a - b)%Z by lia.
Qed.

Lemma ilog2_unique (x : Q) (k : Z) :
  pow2 k <= x < pow2 (k + 1) -> ilog2 x = k.
Proof.
  intros [L U].
  assert (Hx : 0 < x) by (pose proof (pow2_pos k); lra).
  destruct (ilog2_spec x Hx) as [L' U'].
  destruct (Z.lt_trichotomy (ilog2 x) k) as [H | [H | H]]; [|assumption|].
  - exfalso. assert (pow2 (ilog2 x + 1) <= pow2 k) by (apply pow2_le; lia). lra.
  - exfalso. assert (pow2 (k + 1) <= pow2 (ilog2 x)) by (apply pow2_le; lia). lra.
Qed.

Lemma ilog2_mono (x y : Q) : 0 < x -> x <= y -> (ilog2 x <= ilog2 y)%Z.
Proof.
  intros Hx Hle.
  destruct (ilog2_spec x Hx) as [L U].
  destruct (ilog2_spec y) as [L' U']; [lra|].
  destruct (Z_lt_le_dec (ilog2 y) (ilog2 x)) as [H | H]; [|assumption].
  exfalso. assert (pow2 (ilog2 y + 1) <= pow2 (ilog2 x)) by (apply pow2_le; lia). lra.
Qed.

Lemma ilog2_comp (x y : Q) : 0 < x -> x == y -> ilog2 x = ilog2 y.
Proof.
  intros Hx E. symmetry. apply ilog2_unique.
  destruct (ilog2_spec x Hx) as [L U]. rewrite <- E. now split.
Qed.


(** ** round *)

Lemma fexp_pos (x : Q) : 0 < x -> fexp x = Z.max (ilog2 x - 52) (-1074).
Proof.
  intro Hx. unfold fexp.
  assert (E : Qabs x == x) by (apply Qabs_pos; lra).
  rewrite (ilog2_comp (Qabs x) x); [reflexivity | lra | exact E].
Qed.

Lemma fexp_ge (x : Q) : (-1074 <= fexp x)%Z.
Proof. unfold fexp. lia. Qed.

Lemma fexp_mono (x y : Q) : 0 < x -> x <= y -> (fexp x <= fexp y)%Z.
Proof.
  intros Hx Hle. rewrite (fexp_pos x), (fexp_pos y) by lra.
  pose proof (ilog2_mono x y Hx Hle). lia.
Qed.

Lemma round_zero (x : Q) : x == 0 -> round x = 0.
Proof. intro E. unfold round. apply Qeq_eq_bool in E. now rewrite E. Qed.

Lemma round_pos (x : Q) :
  0 < x -> round x = inject_Z (rne (x / pow2 (fexp x))) * pow2 (fexp x).
Proof.
  intro Hx. unfold round. destruct (Qeq_bool x 0) eqn:E; [|reflexivity].
  apply Qeq_bool_eq in E. exfalso. lra.
Qed.

(** The quotient of a positive number by the unit of its last place is
    below [2^53]. *)
Lemma mantissa_lt (x : Q) : 0 < x -> x < inject_Z (2 ^ 53) * pow2 (fexp x).
Proof.
  intro Hx. destruct (ilog2_spec x Hx) as [_ U].
  rewrite <- pow2_Z, <- pow2_add by lia.
  eapply Qlt_le_trans; [exact U|]. apply pow2_le.
  rewrite (fexp_pos x Hx). lia.
Qed.

Lemma div_le (x p k : Q) : 0 < p -> x <= k * p -> x / p <= k.
Proof. intros Hp H. apply Qle_shift_div_r; assumption. Qed.

Lemma le_div (x p k : Q) : 0 < p -> k * p <= x -> k <= x / p.
Proof. intros Hp H. apply Qle_shift_div_l; assumption. Qed.

Lemma round_ub (x : Q) (k : Z) :
  0 < x -> x <= inject_Z k * pow2 (fexp x) ->
  round x <= inject_Z k * pow2 (fexp x).
Proof.
  intros Hx H. rewrite (round_pos x Hx).
  pose proof (pow2_pos (fexp x)) as Hp.
  apply Qmult_le_compat_r; [|lra].
  rewrite <- Zle_Qle. rewrite <- (rne_Z k). apply rne_mono.
  now apply div_le.
Qed.

Lemma round_lb (x : Q) (k : Z) :
  0 < x -> inject_Z k * pow2 (fexp x) <= x ->
  inject_Z k * pow2 (fexp x) <= round x.
Proof.
  intros Hx H. rewrite (round_pos x Hx).
  pose proof (pow2_pos (fexp x)) as Hp.
  apply Qmult_le_compat_r; [|lra].
  rewrite <- Zle_Qle. rewrite <- (rne_Z k) at 1. apply rne_mono.
  now apply le_div.
Qed.

Lemma round_nonneg (x : Q) : 0 <= x -> 0 <= round x.
Proof.
  intro Hx. destruct (Qeq_dec x 0) as [E | N].
  - rewrite (round_zero x E). apply Qle_refl.
  - assert (Hp : 0 < x).
    { apply Qle_lteq in Hx. destruct Hx as [L | E]; [assumption|].
      exfalso. apply N. now symmetry. }
    pose proof (round_lb x 0 Hp) as H.
    change (inject_Z 0) with 0 in H.
    assert (E0 : 0 * pow2 (fexp x) == 0) by ring.
    rewrite E0 in H. apply H. lra.
Qed.

Lemma round_mono_pos (x y : Q) : 0 < x -> x <= y -> round x <= round y.
Proof.
  intros Hx Hle. assert (Hy : 0 < y) by lra.
  pose proof (fexp_mono x y Hx Hle) as He.
  destruct (Z.eq_dec (fexp x) (fexp y)) as [E | N].
  - rewrite (round_pos x Hx), (round_pos y Hy), E.
    pose proof (pow2_pos (fexp y)) as Hp.
    apply Qmult_le_compat_r; [|lra].
    rewrite <- Zle_Qle. apply rne_mono.
    apply Qmult_le_compat_r; [assumption|].
    apply Qlt_le_weak. now apply Qinv_lt_0_compat.
  - assert (Hlt : (fexp x + 1 <= fexp y)%Z) by lia.
    assert (Hey : fexp y = (ilog2 y - 52)%Z).
    { rewrite (fexp_pos y Hy) in *. pose proof (fexp_ge x). lia. }
    apply Qle_trans with (inject_Z (2 ^ 53) * pow2 (fexp x)).
    + apply round_ub; [assumption|]. apply Qlt_le_weak. now apply mantissa_lt.
    + apply Qle_trans with (inject_Z (2 ^ 52) * pow2 (fexp y)).
      * rewrite <- !pow2_Z, <- !pow2_add by lia. apply pow2_le. lia.
      * apply round_lb; [assumption|].
        rewrite <- pow2_Z, <- pow2_add by lia.
        destruct (ilog2_spec y Hy) as [L _].
        eapply Qle_trans; [|exact L]. apply pow2_le. lia.
Qed.

Lemma zero_or_pos (x : Q) : 0 <= x -> x == 0 \/ 0 < x.
Proof.
  intro Hx. apply Qle_lteq in Hx. destruct Hx as [L | E]; [now right | left; now symmetry].
Qed.

Lemma round_mono (x y : Q) : 0 <= x -> x <= y -> round x <= round y.
Proof.
  intros Hx Hle. destruct (zero_or_pos x Hx) as [E | P].
  - rewrite (round_zero x E). apply round_nonneg. lra.
  - now apply round_mono_pos.
Qed.

Lemma round_comp (x y : Q) : 0 <= x -> x == y -> round x == round y.
Proof.
  intros Hx E. apply Qle_antisym; apply round_mono; lra.
Qed.

(** A number [k * 2^e] with [k] below [2^53] and [e] not below the least
    exponent is a float. *)
Lemma float_repr (y : Q) (k e : Z) :
  (0 < k < 2 ^ 53)%Z -> (-1074 <= e)%Z ->
  y == inject_Z k * pow2 e -> round y == y.
Proof.
  intros [Hk0 Hk1] He Ey.
  pose proof (pow2_pos e) as Hpe.
  assert (Hk : 0 < inject_Z k) by (rewrite <- (Zlt_Qlt 0); assumption).
  assert (Hy : 0 < y) by (rewrite Ey; now apply Qmult_lt_0_compat).
  assert (Hlog : ilog2 y = (Z.log2 k + e)%Z).
  { apply ilog2_unique. destruct (Z_log2_pow2 k Hk0) as [L U].
    rewrite Ey. replace (Z.log2 k + e + 1)%Z with (Z.log2 k + 1 + e)%Z by lia.
    rewrite (pow2_add (Z.log2 k) e), (pow2_add (Z.log2 k + 1) e). split.
    - apply Qmult_le_compat_r; [assumption | lra].
    - apply Qmult_lt_compat_r; assumption. }
  assert (Hl : (Z.log2 k < 53)%Z) by (apply Z.log2_lt_pow2; lia).
  assert (Hfe : (fexp y <= e)%Z) by (rewrite (fexp_pos y Hy), Hlog; lia).
  rewrite (round_pos y Hy).
  set (f := fexp y) in *.
  set (s := (e - f)%Z).
  assert (Hs : (0 <= s)%Z) by (unfold s; lia).
  assert (Hpe' : pow2 e == pow2 s * pow2 f)
    by (rewrite <- pow2_add; now replace (s + f)%Z with e by (unfold s; lia)).
  pose proof (pow2_pos f) as Hpf.
  assert (Hq : y / pow2 f == inject_Z (k * 2 ^ s)).
  { rewrite Ey, Hpe', inject_Z_mult, <- pow2_Z by assumption.
    field. lra. }
  rewrite (rne_comp _ _ Hq), rne_Z.
  rewrite inject_Z_mult, <- pow2_Z by assumption.
  rewrite Ey, Hpe'. ring.
Qed.

Lemma float_repr_le (y : Q) (k e : Z) :
  (0 <= k <= 2 ^ 53)%Z -> (-1074 <= e)%Z ->
  y == inject_Z k * pow2 e -> round y == y.
Proof.
  intros [Hk0 Hk1] He Ey.
  destruct (Z.eq_dec k 0%Z) as [-> | N0].
  - assert (E0 : y == 0) by (rewrite Ey; change (inject_Z 0) with 0; ring).
    rewrite (round_zero y E0). now symmetry.
  - destruct (Z.eq_dec k (2 ^ 53)%Z) as [-> | N1].
    + apply (float_repr y (2 ^ 52) (e + 1)); [lia | lia |].
      rewrite Ey, pow2_succ.
      change (inject_Z (2 ^ 53)) with (2 * inject_Z (2 ^ 52)). ring.
    + apply (float_repr y k e); [lia | assumption | assumption].
Qed.

Lemma round_idem (x : Q) : 0 <= x -> is_float (round x).
Proof.
  intro Hx. unfold is_float. destruct (zero_or_pos x Hx) as [E | P].
  - rewrite (round_zero x E). reflexivity.
  - apply (float_repr_le _ (rne (x / pow2 (fexp x))) (fexp x)).
    + pose proof (pow2_pos (fexp x)) as Hp. split.
      * rewrite <- (rne_Z 0). apply rne_mono.
        apply Qlt_le_weak. apply Qlt_shift_div_l; [assumption|].
        now rewrite Qmult_0_l.
      * rewrite <- (rne_Z (2 ^ 53)). apply rne_mono.
        apply div_le; [assumption|]. apply Qlt_le_weak. now apply mantissa_lt.
    + apply fexp_ge.
    + now rewrite (round_pos x P).
Qed.


(** ** Floats about one *)

Lemma pow2_m52 : pow2 (-52) == 1 # 4503599627370496.
Proof. vm_compute. reflexivity. Qed.

Lemma pow2_m53 : pow2 (-53) == 1 # 9007199254740992.
Proof. vm_compute. reflexivity. Qed.

Lemma pow2_m1 : pow2 (-1) == 1 # 2.
Proof. vm_compute. reflexivity. Qed.

Lemma round_one : round 1 == 1.
Proof. vm_compute. reflexivity. Qed.

Lemma round_below_one : round (1 - (1 # 18014398509481984)) == 1.
Proof. vm_compute. reflexivity. Qed.

Lemma round_above_one : round (1 + (1 # 18014398509481984)) == 1.
Proof. vm_compute. reflexivity. Qed.

Lemma fexp_half_one (y : Q) : 1 # 2 <= y -> y < 1 -> fexp y = (-53)%Z.
Proof.
  intros L U. rewrite fexp_pos by lra.
  rewrite (ilog2_unique y (-1)); [reflexivity|].
  rewrite pow2_m1. change (pow2 (-1 + 1)) with 1. now split.
Qed.

(** The error of rounding, in units of the last place. *)
Lemma round_le_half (z : Q) :
  0 < z -> round z <= z + pow2 (fexp z) * (1 # 2).
Proof.
  intro Hz. rewrite (round_pos z Hz).
  pose proof (pow2_pos (fexp z)) as Hp.
  pose proof (rne_le (z / pow2 (fexp z))) as H.
  apply (Qmult_le_compat_r _ _ (pow2 (fexp z))) in H; [|lra].
  eapply Qle_trans; [exact H|].
  assert (E : (z / pow2 (fexp z) + (1 # 2)) * pow2 (fexp z)
              == z + pow2 (fexp z) * (1 # 2)) by (field; lra).
  rewrite E. apply Qle_refl.
Qed.

Lemma round_ge_half (z : Q) :
  0 < z -> z - pow2 (fexp z) * (1 # 2) <= round z.
Proof.
  intro Hz. rewrite (round_pos z Hz).
  pose proof (pow2_pos (fexp z)) as Hp.
  pose proof (rne_ge (z / pow2 (fexp z))) as H.
  apply (Qmult_le_compat_r _ _ (pow2 (fexp z))) in H; [|lra].
  eapply Qle_trans; [|exact H].
  assert (E : (z / pow2 (fexp z) - (1 # 2)) * pow2 (fexp z)
              == z - pow2 (fexp z) * (1 # 2)) by (field; lra).
  rewrite E. apply Qle_refl.
Qed.

(** Between one half and one the floats are [2^-53] apart. *)
Lemma round_near_one (y : Q) :
  1 # 2 <= y <= 1 ->
  y - (1 # 18014398509481984) <= round y <= y + (1 # 18014398509481984).
Proof.
  intros [L U]. destruct (Qlt_le_dec y 1) as [Hlt | Hge].
  - pose proof (round_le_half y) as H1. pose proof (round_ge_half y) as H2.
    rewrite (fexp_half_one y L Hlt), pow2_m53 in H1, H2.
    split; [eapply Qle_trans; [|apply H2; lra] | eapply Qle_trans; [apply H1; lra|]];
      lra.
  - assert (E : y == 1) by lra.
    pose proof (round_comp y 1) as Hc. rewrite round_one in Hc.
    rewrite Hc by lra. lra.
Qed.

(** A float between one half and one has its complement to one among the
    floats. *)
Lemma complement_float (t : Q) :
  is_float t -> 1 # 2 <= t <= 1 -> is_float (1 - t).
Proof.
  intros Ht [L U]. unfold is_float in *.
  destruct (Qlt_le_dec t 1) as [Hlt | Hge].
  - rewrite (round_pos t) in Ht by lra.
    rewrite (fexp_half_one t L Hlt) in Ht.
    set (k := rne (t / pow2 (-53))) in *.
    assert (Hk : inject_Z k == t * inject_Z (2 ^ 53)).
    { rewrite <- Ht, pow2_m53. change (inject_Z (2 ^ 53)) with 9007199254740992.
      field. }
    assert (Hk0 : (0 <= k)%Z).
    { rewrite (Zle_Qle 0 k), Hk. change (inject_Z 0) with 0.
      change (inject_Z (2 ^ 53)) with 9007199254740992. lra. }
    assert (Hk1 : (k <= 2 ^ 53)%Z).
    { rewrite (Zle_Qle k), Hk.
      change (inject_Z (2 ^ 53)) with 9007199254740992. lra. }
    apply (float_repr_le _ (2 ^ 53 - k) (-53)); [lia | lia |].
    unfold Zminus. rewrite inject_Z_plus, inject_Z_opp, Hk, pow2_m53.
    change (inject_Z (2 ^ 53)) with 9007199254740992. field.
  - assert (E : 1 - t == 0) by lra.
    rewrite (round_zero _ E). now symmetry.
Qed.

(** A number below the middle of a float [r >= 1] and its successor is
    not rounded above [r]. *)
Lemma round_below_middle (r x : Q) :
  is_float r -> 1 <= r -> 0 <= x ->
  x < r + pow2 (fexp r) * (1 # 2) -> round x <= r.
Proof.
  intros Hr H1 Hx Hlt. unfold is_float in Hr.
  destruct (Qlt_le_dec r x) as [Hgt | Hle].
  - assert (Hr0 : 0 < r) by lra.
    assert (Hlog : (0 <= ilog2 r)%Z).
    { change 0%Z with (ilog2 1). apply ilog2_mono; lra. }
    assert (Hfe : fexp r = (ilog2 r - 52)%Z) by (rewrite (fexp_pos r Hr0); lia).
    pose proof (pow2_pos (fexp r)) as Hw.
    rewrite (round_pos r Hr0) in Hr.
    set (k := rne (r / pow2 (fexp r))) in *.
    set (w := pow2 (fexp r)) in *.
    destruct (ilog2_spec r Hr0) as [Lr Ur].
    assert (Hpw : pow2 (ilog2 r + 1) == inject_Z (2 ^ 53) * w).
    { unfold w. rewrite Hfe, <- pow2_Z, <- pow2_add by lia.
      now replace (53 + (ilog2 r - 52))%Z with (ilog2 r + 1)%Z by lia. }
    assert (Hk : (k + 1 <= 2 ^ 53)%Z).
    { assert (Hkw : inject_Z k * w < inject_Z (2 ^ 53) * w) by (rewrite Hr, <- Hpw; exact Ur).
      assert (Hk' : inject_Z k < inject_Z (2 ^ 53)).
      { destruct (Qlt_le_dec (inject_Z k) (inject_Z (2 ^ 53))) as [A | B]; [assumption|].
        exfalso. assert (inject_Z (2 ^ 53) * w <= inject_Z k * w) by nra. lra. }
      rewrite <- Zlt_Qlt in Hk'. lia. }
    assert (Hk1 : inject_Z (k + 1) * w <= inject_Z (2 ^ 53) * w).
    { apply Qmult_le_compat_r; [|lra]. now rewrite <- Zle_Qle. }
    rewrite inject_Z_plus in Hk1. change (inject_Z 1) with 1 in Hk1.
    assert (Hlx : ilog2 x = ilog2 r).
    { apply ilog2_unique. split; [lra|]. rewrite Hpw. nra. }
    assert (Hfx : fexp x = fexp r) by (rewrite (fexp_pos x), (fexp_pos r), Hlx; lra || reflexivity).
    rewrite (round_pos x) by lra. rewrite Hfx. fold w.
    rewrite (rne_near k (x / w)); [rewrite Hr; apply Qle_refl|].
    split.
    + apply Qlt_shift_div_l; [assumption|]. nra.
    + apply Qlt_shift_div_r; [assumption|]. nra.
  - rewrite <- Hr. now apply round_mono.
Qed.

(** The float after one. *)
Lemma float_above_one (r : Q) :
  is_float r -> 1 < r -> 1 + (1 # 9007199254740992) <= r.
Proof.
  intros Hr H1. destruct (Qlt_le_dec r (1 + (1 # 9007199254740992))) as [Hlt | Hge];
    [|assumption].
  exfalso.
  assert (Hone : is_float 1) by exact round_one.
  assert (Hf1 : fexp 1 = (-52)%Z) by reflexivity.
  pose proof (round_below_middle 1 r Hone) as H.
  rewrite Hf1, pow2_m52 in H. unfold is_float in Hr. rewrite Hr in H.
  assert (r <= 1) by (apply H; lra). lra.
Qed.


(** ** The factor [RRt * Tp + (1 - Tp)] in floats *)

Lemma one_le_round (x : Q) : 1 - (1 # 18014398509481984) <= x -> 1 <= round x.
Proof.
  intro H. apply Qle_trans with (round (1 - (1 # 18014398509481984))).
  - rewrite round_below_one. apply Qle_refl.
  - apply round_mono; lra.
Qed.

Lemma round_le_one (x : Q) :
  0 <= x -> x <= 1 + (1 # 18014398509481984) -> round x <= 1.
Proof.
  intros H0 H. apply Qle_trans with (round (1 + (1 # 18014398509481984))).
  - apply round_mono; lra.
  - rewrite round_above_one. apply Qle_refl.
Qed.

Lemma round_le_float (r x : Q) : is_float r -> 0 <= x -> x <= r -> round x <= r.
Proof.
  intros Hr H0 H. unfold is_float in Hr.
  apply Qle_trans with (round r); [now apply round_mono | rewrite Hr; apply Qle_refl].
Qed.

Lemma float_le_round (r x : Q) : is_float r -> 0 <= r -> r <= x -> r <= round x.
Proof.
  intros Hr H0 H. unfold is_float in Hr.
  apply Qle_trans with (round r); [rewrite Hr; apply Qle_refl | now apply round_mono].
Qed.

(** With [1 <= RRt] the factor, computed in floats, is at least one. *)
Lemma factor_ge_one (t a : Q) :
  is_float t -> 0 <= t <= 1 -> t <= a ->
  1 <= round (a + round (1 - t)).
Proof.
  intros Ht [T0 T1] Ha. apply one_le_round.
  destruct (Qlt_le_dec t (1 # 2)) as [Hlt | Hge].
  - destruct (round_near_one (1 - t)) as [L _]; lra.
  - pose proof (complement_float t Ht) as Hc. unfold is_float in Hc.
    rewrite Hc by lra. lra.
Qed.

(** With [1 <= RRt] the factor, computed in floats, is at most [RRt]. *)
Lemma factor_le_RRt (r t : Q) :
  is_float r -> 1 <= r -> is_float t -> 0 <= t <= 1 ->
  round (round (r * t) + round (1 - t)) <= r.
Proof.
  intros Hr R1 Ht [T0 T1].
  pose proof (pow2_pos (fexp r)) as Hw.
  assert (Ha0 : 0 <= round (r * t)) by (apply round_nonneg; nra).
  assert (Hb0 : 0 <= round (1 - t)) by (apply round_nonneg; lra).
  assert (Ha : round (r * t) <= r * t + pow2 (fexp r) * (1 # 2)).
  { destruct (zero_or_pos (r * t)) as [E | P]; [nra | |].
    - rewrite (round_zero _ E), E. lra.
    - eapply Qle_trans; [apply round_le_half; assumption|].
      assert (pow2 (fexp (r * t)) <= pow2 (fexp r)); [|lra].
      apply pow2_le. apply fexp_mono; [assumption | nra]. }
  destruct (Qlt_le_dec t 1) as [Tlt | Tge].
  - destruct (Qlt_le_dec 1 r) as [Rgt | Rle].
    + pose proof (float_above_one r Hr Rgt) as Hr1.
      apply (round_below_middle r); [assumption | assumption | lra |].
      destruct (Qlt_le_dec t (1 # 2)) as [Hlt | Hge].
      * destruct (round_near_one (1 - t)) as [_ U]; [lra|].
        assert ((1 # 18014398509481984) < (r - 1) * (1 - t)) by nra.
        lra.
      * pose proof (complement_float t Ht) as Hc. unfold is_float in Hc.
        rewrite Hc by lra.
        assert (0 < (r - 1) * (1 - t)) by nra.
        lra.
    + assert (E : r == 1) by lra.
      assert (Ea : round (r * t) == t).
      { unfold is_float in Ht. rewrite <- Ht at 2. apply round_comp; [nra|].
        rewrite E. ring. }
      apply Qle_trans with 1; [|lra]. apply round_le_one; [lra|]. rewrite Ea.
      destruct (Qlt_le_dec t (1 # 2)) as [Hlt | Hge].
      * destruct (round_near_one (1 - t)) as [_ U]; lra.
      * pose proof (complement_float t Ht) as Hc. unfold is_float in Hc.
        rewrite Hc by lra. lra.
  - assert (E : t == 1) by lra.
    assert (E0 : 1 - t == 0) by lra.
    rewrite (round_zero _ E0).
    apply round_le_float; [assumption | lra |].
    assert (Er : round (r * t) == round r) by (apply round_comp; [nra|]; rewrite E; ring).
    unfold is_float in Hr. rewrite Er, Hr. lra.
Qed.

(** The rounding on values one can read off a Python session: the floats
    of the literals 0.1 and 0.8, two ties about one (to the even float),
    and the two ties about the smallest positive float. *)
Lemma round_examples :
  round (1 # 10) == 3602879701896397 # 36028797018963968
  /\ round (8 # 10) == 3602879701896397 # 4503599627370496
  /\ round (1 + pow2 (-53)) == 1
  /\ round (1 + 3 * pow2 (-53)) == 1 + pow2 (-51)
  /\ round (pow2 (-1075)) == 0
  /\ round (3 * pow2 (-1075)) == 2 * pow2 (-1074).
Proof. repeat split; vm_compute; reflexivity. Qed.

End F64Facts.

Module Binary64Facts.
Import Verifier Notions F64 F64Facts Binary64.
Local Open Scope Q_scope.

Lemma getf_float (field : option Q) (default : Q) :
  float_field field -> 0 <= default -> is_float (getf field default).
Proof.
  destruct field as [v|]; cbn; [tauto|]. intros _ Hd. now apply round_idem.
Qed.

(** A quotient of two floats that are not negative. *)
Lemma fdiv_nonneg (x y q : Q) :
  0 <= x -> 0 <= y -> fdiv x y = Some q -> 0 <= q /\ is_float q.
Proof.
  intros Hx Hy. unfold fdiv. destruct (Qeq_bool y 0) eqn:E; [discriminate|].
  intros [= <-].
  assert (Hy0 : 0 < y).
  { destruct (zero_or_pos y Hy) as [Z | P]; [|assumption].
    apply Qeq_eq_bool in Z. congruence. }
  assert (Hq : 0 <= x / y).
  { apply Qle_shift_div_l; [assumption|]. now rewrite Qmult_0_l. }
  split; [now apply round_nonneg | now apply round_idem].
Qed.

(** X25 (calculate_thresholds, in the floats of Python): the order of the
    thresholds does not depend on the arithmetic being exact.  With every
    operation rounded to the nearest float, for float parameters in their
    clinical ranges and RRt at least 1, the thresholds a call returns
    satisfy Ptt <= Pt in the standard model and Pt <= Ptt in the reversed
    one. *)
Theorem binary64_order (p : params) (is_reversed : bool) (th : thresholds) :
  float_params p ->
  (if is_reversed then 1 < getf (RRrx p) 0.15
   else 0 < getf (RRrx p) 0.15 < 1 /\ 1 < getf (RRbleed p) 2.17) ->
  0 < getf (RV p) 1 ->
  0 < getf (H p) 0.005 ->
  0 <= getf (Tp p) 0.38 <= 1 ->
  1 <= getf (RRt p) 1.65 ->
  Binary64.calculate_thresholds p is_reversed = Some th ->
  lower th is_reversed <= upper th is_reversed.
Proof.
  intros (_ & _ & _ & _ & Ftp & Frt) Hrx Hrv Hh [Htp0 Htp1] Hrt Hth.
  assert (FTp : is_float (getf (Tp p) 0.38))
    by (apply getf_float; [assumption | unfold Qle; cbn; lia]).
  assert (FRRt : is_float (getf (RRt p) 1.65))
    by (apply getf_float; [assumption | unfold Qle; cbn; lia]).
  unfold calculate_thresholds in Hth. cbv zeta in Hth.
  set (RV := getf (Verifier.RV p) 1) in *.
  set (RRbleed := getf (Verifier.RRbleed p) 2.17) in *.
  set (H := getf (Verifier.H p) 0.005) in *.
  set (RRrx := getf (Verifier.RRrx p) 0.15) in *.
  set (Tp := getf (Verifier.Tp p) 0.38) in *.
  set (RRt := getf (Verifier.RRt p) 1.65) in *.
  destruct is_reversed.
  - destruct (fdiv (fmul RV H) (fsub RRrx 1)) as [pt|] eqn:Ept; [|discriminate].
    injection Hth as <-. unfold lower, upper. cbn [Pt Ptt].
    assert (Hn : 0 <= fmul RV H) by (unfold fmul; apply round_nonneg; nra).
    assert (Hd : 0 <= fsub RRrx 1) by (unfold fsub; apply round_nonneg; lra).
    destruct (fdiv_nonneg _ _ _ Hn Hd Ept) as [Hpt0 Fpt].
    assert (Hf : 1 <= fadd (fmul RRt Tp) (fsub 1 Tp)).
    { unfold fadd, fsub, fmul. apply factor_ge_one; [assumption | now split|].
      apply float_le_round; [assumption | assumption | nra]. }
    unfold fmul at 1. apply float_le_round; [assumption | assumption | nra].
  - destruct Hrx as [[Hrx0 Hrx1] Hb].
    destruct (fdiv (fmul (fmul RV (fsub RRbleed 1)) H) (fsub 1 RRrx)) as [pt|] eqn:Ept;
      [|discriminate].
    destruct (fdiv (fadd (fmul RRt Tp) (fsub 1 Tp)) RRt) as [q|] eqn:Eq; [|discriminate].
    injection Hth as <-. unfold lower, upper. cbn [Pt Ptt].
    assert (Hn : 0 <= fmul (fmul RV (fsub RRbleed 1)) H).
    { unfold fmul, fsub. apply round_nonneg.
      assert (0 <= round (RV * round (RRbleed - 1))); [|nra].
      apply round_nonneg.
      assert (0 <= round (RRbleed - 1)) by (apply round_nonneg; lra). nra. }
    assert (Hd : 0 <= fsub 1 RRrx) by (unfold fsub; apply round_nonneg; lra).
    destruct (fdiv_nonneg _ _ _ Hn Hd Ept) as [Hpt0 Fpt].
    assert (Hq : 0 <= q <= 1).
    { unfold fdiv in Eq. destruct (Qeq_bool RRt 0); [discriminate|].
      injection Eq as <-.
      assert (Hfac0 : 0 <= fadd (fmul RRt Tp) (fsub 1 Tp))
        by (unfold fadd, fmul, fsub; apply round_nonneg;
            assert (0 <= round (RRt * Tp)) by (apply round_nonneg; nra);
            assert (0 <= round (1 - Tp)) by (apply round_nonneg; lra); lra).
      assert (Hfac1 : fadd (fmul RRt Tp) (fsub 1 Tp) <= RRt)
        by (unfold fadd, fmul, fsub; now apply factor_le_RRt).
      split.
      - apply round_nonneg. apply Qle_shift_div_l; [lra|]. now rewrite Qmult_0_l.
      - apply (round_le_float 1); [exact round_one | |].
        + apply Qle_shift_div_l; [lra|]. now rewrite Qmult_0_l.
        + apply Qle_shift_div_r; [lra|]. lra. }
    unfold fmul. apply round_le_float; [assumption | nra | nra].
Qed.

Lemma binary64_order_witness :
  exists th,
    Binary64.calculate_thresholds Samples.R1_low_floats false = Some th
    /\ lower th false <= upper th false.
Proof.
  eexists. split; [vm_compute; reflexivity|].
  apply (binary64_order Samples.R1_low_floats false).
  - repeat split; vm_compute; reflexivity.
  - split; [split|]; vm_compute; reflexivity.
  - vm_compute; reflexivity.
  - vm_compute; reflexivity.
  - split; vm_compute; discriminate.
  - vm_compute; discriminate.
  - vm_compute; reflexivity.
Defined.

(** What rounding does and exact arithmetic does not show.  With RRt = 0.8
    and Tp = 1e-17 the factor of the reversed model is exactly 1 in
    floats, so Ptt equals Pt although RRt is below one: the order can hold
    for RRt < 1.  With H the smallest positive float both thresholds are
    zero. *)
Lemma binary64_rounding_shows :
  (exists th,
      Binary64.calculate_thresholds Samples.tiny_Tp_floats true = Some th
      /\ Ptt th == Pt th
      /\ getf (RRt Samples.tiny_Tp_floats) 1.65 < 1
      /\ 0 < getf (Tp Samples.tiny_Tp_floats) 0.38)
  /\ (exists th,
         Binary64.calculate_thresholds Samples.tiny_H_floats true = Some th
         /\ Pt th == 0 /\ Ptt th == 0
         /\ 0 < getf (H Samples.tiny_H_floats) 0.005).
Proof.
  split; eexists; (split; [vm_compute; reflexivity|]);
    repeat split; vm_compute; reflexivity.
Qed.

End Binary64Facts.
